(** * Sales-analysis pipeline: a shallow embedding of the step controller

    The development follows the Python sources:
    - [data_processing.py]: the three data transforms (steps 1 to 3);
    - [ui_helpers.py]: [make_snapshot];
    - [app.py]: the session state, [run_step], [run_all_steps],
      [undo_last_step], the schema-mapping form and the conditions under
      which the page draws its buttons;
    - [ai_kpi.py]: the key-rotating access to the text-generation service.

    Data frames are finite tables of cells, kept column by column together
    with their row index.  Floating-point values are IEEE binary64 numbers,
    given by [SpecFloat] (53 bits of precision, infinities at exponent 1024),
    so that the null percentages are computed with the roundings of the
    program.  Python exceptions are values of type [exn]; a function that
    can raise returns a [result].

    The session state of the page is one record, passed from handler to
    handler; the snapshot store and the summaries are finite maps inside
    it.  Frames are values: the program never changes a frame that a
    second name refers to ([rename] and the column assignments of step 3
    work on a private copy, the views copy before they filter), so a
    copy is an equal value and sharing cannot be observed. *)

From Stdlib Require Import ZArith List Bool String Ascii Lia SpecFloat Sorted.
From stdpp Require Import gmap strings pretty.
From Equations Require Import Equations.
Import ListNotations.

Local Open Scope string_scope.
Local Open Scope Z_scope.
Local Open Scope list_scope.

(** ** Exceptions and results *)

Inductive exn : Type :=
  | KeyError (key : Z)          (* a missing integer key of a dict *)
  | LabelError (label : string) (* KeyError on a missing column label *)
  | IndexError
  | ValueError (msg : string)
  | TypeError (msg : string)
  | AttributeError (msg : string)
  | ZeroDivisionError
  | ServiceError (msg : string). (* raised by the external AI client *)

Inductive result (A : Type) : Type :=
  | Ok (a : A)
  | Raise (e : exn).
Arguments Ok {A} a.
Arguments Raise {A} e.

#[global] Instance result_ret : MRet result := fun A a => Ok a.
#[global] Instance result_bind : MBind result := fun A B f r =>
  match r with
  | Ok a => f a
  | Raise e => Raise e
  end.

Definition is_ok {A} (r : result A) : bool :=
  match r with Ok _ => true | Raise _ => false end.
Definition returns {A} (r : result A) : Prop := is_ok r = true.
Definition raises {A} (r : result A) : Prop := is_ok r = false.

(** ** Binary64 arithmetic *)

Module F64.
Definition prec : Z := 53.
Definition emax : Z := 1024.

(** Conversion of an integer, rounding to nearest even. *)
Definition of_Z (z : Z) : spec_float := binary_normalize prec emax z 0 false.
Definition div : spec_float → spec_float → spec_float := SFdiv prec emax.
Definition mul : spec_float → spec_float → spec_float := SFmul prec emax.
Definition add : spec_float → spec_float → spec_float := SFadd prec emax.
Definition sub : spec_float → spec_float → spec_float := SFsub prec emax.
(** [gtb x y] is the comparison [x > y]; it is false on a NaN. *)
Definition gtb (x y : spec_float) : bool := SFltb y x.

Definition two52 : spec_float := of_Z (2 ^ 52).

(** [rint]: the nearest integer, ties to even.  Below [2^52] in absolute
    value, adding and subtracting [2^52] rounds to the unit; from [2^52]
    on a binary64 number is already an integer. *)
Definition rint (x : spec_float) : spec_float :=
  if SFltb (SFabs x) two52 then
    match x with
    | S754_finite true _ _ | S754_zero true =>
        SFopp (sub (add (SFabs x) two52) two52)
    | _ => sub (add x two52) two52
    end
  else x.

(** [numpy.round(x, 2)]: scale by [10^2], [rint], scale back. *)
Definition round2 (x : spec_float) : spec_float :=
  div (rint (mul x (of_Z 100))) (of_Z 100).

(** A positive number with a full mantissa of 53 bits. *)
Definition normal (x : spec_float) (m : positive) (e : Z) : Prop :=
  x = S754_finite false m e ∧ 2 ^ 52 ≤ Zpos m < 2 ^ 53.

(** The mantissa of 100, which is [7036874417766400 * 2^-46]. *)
Definition M100 : positive := 7036874417766400.

(** Something was shifted out of a mantissa. *)
Definition inexact (mrs : shr_record) : bool := shr_r mrs || shr_s mrs.
End F64.

(** ** Cells, series and data frames *)

(** A civil date; [pd.to_datetime] with a date-only format yields midnight
    time stamps, which are determined by their date. *)
Record date := mkDate { d_year : Z; d_month : Z; d_day : Z }.

Inductive cell : Type :=
  | NA                          (* NaN, None or NaT *)
  | VStr (s : string)
  | VBool (b : bool)
  | VInt (z : Z)
  | VFloat (f : spec_float)
  | VTime (d : date).

Definition isnull (c : cell) : bool :=
  match c with
  | NA | VFloat S754_nan => true
  | _ => false
  end.

(** A series: values with their labels, in order. *)
Definition Series (A : Type) : Type := list (string * A).

(** A data frame: the row labels and, for each column in order, its label
    and its cells.  Column labels may repeat, as pandas allows. *)
Record DataFrame := mkDF {
  df_index : list Z;
  df_data : list (string * list cell)
}.

Definition columns (df : DataFrame) : list string := map fst (df_data df).
Definition len (df : DataFrame) : nat := length (df_index df).

(** Every column has one cell per row. *)
Definition wf_frame (df : DataFrame) : Prop :=
  Forall (λ c : string * list cell, length (snd c) = len df) (df_data df).

(** [df.copy()]: frames are values here, a copy is equal to its original. *)
Definition copy (df : DataFrame) : DataFrame := df.

Definition has_column (df : DataFrame) (label : string) : bool :=
  bool_decide (label ∈ columns df).

(** The number of null cells of a column. *)
Definition null_count (col : list cell) : Z :=
  Z.of_nat (length (filter (λ x, isnull x = true) col)).

(** [df.isnull().sum()] *)
Definition isnull_sum (df : DataFrame) : Series Z :=
  map (λ c, (fst c, null_count (snd c))) (df_data df).

(** [counts / n * 100], in binary64. *)
Definition percentage (count : Z) (n : nat) : spec_float :=
  F64.mul (F64.div (F64.of_Z count) (F64.of_Z (Z.of_nat n))) (F64.of_Z 100).

Definition missing_percentage (df : DataFrame) : Series spec_float :=
  map (λ c, (fst c, percentage (snd c) (len df))) (isnull_sum df).

(** The null percentage of a column of the frame, as computed above. *)
Definition null_percentage (df : DataFrame) (c : string * list cell) : spec_float :=
  percentage (null_count (snd c)) (len df).

(** [p > threshold], the test of step 2. *)
Definition exceeds (p : spec_float) (threshold : Z) : bool :=
  F64.gtb p (F64.of_Z threshold).

(** The same test on the percentage of the specification, the exact
    quotient [100 * count / rows], for a frame with rows. *)
Definition exact_percentage_exceeds (count : Z) (rows : nat) (threshold : Z) : Prop :=
  threshold * Z.of_nat rows < 100 * count.

(** [s[labels]]: for each requested label, every entry that carries it. *)
Definition series_getitems {A} (s : Series A) (labels : list string) : Series A :=
  flat_map (λ l, filter (λ e, fst e = l) s) labels.

(** Keep the positions where the mask holds. *)
Fixpoint select {A} (mask : list bool) (l : list A) : list A :=
  match mask, l with
  | b :: mask', x :: l' => if b then x :: select mask' l' else select mask' l'
  | _, _ => []
  end.

(** [df[mask]] for a boolean row mask. *)
Definition select_rows (mask : list bool) (df : DataFrame) : DataFrame :=
  {| df_index := select mask (df_index df);
     df_data := map (λ c, (fst c, select mask (snd c))) (df_data df) |}.

(** [df.head(n)] *)
Definition head (n : nat) (df : DataFrame) : DataFrame :=
  {| df_index := firstn n (df_index df);
     df_data := map (λ c, (fst c, firstn n (snd c))) (df_data df) |}.

(** [df.drop(columns=labels, errors='ignore')] *)
Definition drop_columns (df : DataFrame) (labels : list string) : DataFrame :=
  {| df_index := df_index df;
     df_data := filter (λ c, fst c ∉ labels) (df_data df) |}.

(** [df.isnull().any(axis=1)], from the cells of the given columns: a row
    is marked when one of them is null. *)
Definition null_mask (n : nat) (cols : list (list cell)) : list bool :=
  fold_left (λ mask col, zip_with orb mask (map isnull col)) cols (repeat false n).

(** [df.dropna(subset=[label])]: a row goes when a column carrying the
    label is null there. *)
Definition dropna_subset (df : DataFrame) (label : string) : DataFrame :=
  let cols := map snd (filter (λ c, fst c = label) (df_data df)) in
  select_rows (map negb (null_mask (len df) cols)) df.

(** ** Step summaries *)

Inductive note : Type :=
  | NoteFound (ncols nrows : nat)       (* "Found n columns with missing data across m total rows..." *)
  | NoteDropped (threshold : Z) (ncols : nat) (* "Columns with > t% missing values were dropped. n columns removed." *)
  | NoteNoneExceeded (threshold : Z)    (* "No columns exceeded the t% missing threshold." *)
  | NoteDateConverted                   (* "The 'Date' column was converted to datetime objects..." *)
  | NoteDateSkipped.                    (* "Date conversion skipped: 'Date' column not found..." *)

(** A row of [missing_summary]. *)
Record missing_row := mkMissing {
  m_column : string;
  m_count : Z;
  m_percentage : spec_float
}.

(** A row of [dropped_summary]: the frame is indexed by the labels of the
    series it is built from. *)
Record dropped_row := mkDropped {
  d_label : string;
  d_column : string;
  d_percentage : spec_float
}.

Inductive summary : Type :=
  | SummaryEmpty                                   (* {} *)
  | SummaryMissing (missing_summary : list missing_row)
                   (sample_missing_rows : DataFrame) (n : note)
  | SummaryDropped (dropped_summary : list dropped_row) (n : note)
                   (rows_before rows_after : nat)
  | SummaryNote (n : note)
  | SummaryReady (data_ready : bool).

(** [sort_values('Missing Count', ascending=False)]: by insertion from the
    right, which keeps the order of rows with equal counts. *)
Fixpoint insert_desc (r : missing_row) (l : list missing_row) : list missing_row :=
  match l with
  | [] => [r]
  | r' :: l' =>
      if m_count r' <? m_count r then r :: l else r' :: insert_desc r l'
  end.

Definition sort_desc (l : list missing_row) : list missing_row :=
  foldr insert_desc [] l.

(** The counts of a sorted summary go down. *)
Definition descending (l : list missing_row) : Prop :=
  StronglySorted (λ a b, m_count b ≤ m_count a) l.

(** The rows of the summary before filtering and sorting: one per column. *)
Definition missing_row_of (n : nat) (c : string * list cell) : missing_row :=
  mkMissing (fst c) (null_count (snd c))
            (F64.round2 (percentage (null_count (snd c)) n)).

(** ** Step 1: [inspect_missing_values] *)

Definition inspect_missing_values (df : DataFrame) : result (DataFrame * summary) :=
  let missing_counts := isnull_sum df in
  let missing_percentage := missing_percentage df in
  let missing_summary :=
    zip_with (λ c p, mkMissing (fst c) (snd c) (F64.round2 (snd p)))
             missing_counts missing_percentage in
  let missing_summary :=
    sort_desc (filter (λ r, 0 < m_count r) missing_summary) in
  let missing_mask := null_mask (len df) (map snd (df_data df)) in
  let sample_missing_rows := copy (head 100 (select_rows missing_mask df)) in
  let note :=
    NoteFound (length missing_summary)
              (length (filter (λ b, b = true) missing_mask)) in
  Ok (df, SummaryMissing missing_summary sample_missing_rows note).

(** ** Step 2: [drop_missing_columns] *)

(** [pd.DataFrame({'Column': labels, 'Missing %': s})]: the frame takes the
    index of the series, and a list of another length is refused. *)
Definition dropped_frame (labels : list string) (s : Series spec_float)
  : result (list dropped_row) :=
  if decide (length labels = length s) then
    Ok (zip_with (λ l e, mkDropped (fst e) l (snd e)) labels s)
  else Raise (ValueError "array length does not match index length").

Definition drop_missing_columns (df : DataFrame) (threshold : Z)
  : result (DataFrame * summary) :=
  let rows_before := len df in
  let missing_percentage := missing_percentage df in
  let cols_to_drop :=
    map fst (filter (λ e, F64.gtb (snd e) (F64.of_Z threshold) = true)
                    missing_percentage) in
  dropped_summary ←
    dropped_frame cols_to_drop
      (map (λ e, (fst e, F64.round2 (snd e)))
           (series_getitems missing_percentage cols_to_drop));
  let df_new := copy (drop_columns df cols_to_drop) in
  let rows_after := len df_new in
  let note :=
    match cols_to_drop with
    | [] => NoteNoneExceeded threshold
    | _ => NoteDropped threshold (length cols_to_drop)
    end in
  Ok (df_new, SummaryDropped dropped_summary note rows_before rows_after).

(** ** Dates: [pd.to_datetime(..., format='%m-%d-%y', errors='coerce')] *)

Module Dates.
Definition digit (c : ascii) : option Z :=
  let n := Z.of_nat (nat_of_ascii c) in
  if (48 <=? n) && (n <=? 57) then Some (n - 48) else None.

(** [%m]: [1[0-2]|0[1-9]|[1-9]] *)
Definition parse_month (s : list ascii) : option Z :=
  match s with
  | [a] => match digit a with
           | Some x => if 1 <=? x then Some x else None
           | None => None
           end
  | [a; b] =>
      match digit a, digit b with
      | Some 0, Some y => if 1 <=? y then Some y else None
      | Some 1, Some y => if y <=? 2 then Some (10 + y) else None
      | _, _ => None
      end
  | _ => None
  end.

(** [%d]: [3[0-1]|[1-2]\d|0[1-9]|[1-9]| [1-9]] *)
Definition parse_day (s : list ascii) : option Z :=
  match s with
  | [a] => match digit a with
           | Some x => if 1 <=? x then Some x else None
           | None => None
           end
  | [a; b] =>
      match digit b with
      | Some y =>
          if Ascii.eqb a " "%char then (if 1 <=? y then Some y else None)
          else match digit a with
               | Some 0 => if 1 <=? y then Some y else None
               | Some 1 => Some (10 + y)
               | Some 2 => Some (20 + y)
               | Some 3 => if y <=? 1 then Some (30 + y) else None
               | _ => None
               end
      | None => None
      end
  | _ => None
  end.

(** [%y]: two digits; 00 to 68 are in the 2000s, 69 to 99 in the 1900s. *)
Definition parse_year (s : list ascii) : option Z :=
  match s with
  | [a; b] =>
      match digit a, digit b with
      | Some x, Some y =>
          let yy := 10 * x + y in
          Some (if yy <=? 68 then 2000 + yy else 1900 + yy)
      | _, _ => None
      end
  | _ => None
  end.

(** The fields between the dashes. *)
Fixpoint fields (s : list ascii) : list (list ascii) :=
  match s with
  | [] => [[]]
  | c :: s' =>
      if Ascii.eqb c "-"%char then [] :: fields s'
      else match fields s' with
           | f :: fs => (c :: f) :: fs
           | [] => [[c]]
           end
  end.

Definition is_leap (y : Z) : bool :=
  (y mod 4 =? 0) && (negb (y mod 100 =? 0) || (y mod 400 =? 0)).

Definition days_in_month (y m : Z) : Z :=
  if m =? 2 then (if is_leap y then 29 else 28)
  else if (m =? 4) || (m =? 6) || (m =? 9) || (m =? 11) then 30
  else 31.

Definition strptime (s : string) : option date :=
  match fields (list_ascii_of_string s) with
  | [fm; fd; fy] =>
      match parse_month fm, parse_day fd, parse_year fy with
      | Some m, Some d, Some y =>
          if d <=? days_in_month y m then Some (mkDate y m d) else None
      | _, _, _ => None
      end
  | _ => None
  end.

(** One cell of [to_datetime] with [errors='coerce']: what does not
    parse becomes NaT; a time stamp stays. *)
Definition to_datetime_cell (c : cell) : cell :=
  match c with
  | VStr s => match strptime s with Some d => VTime d | None => NA end
  | VTime d => VTime d
  | _ => NA
  end.

(** Days since 1970-01-01 of a civil date. *)
Definition days_from_civil (d : date) : Z :=
  let y := if d_month d <=? 2 then d_year d - 1 else d_year d in
  let era := y / 400 in
  let yoe := y - era * 400 in
  let mp := (d_month d + 9) mod 12 in
  let doy := (153 * mp + 2) / 5 + d_day d - 1 in
  let doe := yoe * 365 + yoe / 4 - yoe / 100 + doy in
  era * 146097 + doe - 719468.

Definition day_names : list string :=
  ["Monday"; "Tuesday"; "Wednesday"; "Thursday"; "Friday"; "Saturday"; "Sunday"].

(** 1970-01-01 was a Thursday. *)
Definition day_name (d : date) : string :=
  nth (Z.to_nat ((days_from_civil d + 3) mod 7)) day_names "".

(** [.dt.to_period('M').astype(str)] *)
Definition month_label (d : date) : string :=
  String.append (pretty (d_year d))
    (String.append "-"
       (String.append (if d_month d <? 10 then "0" else "") (pretty (d_month d)))).

Definition dt_month (c : cell) : cell :=
  match c with VTime d => VStr (month_label d) | _ => VStr "NaT" end.
Definition dt_year (c : cell) : cell :=
  match c with VTime d => VInt (d_year d) | _ => NA end.
Definition dt_day_name (c : cell) : cell :=
  match c with VTime d => VStr (day_name d) | _ => NA end.
End Dates.

(** ** Python dictionaries with string keys, in insertion order *)

Module Dict.
Definition t (V : Type) : Type := list (string * V).

(** [d[k] = v]: an existing key keeps its place. *)
Fixpoint set {V} (k : string) (v : V) (d : t V) : t V :=
  match d with
  | [] => [(k, v)]
  | (k', v') :: d' =>
      if decide (k = k') then (k, v) :: d' else (k', v') :: set k v d'
  end.

Fixpoint get {V} (k : string) (d : t V) : option V :=
  match d with
  | [] => None
  | (k', v') :: d' => if decide (k = k') then Some v' else get k d'
  end.

Definition keys {V} (d : t V) : list string := map fst d.
Definition values {V} (d : t V) : list V := map snd d.
End Dict.

(** ** Column access *)

(** [df[label]] is a series when one column carries the label and a frame
    when several do. *)
Inductive selection : Type :=
  | OneColumn (c : list cell)
  | SubFrame (cs : list (list cell)).

Definition getitem (df : DataFrame) (label : string) : result selection :=
  match map snd (filter (λ c, fst c = label) (df_data df)) with
  | [] => Raise (LabelError label)
  | [c] => Ok (OneColumn c)
  | cs => Ok (SubFrame cs)
  end.

(** [df[label] = values]: every column carrying the label is replaced; a
    new label is appended. *)
Definition setitem (df : DataFrame) (label : string) (values : list cell) : DataFrame :=
  {| df_index := df_index df;
     df_data :=
       if has_column df label then
         map (λ c, if decide (fst c = label) then (label, values) else c) (df_data df)
       else df_data df ++ [(label, values)] |}.

(** [df.rename(columns=m)] *)
Definition rename_columns (df : DataFrame) (m : Dict.t string) : DataFrame :=
  {| df_index := df_index df;
     df_data :=
       map (λ c, (default (fst c) (Dict.get (fst c) m), snd c)) (df_data df) |}.

(** [pd.to_datetime(df['Date'], format='%m-%d-%y', errors='coerce')]: a
    frame in place of a series is refused. *)
Definition to_datetime (sel : selection) : result (list cell) :=
  match sel with
  | OneColumn c => Ok (map Dates.to_datetime_cell c)
  | SubFrame _ => Raise (ValueError "cannot assemble with duplicate keys")
  end.

(** The accessors of [.dt] exist on a series only. *)
Definition dt (f : cell → cell) (sel : selection) : result (list cell) :=
  match sel with
  | OneColumn c => Ok (map f c)
  | SubFrame _ => Raise (AttributeError "'DataFrame' object has no attribute 'dt'")
  end.

(** Lookup in [{True: True, False: False, 'Yes': True, 'No': False}];
    Python identifies the keys [1] and [True], [0] and [False]. *)
Definition b2b_lookup (c : cell) : cell :=
  match c with
  | VBool b => VBool b
  | VInt 1 => VBool true
  | VInt 0 => VBool false
  | VStr s => if decide (s = "Yes") then VBool true
              else if decide (s = "No") then VBool false else NA
  | _ => NA
  end.

(** ** Step 3: [convert_date_and_derive] *)

(** [{v: k for k, v in mapping.items()}] *)
Definition reverse_dict (mapping : Dict.t string) : Dict.t string :=
  fold_left (λ acc kv, Dict.set (snd kv) (fst kv) acc) mapping [].

(** [df['B2B'] = df['B2B'].map({...})].  On a series the dictionary is
    looked up cell by cell.  When several columns are labelled B2B the
    selection is a frame, whose [map] wants a function: it returns a copy
    of an empty frame and raises on any other. *)
Definition map_b2b (df : DataFrame) : result DataFrame :=
  sel ← getitem df "B2B";
  match sel with
  | OneColumn c => Ok (setitem df "B2B" (map b2b_lookup c))
  | SubFrame _ =>
      if decide (len df = 0%nat) then Ok df
      else Raise (TypeError "the first argument must be callable")
  end.

Definition convert_date_and_derive (df : DataFrame) (mapping : Dict.t string)
  : result (DataFrame * summary) :=
  let df_new := copy df in
  (* 1. rename columns based on mapping *)
  let reverse_map := reverse_dict mapping in
  let df_new := rename_columns df_new reverse_map in
  if has_column df_new "Date" then
    (* 2. drop the unused columns *)
    let df_new := drop_columns df_new ["New"; "PendingS"] in
    (* 3. drop rows with missing Amount *)
    let df_new :=
      if has_column df_new "Amount" then dropna_subset df_new "Amount" else df_new in
    (* 4. convert the Date column, drop the rows where it failed *)
    sel ← getitem df_new "Date";
    dates ← to_datetime sel;
    let df_new := setitem df_new "Date" dates in
    let df_new := dropna_subset df_new "Date" in
    (* 5. B2B to boolean *)
    df_new ← (if has_column df_new "B2B" then map_b2b df_new else Ok df_new);
    (* 6. derived columns *)
    sel ← getitem df_new "Date";
    month ← dt Dates.dt_month sel;
    let df_new := setitem df_new "Month" month in
    sel ← getitem df_new "Date";
    year ← dt Dates.dt_year sel;
    let df_new := setitem df_new "Year" year in
    sel ← getitem df_new "Date";
    day ← dt Dates.dt_day_name sel;
    let df_new := setitem df_new "DayOfWeek" day in
    Ok (df_new, SummaryNote NoteDateConverted)
  else
    Ok (df_new, SummaryNote NoteDateSkipped).

(** ** The session state of [app.py] *)

(** [st.session_state.step_output] *)
Inductive output : Type :=
  | OutEmpty                    (* {} *)
  | OutLoad                     (* {"load": True} *)
  | OutRunAll (step : Z)        (* {"run_all_output": step} *)
  | OutError (e : exn)          (* {"error": str(e)} *)
  | OutUndo (step : Z).         (* {"undo": True, "step": step} *)

(** What the handlers display with [st.error], [st.warning], [st.success]. *)
Inductive alert : Type :=
  | ErrorStep (step : Z) (e : exn)
  | ErrorNotMapped
  | ErrorLoadFailed
  | ErrorCritical (missing : list string)
  | WarningInitialState
  | SuccessLoaded
  | SuccessMapping.

(** The keys of [st.session_state] that the handlers read or write.  The
    two keys of the AI module, [api_key_index] and [gemini_model], are in
    [ai_state] below; [data_ready], which the mapping form sets and
    nothing reads, is left out. *)
Record session := mkSession {
  current_step : Z;
  df_raw : DataFrame;
  df_current : DataFrame;
  snapshots : gmap Z DataFrame;
  column_mapping : Dict.t string;
  data_loaded : bool;
  mapped : bool;
  missing_threshold : Z;
  step_output : output;
  step_summaries : gmap Z summary;
  show_null_sample : bool;
  show_custom_dashboard : bool;
  alerts : list alert
}.

Definition empty_frame : DataFrame := mkDF [] [].

(** [init_state] on a fresh session. *)
Definition init_state : session :=
  {| current_step := 0; df_raw := empty_frame; df_current := empty_frame;
     snapshots := ∅; column_mapping := []; data_loaded := false;
     mapped := false; missing_threshold := 10; step_output := OutEmpty;
     step_summaries := ∅; show_null_sample := false;
     show_custom_dashboard := false; alerts := [] |}.

Definition set_current_step (v : Z) (s : session) : session :=
  mkSession v (df_raw s) (df_current s) (snapshots s) (column_mapping s)
    (data_loaded s) (mapped s) (missing_threshold s) (step_output s)
    (step_summaries s) (show_null_sample s) (show_custom_dashboard s) (alerts s).
Definition set_df_raw (v : DataFrame) (s : session) : session :=
  mkSession (current_step s) v (df_current s) (snapshots s) (column_mapping s)
    (data_loaded s) (mapped s) (missing_threshold s) (step_output s)
    (step_summaries s) (show_null_sample s) (show_custom_dashboard s) (alerts s).
Definition set_df_current (v : DataFrame) (s : session) : session :=
  mkSession (current_step s) (df_raw s) v (snapshots s) (column_mapping s)
    (data_loaded s) (mapped s) (missing_threshold s) (step_output s)
    (step_summaries s) (show_null_sample s) (show_custom_dashboard s) (alerts s).
Definition set_snapshots (v : gmap Z DataFrame) (s : session) : session :=
  mkSession (current_step s) (df_raw s) (df_current s) v (column_mapping s)
    (data_loaded s) (mapped s) (missing_threshold s) (step_output s)
    (step_summaries s) (show_null_sample s) (show_custom_dashboard s) (alerts s).
Definition set_column_mapping (v : Dict.t string) (s : session) : session :=
  mkSession (current_step s) (df_raw s) (df_current s) (snapshots s) v
    (data_loaded s) (mapped s) (missing_threshold s) (step_output s)
    (step_summaries s) (show_null_sample s) (show_custom_dashboard s) (alerts s).
Definition set_data_loaded (v : bool) (s : session) : session :=
  mkSession (current_step s) (df_raw s) (df_current s) (snapshots s)
    (column_mapping s) v (mapped s) (missing_threshold s) (step_output s)
    (step_summaries s) (show_null_sample s) (show_custom_dashboard s) (alerts s).
Definition set_mapped (v : bool) (s : session) : session :=
  mkSession (current_step s) (df_raw s) (df_current s) (snapshots s)
    (column_mapping s) (data_loaded s) v (missing_threshold s) (step_output s)
    (step_summaries s) (show_null_sample s) (show_custom_dashboard s) (alerts s).
Definition set_step_output (v : output) (s : session) : session :=
  mkSession (current_step s) (df_raw s) (df_current s) (snapshots s)
    (column_mapping s) (data_loaded s) (mapped s) (missing_threshold s) v
    (step_summaries s) (show_null_sample s) (show_custom_dashboard s) (alerts s).
Definition set_step_summaries (v : gmap Z summary) (s : session) : session :=
  mkSession (current_step s) (df_raw s) (df_current s) (snapshots s)
    (column_mapping s) (data_loaded s) (mapped s) (missing_threshold s)
    (step_output s) v (show_null_sample s) (show_custom_dashboard s) (alerts s).
Definition set_show_custom_dashboard (v : bool) (s : session) : session :=
  mkSession (current_step s) (df_raw s) (df_current s) (snapshots s)
    (column_mapping s) (data_loaded s) (mapped s) (missing_threshold s)
    (step_output s) (step_summaries s) (show_null_sample s) v (alerts s).
Definition display (a : alert) (s : session) : session :=
  mkSession (current_step s) (df_raw s) (df_current s) (snapshots s)
    (column_mapping s) (data_loaded s) (mapped s) (missing_threshold s)
    (step_output s) (step_summaries s) (show_null_sample s)
    (show_custom_dashboard s) (alerts s ++ [a]).

(** ** [ui_helpers.make_snapshot] *)

Definition make_snapshot (df : DataFrame) (step : Z) (s : session) : session :=
  set_snapshots (<[step := copy df]> (snapshots s)) s.

(** ** Step action handlers *)

(** The transform chosen by [run_step]; outside 1..7 nothing is computed
    and the summary stays [{}]. *)
Definition step_transform (step_num : Z) (df : DataFrame) (s : session)
  : result (DataFrame * summary) :=
  if step_num =? 1 then inspect_missing_values df
  else if step_num =? 2 then drop_missing_columns df (missing_threshold s)
  else if step_num =? 3 then convert_date_and_derive df (column_mapping s)
  else if bool_decide (step_num ∈ [4; 5; 6; 7]) then Ok (df, SummaryReady true)
  else Ok (df, SummaryEmpty).

Definition run_step (step_num : Z) (run_all_flag : bool) (s : session) : session :=
  let df := copy (df_current s) in
  let new_step := step_num in
  match step_transform step_num df s with
  | Ok (df, summary) =>
      let s := set_step_summaries (<[new_step := summary]> (step_summaries s)) s in
      let s := make_snapshot df new_step s in
      let s := set_df_current df s in
      let s := set_current_step new_step s in
      if run_all_flag then set_step_output (OutRunAll new_step) s
      else set_step_output OutEmpty s
  | Raise e =>
      let s := display (ErrorStep step_num e) s in
      set_step_output (OutError e) s
  end.

Definition run_all_steps (s : session) : session :=
  if negb (mapped s) then display ErrorNotMapped s
  else
    let s := set_df_current (copy (df_raw s)) s in
    let s := make_snapshot (df_current s) 0 s in
    fold_left (λ s step, run_step step true s) [1; 2; 3; 4; 5; 6; 7] s.

Definition undo_last_step (s : session) : result session :=
  let prev_step := current_step s - 1 in
  if 0 <=? prev_step then
    match snapshots s !! prev_step with
    | None => Raise (KeyError prev_step)
    | Some snap =>
        let s := set_df_current (copy snap) s in
        let s := set_current_step prev_step s in
        let s := set_step_output (OutUndo prev_step) s in
        Ok (set_show_custom_dashboard false s)
    end
  else Ok (display WarningInitialState s).

(** ** Data ingestion and schema mapping *)

(** [df.empty] *)
Definition is_empty (df : DataFrame) : bool :=
  bool_decide (len df = 0%nat) || bool_decide (df_data df = []).

(** The "Load Raw Data" button, on the frame read by [load_raw_data]. *)
Definition load_raw (df_raw : DataFrame) (s : session) : session :=
  if negb (is_empty df_raw) then
    let s := set_df_raw df_raw s in
    let s := set_df_current (copy df_raw) s in
    let s := make_snapshot (copy df_raw) 0 s in
    let s := set_data_loaded true s in
    let s := set_mapped false s in
    let s := set_current_step 0 s in
    let s := set_step_output OutLoad s in
    display SuccessLoaded s
  else display ErrorLoadFailed s.

Definition REQUIRED_COLS : Dict.t string :=
  [("Date", "Date Column"); ("Amount", "Sales Amount"); ("Qty", "Quantity Sold");
   ("Category", "Product Category"); ("Size", "Product Size");
   ("ship-state", "Shipping State"); ("ship-city", "Shipping City");
   ("Fulfilment", "Fulfillment Method"); ("Status", "Order Status");
   ("Order ID", "Order ID"); ("B2B", "B2B Flag (Optional)")].

Definition CRITICAL_COLS : list string := ["Date"; "Amount"; "Order ID"].

(** The option a select box starts on: the column of the same name when
    the file has one, SKIP otherwise. *)
Definition default_choice (df_raw : DataFrame) (std_name : string) : string :=
  if bool_decide (std_name ∈ "SKIP" :: columns df_raw) then std_name else "SKIP".

(** The dictionary filled while the form is drawn, from the option chosen
    for each standard name: source column to standard name. *)
Definition build_col_map (selected : string → string) : Dict.t string :=
  fold_left
    (λ col_map std_name,
       if decide (selected std_name ≠ "SKIP")
       then Dict.set (selected std_name) std_name col_map
       else col_map)
    (Dict.keys REQUIRED_COLS) [].

(** The critical names that no source column is mapped to. *)
Definition missing_critical (col_map : Dict.t string) : list string :=
  filter (λ c, c ∉ Dict.values col_map) CRITICAL_COLS.

(** A standard name that no source column is mapped to. *)
Definition unassigned (col_map : Dict.t string) (c : string) : Prop :=
  ∀ src, (src, c) ∉ col_map.

(** The "Apply Mapping" button. *)
Definition apply_mapping (col_map : Dict.t string) (s : session) : session :=
  match missing_critical col_map with
  | [] =>
      let s := set_column_mapping col_map s in
      let s := set_mapped true s in
      display SuccessMapping s
  | missing => display (ErrorCritical missing) s
  end.

(** ** [ai_kpi.py]: the text-generation service behind rotating keys *)

Section Gemini.

(** The client library is outside the program: [configure] stands for
    [genai.configure] followed by [genai.GenerativeModel], and
    [generate_content] for [model.generate_content(prompt)] followed by
    [response.text]; each may raise.  [API_KEYS] is the list read from
    the secrets, [[]] when there are none. *)
Context {model : Type}.
Variable API_KEYS : list string.
Variable configure : string → result model.
Variable generate_content : model → string → result string.

(** The two keys of the session state that this module uses. *)
Record ai_state := mkAi { api_key_index : nat; gemini_model : option model }.

(** The body of the [try] block: [API_KEYS[index]], then the client. *)
Definition try_configure (index : nat) : result model :=
  match API_KEYS !! index with
  | None => Raise IndexError
  | Some api_key => configure api_key
  end.

(** The keys left to try from an index; an index past the end is taken
    back into range by the first rotation. *)
Definition rank (index : nat) : nat :=
  if decide (index < length API_KEYS)%nat then (length API_KEYS - index)%nat
  else S (length API_KEYS).

Equations? get_gemini_model (s : ai_state) : result (option model) * ai_state
  by wf (rank (api_key_index s)) lt :=
get_gemini_model s with gemini_model s := {
  | Some m := (Ok (Some m), s);
  | None with try_configure (api_key_index s) := {
     | Ok m := (Ok (Some m), mkAi (api_key_index s) (Some m));
     | Raise _ with decide (length API_KEYS = 0%nat) := {
         (* (index + 1) % len(API_KEYS) with no key at all *)
         | left _ := (Raise ZeroDivisionError, s);
         | right Hne with decide (((api_key_index s + 1) mod length API_KEYS)%nat = 0%nat) := {
             | left _ :=
                 (Ok None,
                  mkAi ((api_key_index s + 1) mod length API_KEYS)%nat (gemini_model s));
             | right Hnz :=
                 get_gemini_model
                   (mkAi ((api_key_index s + 1) mod length API_KEYS)%nat None) } } } }.
Proof.
  simpl. unfold rank.
  pose proof (Nat.mod_upper_bound (api_key_index s + 1) (length API_KEYS) Hne) as Hlt.
  destruct (decide (_ < _)%nat) as [?|[]]; [|exact Hlt].
  destruct (decide (api_key_index s < length API_KEYS)%nat) as [Hi|Hi]; [|lia].
  destruct (decide (api_key_index s + 1 = length API_KEYS)%nat) as [E|E].
  - rewrite E, Nat.Div0.mod_same in Hnz. done.
  - rewrite Nat.mod_small in * by lia. lia.
Qed.

Definition all_keys_failed : string :=
  "Error: Could not configure AI model. All API keys failed.".
Definition request_failed : string :=
  "Error: AI request failed (Quota or API issue). Please wait or check keys.".

Definition get_gemini_response (prompt : string) (s : ai_state)
  : result string * ai_state :=
  let '(r, s) := get_gemini_model s in
  match r with
  | Raise e => (Raise e, s)
  | Ok None => (Ok all_keys_failed, s)
  | Ok (Some m) =>
      match generate_content m prompt with
      | Ok text => (Ok text, s)
      | Raise _ => (Ok request_failed, s)
      end
  end.

End Gemini.

(** The mapping is refused: the error names the missing critical columns
    and nothing else happens. *)
Definition rejected (col_map : Dict.t string) (s : session) : Prop :=
  ∃ missing, missing ≠ [] ∧
    apply_mapping col_map s = display (ErrorCritical missing) s.

(** ** The specification's reading of "run all" *)

(** The steps run one after the other, every one of them. *)
Definition run_steps (steps : list Z) (s : session) : session :=
  fold_left (λ s step, run_step step true s) steps s.

(** The steps run one after the other until one leaves an error marker;
    this is "stopping on the first failure" in the words of the
    specification. *)
Fixpoint run_steps_until_failure (steps : list Z) (s : session) : session :=
  match steps with
  | [] => s
  | step :: steps' =>
      let s' := run_step step true s in
      match step_output s' with
      | OutError _ => s'
      | _ => run_steps_until_failure steps' s'
      end
  end.

(** The start of a full run: the working frame is the raw frame again, and
    it is the snapshot of step 0. *)
Definition reset_to_raw (s : session) : session :=
  let s := set_df_current (copy (df_raw s)) s in
  make_snapshot (df_current s) 0 s.

Definition run_all_stopping (s : session) : session :=
  if negb (mapped s) then display ErrorNotMapped s
  else run_steps_until_failure [1; 2; 3; 4; 5; 6; 7] (reset_to_raw s).

(** The steps run by hand, one click after the other. *)
Definition run_manually (steps : list Z) (s : session) : session :=
  fold_left (λ s step, run_step step false s) steps s.

(** The transform of a step does not raise on the working frame. *)
Definition step_succeeds (step : Z) (s : session) : Prop :=
  returns (step_transform step (copy (df_current s)) s).

Definition step_fails (step : Z) (s : session) : Prop :=
  raises (step_transform step (copy (df_current s)) s).

(** No step of the list fails when they are run in order. *)
Fixpoint no_failure (steps : list Z) (s : session) : Prop :=
  match steps with
  | [] => True
  | step :: steps' =>
      step_succeeds step s ∧ no_failure steps' (run_step step true s)
  end.

(** The steps 1 to [k]. *)
Definition steps_upto (k : Z) : list Z := map Z.of_nat (seq 1 (Z.to_nat k)).

(** Two sessions give a step the same inputs: the working frame, the
    threshold and the mapping. *)
Definition same_inputs (s1 s2 : session) : Prop :=
  df_current s1 = df_current s2 ∧
  missing_threshold s1 = missing_threshold s2 ∧
  column_mapping s1 = column_mapping s2.

(** ** Sessions whose steps were run in order *)

(** Sessions reached from a load by applying a mapping, running a step no
    further than one past the step pointer, undoing, or a full run in
    which no step fails. *)
Inductive in_order : session → Prop :=
  | in_order_load df s :
      is_empty df = false → in_order (load_raw df s)
  | in_order_mapping col_map s :
      in_order s → in_order (apply_mapping col_map s)
  | in_order_step n flag s :
      in_order s → 1 ≤ n ≤ current_step s + 1 → in_order (run_step n flag s)
  | in_order_undo s s' :
      in_order s → undo_last_step s = Ok s' → in_order s'
  | in_order_run_all s :
      in_order s → mapped s = true →
      no_failure [1; 2; 3; 4; 5; 6; 7] (reset_to_raw s) →
      in_order (run_all_steps s).

(** ** The page: which handler a click can reach

    A handler runs when its widget is pressed, and a widget can be
    pressed when the script has drawn it.  The conditions below are the
    ones under which [app.py] draws each widget.  The slider and the
    check box of the sidebar write their value to the session on every
    run. *)

Definition set_missing_threshold (v : Z) (s : session) : session :=
  mkSession (current_step s) (df_raw s) (df_current s) (snapshots s)
    (column_mapping s) (data_loaded s) (mapped s) v (step_output s)
    (step_summaries s) (show_null_sample s) (show_custom_dashboard s) (alerts s).
Definition set_show_null_sample (v : bool) (s : session) : session :=
  mkSession (current_step s) (df_raw s) (df_current s) (snapshots s)
    (column_mapping s) (data_loaded s) (mapped s) (missing_threshold s)
    (step_output s) (step_summaries s) v (show_custom_dashboard s) (alerts s).

(** [st.session_state.current_step >= step_num] *)
Definition is_executed (step_num : Z) (s : session) : bool :=
  step_num <=? current_step s.

(** [st.session_state.step_output.get('run_all_output') == step_num] *)
Definition is_run_all_output (step_num : Z) (s : session) : bool :=
  match step_output s with
  | OutRunAll k => k =? step_num
  | _ => false
  end.

(** ['error' in st.session_state.step_output] *)
Definition has_error (s : session) : bool :=
  match step_output s with
  | OutError _ => true
  | _ => false
  end.

(** The main area shows the dashboard, not the pipeline. *)
Definition dashboard_view (s : session) : bool :=
  show_custom_dashboard s && (7 <=? current_step s).

(** The button of a step card is drawn:
    [if not is_executed or is_run_all_output]. *)
Definition step_button_drawn (step_num : Z) (s : session) : bool :=
  negb (is_executed step_num s) || is_run_all_output step_num s.

(** The body of a step card is drawn:
    [if is_executed or is_run_all_output]. *)
Definition card_body_drawn (step_num : Z) (s : session) : bool :=
  is_executed step_num s || is_run_all_output step_num s.

(** Sessions reached through the page.  The sidebar is drawn while the
    dashboard flag is off, its settings and the two pipeline buttons once
    data is loaded; with the flag on it holds the Back button only.  The
    mapping form offers SKIP and the columns of the raw frame, while the
    session is loaded and not mapped.  The step cards come with a mapped
    session, and the button of a card is drawn when the step is not yet
    executed or is the one a full run ended on.  The button runs
    [run_step] as its callback; when the card draws the button again in
    the run that follows, the marker of a full run is written for the
    step.  The button to the dashboard is in the body of card 7, after
    the test for the error marker. *)
Inductive reachable : session → Prop :=
  | reach_init : reachable init_state
  | reach_load df s :
      reachable s → show_custom_dashboard s = false → reachable (load_raw df s)
  | reach_slider v s :
      reachable s → show_custom_dashboard s = false → data_loaded s = true →
      0 ≤ v ≤ 100 → reachable (set_missing_threshold v s)
  | reach_null_sample b s :
      reachable s → show_custom_dashboard s = false → data_loaded s = true →
      reachable (set_show_null_sample b s)
  | reach_run_all s :
      reachable s → show_custom_dashboard s = false → data_loaded s = true →
      reachable (run_all_steps s)
  | reach_undo s s' :
      reachable s → show_custom_dashboard s = false → data_loaded s = true →
      undo_last_step s = Ok s' → reachable s'
  | reach_back s :
      reachable s → show_custom_dashboard s = true →
      reachable (set_show_custom_dashboard false s)
  | reach_mapping selected s :
      reachable s → dashboard_view s = false → data_loaded s = true →
      mapped s = false →
      (∀ std_name, selected std_name ∈ "SKIP" :: columns (df_raw s)) →
      reachable (apply_mapping (build_col_map selected) s)
  | reach_step n s :
      reachable s → dashboard_view s = false → data_loaded s = true →
      mapped s = true → 1 ≤ n ≤ 7 → step_button_drawn n s = true →
      reachable (run_step n false s)
  | reach_step_marker n s :
      reachable s → dashboard_view s = false → data_loaded s = true →
      mapped s = true → 1 ≤ n ≤ 7 → step_button_drawn n s = true →
      step_button_drawn n (run_step n false s) = true →
      reachable (set_step_output (OutRunAll n) (run_step n false s))
  | reach_see_more s :
      reachable s → dashboard_view s = false → data_loaded s = true →
      mapped s = true → card_body_drawn 7 s = true → has_error s = false →
      reachable (set_show_custom_dashboard true s).

(** Undo pressed [k] times. *)
Fixpoint undo_times (k : nat) (s : session) : result session :=
  match k with
  | O => Ok s
  | S k' => s' ← undo_last_step s; undo_times k' s'
  end.

(** The step pointer is a key of the snapshot store and holds the working
    frame, and so is every step below it. *)
Definition snapshots_complete (s : session) : Prop :=
  0 ≤ current_step s ∧
  snapshots s !! current_step s = Some (df_current s) ∧
  ∀ k, 0 ≤ k ≤ current_step s → is_Some (snapshots s !! k).

(** No snapshot was written beyond the step pointer. *)
Definition no_snapshot_ahead (s : session) : Prop :=
  ∀ k, is_Some (snapshots s !! k) → k ≤ current_step s.

(** ** Rows, labels and what the page keeps *)

(** The cells of row [i], column by column. *)
Definition row (df : DataFrame) (i : nat) : list cell :=
  map (λ c : string * list cell, nth i (snd c) NA) (df_data df).

(** The rows of a frame, in order. *)
Definition rows (df : DataFrame) : list (list cell) :=
  map (row df) (seq 0 (len df)).

(** A row with a null cell. *)
Definition has_null (r : list cell) : bool := existsb isnull r.

(** The number of columns that carry a label. *)
Definition label_count (df : DataFrame) (label : string) : nat :=
  length (filter (λ c : string * list cell, fst c = label) (df_data df)).

(** What the page keeps of its session, whatever is pressed. *)
Definition page_invariant (s : session) : Prop :=
  0 ≤ current_step s ≤ 7 ∧
  0 ≤ missing_threshold s ≤ 100 ∧
  (∀ k, is_Some (snapshots s !! k) → 0 ≤ k ≤ 7) ∧
  (∀ k, is_Some (step_summaries s !! k) → 1 ≤ k ≤ 7) ∧
  (data_loaded s = true →
     is_empty (df_raw s) = false ∧ snapshots s !! 0 = Some (df_raw s)) ∧
  (mapped s = true →
     data_loaded s = true ∧ missing_critical (column_mapping s) = [] ∧
     ∀ src std, (src, std) ∈ column_mapping s →
       src ∈ columns (df_raw s) ∧ std ∈ Dict.keys REQUIRED_COLS) ∧
  (is_run_all_output 7 s = true → current_step s = 7) ∧
  (show_custom_dashboard s = true → current_step s = 7 ∧ mapped s = true).

(** ** Sample data *)

Module Sample.

(** Three orders; the second has no amount, the third a date that does
    not parse. *)
Definition orders : DataFrame :=
  mkDF [0; 1; 2]
    [("Date", [VStr "04-30-22"; VStr "05-01-22"; VStr "n/a"]);
     ("Amount", [VFloat (F64.of_Z 647); NA; VFloat (F64.of_Z 100)]);
     ("Order ID", [VStr "171-9198151"; VStr "404-0687676"; VStr "408-5748499"]);
     ("Qty", [VInt 1; VInt 2; VInt 0]);
     ("B2B", [VBool false; VBool true; VBool false])].

(** The form left on its defaults. *)
Definition identity_mapping : Dict.t string :=
  build_col_map (default_choice orders).

(** The form with the source column B2B chosen for Qty and SKIP for B2B. *)
Definition crossed_mapping : Dict.t string :=
  build_col_map (λ std_name,
    if decide (std_name = "Qty") then "B2B"
    else if decide (std_name = "B2B") then "SKIP"
    else default_choice orders std_name).

(** The form with the source column Date chosen for Date and again for
    Qty; the other select boxes are left on their defaults. *)
Definition date_twice (std_name : string) : string :=
  if decide (std_name = "Qty") then "Date" else default_choice orders std_name.

Definition loaded : session := load_raw orders init_state.
Definition mapped_identity : session := apply_mapping identity_mapping loaded.
Definition mapped_crossed : session := apply_mapping crossed_mapping loaded.

(** The same orders under other headers. *)
Definition export : DataFrame :=
  mkDF [0; 1]
    [("order_date", [VStr "04-30-22"; VStr "05-01-22"]);
     ("total", [VFloat (F64.of_Z 647); VFloat (F64.of_Z 100)]);
     ("id", [VStr "171-9198151"; VStr "404-0687676"])].

Definition export_mapping : Dict.t string :=
  build_col_map (λ std_name,
    if decide (std_name = "Date") then "order_date"
    else if decide (std_name = "Amount") then "total"
    else if decide (std_name = "Order ID") then "id"
    else "SKIP").

(** A hundred rows; seven have no coupon. *)
Definition coupons : DataFrame :=
  mkDF (map Z.of_nat (seq 0 100))
    [("Order ID", map (λ i, VInt (Z.of_nat i)) (seq 0 100));
     ("coupon", repeat NA 7 ++ repeat (VStr "SAVE10") 93)].

(** Two columns under one label, as step 3 leaves them with the crossed
    mapping when the file has no Date column: one empty, one full. *)
Definition twins : DataFrame :=
  mkDF [0; 1] [("B2B", [NA; NA]); ("B2B", [VBool true; VBool false])].

(** A hundred orders of one day, ten of them without an amount. *)
Definition ledger : DataFrame :=
  mkDF (map Z.of_nat (seq 0 100))
    [("Date", repeat (VStr "04-30-22") 100);
     ("Amount", repeat NA 10 ++ repeat (VFloat (F64.of_Z 399)) 90);
     ("Order ID", map (λ i, VInt (Z.of_nat i)) (seq 0 100));
     ("Category", repeat (VStr "Kurta") 100)].

(** A hundred rows with six nulls in one column and four in another. *)
Definition sparse : DataFrame :=
  mkDF (map Z.of_nat (seq 0 100))
    [("promotion", repeat NA 6 ++ repeat (VStr "FREESHIP") 94);
     ("currency", repeat NA 4 ++ repeat (VStr "INR") 96)].

End Sample.

(** ** Tactics *)

(** Both outcomes of a step, by cases on the transform and the flag. *)
Ltac run_step_cases :=
  unfold run_step;
  destruct (step_transform _ _ _) as [[? ?]|?]; [|done];
  match goal with |- context [if ?flag then _ else _] => by destruct flag end.

(** * Properties *)

(** ** Step 1 *)

Lemma elem_of_insert_desc r x l : x ∈ insert_desc r l ↔ x = r ∨ x ∈ l.
Proof.
  induction l as [|r' l IH]; simpl.
  - rewrite list_elem_of_singleton, elem_of_nil. tauto.
  - destruct (m_count r' <? m_count r); rewrite !elem_of_cons; [tauto|].
    rewrite IH. tauto.
Qed.

Lemma elem_of_sort_desc x l : x ∈ sort_desc l ↔ x ∈ l.
Proof.
  induction l as [|r l IH]; simpl; [done|].
  rewrite elem_of_insert_desc, elem_of_cons, IH. tauto.
Qed.

Lemma length_insert_desc r l : length (insert_desc r l) = S (length l).
Proof.
  induction l as [|r' l IH]; simpl; [done|].
  destruct (m_count r' <? m_count r); simpl; [done|]. by rewrite IH.
Qed.

Lemma insert_desc_descending r l : descending l → descending (insert_desc r l).
Proof.
  unfold descending. induction 1 as [|r' l Hs IH Hall]; simpl.
  - repeat constructor.
  - destruct (Z.ltb_spec (m_count r') (m_count r)) as [Hlt|Hge].
    + constructor; [by constructor|]. constructor; [lia|].
      eapply Forall_impl; [exact Hall|]. simpl. intros. lia.
    + constructor; [exact IH|]. apply Forall_forall. intros x Hx.
      apply elem_of_insert_desc in Hx as [->|Hx]; [exact Hge|].
      by apply (proj1 (Forall_forall _ _) Hall).
Qed.

Lemma sort_desc_descending l : descending (sort_desc l).
Proof.
  induction l as [|r l IH]; simpl; [constructor|]. by apply insert_desc_descending.
Qed.

Lemma missing_rows_zip df :
  zip_with (λ c p, mkMissing (fst c) (snd c) (F64.round2 (snd p)))
           (isnull_sum df) (missing_percentage df)
  = map (missing_row_of (len df)) (df_data df).
Proof.
  unfold missing_percentage, isnull_sum.
  rewrite zip_with_fmap_r, zip_with_diag, <- list_fmap_compose.
  reflexivity.
Qed.

Lemma inspect_missing_values_ok df :
  ∃ sm, inspect_missing_values df = Ok (df, sm).
Proof. eexists. reflexivity. Qed.

(** C8.  [inspect_missing_values] never raises and returns the frame it
    was given.  Beside it comes the summary: one row for each column that
    has a null cell, with the count of nulls and the percentage rounded to
    two decimals, the counts going down; and a sample of rows of the
    frame, a hundred at most, in the columns of the frame. *)
Theorem inspect_missing_values_returns_frame (df : DataFrame) :
  ∃ missing_summary sample_missing_rows n,
    inspect_missing_values df
      = Ok (df, SummaryMissing missing_summary sample_missing_rows n) ∧
    (∀ r, r ∈ missing_summary ↔
          ∃ c, c ∈ df_data df ∧ 0 < null_count (snd c) ∧
               r = missing_row_of (len df) c) ∧
    descending missing_summary ∧
    (len sample_missing_rows ≤ 100)%nat ∧
    columns sample_missing_rows = columns df.
Proof.
  eexists _, _, _. split; [reflexivity|].
  rewrite missing_rows_zip. split; [|split; [|split]].
  - intros r. rewrite elem_of_sort_desc, list_elem_of_filter, list_elem_of_fmap.
    split.
    + intros [Hpos (c & -> & Hc)]. by exists c.
    + intros (c & Hc & Hpos & ->). split; [done|]. by exists c.
  - apply sort_desc_descending.
  - unfold len, copy, head. simpl. rewrite length_take. lia.
  - unfold columns, copy, head, select_rows. simpl.
    rewrite <- !list_fmap_compose. reflexivity.
Qed.

(** ** Binary64 rounding

    What the null percentage needs of [SpecFloat]'s rounding: a rounded
    mantissa is the quotient by the power of two that is shifted out, or
    its successor, and the quotient itself when nothing is lost. *)

Lemma digits2_pos_size p : digits2_pos p = Pos.size p.
Proof. induction p; simpl; congruence. Qed.

Lemma Zdigits2_bounds p :
  2 ^ (Zpos (digits2_pos p) - 1) <= Zpos p < 2 ^ Zpos (digits2_pos p).
Proof.
  rewrite digits2_pos_size.
  pose proof (Pos.size_gt p) as Hgt. pose proof (Pos.size_le p) as Hle.
  apply Pos2Z.pos_lt_pos in Hgt. apply Pos2Z.pos_le_pos in Hle.
  rewrite Pos2Z.inj_pow in Hgt, Hle.
  replace (Zpos (Pos.size p)) with (Zpos (Pos.size p) - 1 + 1) in Hle at 1 by lia.
  rewrite Z.pow_add_r in Hle by lia. change (2 ^ 1) with 2 in Hle.
  change (Z.pos p~0) with (2 * Z.pos p) in Hle.
  lia.
Qed.

(** A number with [d] binary digits. *)
Lemma Zdigits2_unique p d :
  2 ^ (d - 1) <= Zpos p < 2 ^ d -> Zpos (digits2_pos p) = d.
Proof.
  intros [Hlo Hhi]. destruct (Zdigits2_bounds p) as [Hlo' Hhi'].
  assert (0 < d) as Hd.
  { destruct (Z.le_gt_cases d 0) as [H|H]; [|exact H].
    assert (2 ^ d <= 2 ^ 0) by (apply Z.pow_le_mono_r; lia).
    change (2 ^ 0) with 1 in *. lia. }
  destruct (Z.lt_trichotomy (Zpos (digits2_pos p)) d) as [H|[H|H]]; [|exact H|].
  - assert (2 ^ Zpos (digits2_pos p) <= 2 ^ (d - 1)) by (apply Z.pow_le_mono_r; lia). lia.
  - assert (2 ^ d <= 2 ^ (Zpos (digits2_pos p) - 1)) by (apply Z.pow_le_mono_r; lia). lia.
Qed.

Lemma iter_pos_iter {A} (f : A -> A) p x : SpecFloat.iter_pos f p x = Pos.iter f x p.
Proof.
  revert x. induction p as [p IH|p IH|]; intros x; simpl.
  - rewrite !IH. rewrite <- Pos.iter_swap. rewrite <- Pos.iter_swap. reflexivity.
  - by rewrite !IH.
  - reflexivity.
Qed.

Lemma shr_1_spec m r s :
  0 <= m ->
  shr_1 (Build_shr_record m r s) = Build_shr_record (m / 2) (Z.odd m) (r || s).
Proof.
  intros Hm. destruct m as [|p|p]; [reflexivity| |lia].
  destruct p as [p|p|]; simpl shr_1.
  - f_equal. change (Z.pos p~1) with (2 * Z.pos p + 1).
    apply Z.div_unique with 1; lia.
  - f_equal. change (Z.pos p~0) with (2 * Z.pos p).
    apply Z.div_unique with 0; lia.
  - reflexivity.
Qed.

Lemma shr_iter_spec n mrs :
  0 <= shr_m mrs ->
  let mrs' := Nat.iter n shr_1 mrs in
  shr_m mrs' = shr_m mrs / 2 ^ Z.of_nat n /\
  (F64.inexact mrs' = false <->
   F64.inexact mrs = false /\ shr_m mrs mod 2 ^ Z.of_nat n = 0).
Proof.
  intros Hm. induction n as [|n [IHm IHx]].
  - simpl. rewrite Z.div_1_r, Z.mod_1_r. tauto.
  - cbn zeta in *. rewrite Nat.iter_succ.
    destruct (Nat.iter n shr_1 mrs) as [m' r' s'] eqn:E. simpl in IHm, IHx.
    assert (0 <= m') as Hm' by (rewrite IHm; apply Z.div_pos; lia).
    rewrite (shr_1_spec _ _ _ Hm'). simpl shr_m. unfold F64.inexact at 1. simpl.
    assert (0 < 2 ^ Z.of_nat n) as Hpow by (apply Z.pow_pos_nonneg; lia).
    rewrite Nat2Z.inj_succ, Z.pow_succ_r by lia.
    split.
    + rewrite IHm, Z.div_div by lia. f_equal. lia.
    + rewrite orb_false_iff, IHx.
      rewrite (Z.mul_comm 2), Z.rem_mul_r by lia.
      rewrite <- IHm.
      assert (Z.odd m' = false <-> m' mod 2 = 0) as Hodd.
      { rewrite Zmod_odd. destruct (Z.odd m'); split; intros; (discriminate || lia || reflexivity). }
      pose proof (Z.mod_pos_bound (shr_m mrs) (2 ^ Z.of_nat n) Hpow).
      pose proof (Z.mod_pos_bound m' 2 ltac:(lia)).
      rewrite Hodd. split.
      * intros [H1 [H2 H3]]. split; [exact H2|]. rewrite H1, H3. lia.
      * intros [H2 H3]. split; [nia|]. split; [exact H2|nia].
Qed.

Lemma fexp_normal e : -1021 <= e -> fexp 53 1024 e = e - 53.
Proof. intros H. unfold fexp, emin. lia. Qed.

Lemma inexact_of_loc m l :
  F64.inexact (shr_record_of_loc m l) = false <-> l = loc_Exact.
Proof. destruct l as [|[]]; simpl; split; intros; (discriminate || reflexivity). Qed.

Lemma shr_m_of_loc m l : shr_m (shr_record_of_loc m l) = m.
Proof. by destruct l as [|[]]. Qed.

Lemma shr_spec m l e k :
  0 <= m -> 0 <= k ->
  exists mrs, shr (shr_record_of_loc m l) e k = (mrs, e + k) /\
    shr_m mrs = m / 2 ^ k /\
    (F64.inexact mrs = false <-> l = loc_Exact /\ m mod 2 ^ k = 0).
Proof.
  intros Hm Hk. destruct k as [|p|p]; [| |lia].
  - exists (shr_record_of_loc m l). rewrite Z.add_0_r. split; [reflexivity|].
    rewrite shr_m_of_loc, inexact_of_loc, Z.div_1_r, Z.mod_1_r. tauto.
  - eexists. split; [reflexivity|].
    rewrite iter_pos_iter, Pos2Nat.inj_iter.
    change (nat_rect _ ?x (fun _ => ?f) ?n) with (Nat.iter n f x).
    pose proof (shr_iter_spec (Pos.to_nat p) (shr_record_of_loc m l)) as H.
    cbv zeta in H. rewrite !shr_m_of_loc, positive_nat_Z in H.
    destruct (H Hm) as [H1 H2]. split; [exact H1|].
    rewrite H2, inexact_of_loc. tauto.
Qed.

Lemma round_nearest_even_spec mrs :
  let m' := round_nearest_even (shr_m mrs) (loc_of_shr_record mrs) in
  (m' = shr_m mrs \/ m' = shr_m mrs + 1) /\
  (F64.inexact mrs = false -> m' = shr_m mrs).
Proof.
  destruct mrs as [m [] []]; simpl; try (destruct (Z.even m)); split;
    auto; discriminate.
Qed.

(** The shape of a rounded value: the mantissa keeps 53 digits; it is the
    quotient by the discarded power of two or its successor, and the
    quotient itself when nothing is discarded. *)
Lemma round_aux_shape m e l :
  0 < m -> 53 <= Zdigits2 m ->
  -1074 <= e + Zdigits2 m - 53 -> e + Zdigits2 m - 53 < 971 ->
  let k := Zdigits2 m - 53 in
  let q := m / 2 ^ k in
  let exact := l = loc_Exact /\ m mod 2 ^ k = 0 in
  2 ^ 52 <= q < 2 ^ 53 /\
  exists m' e', binary_round_aux 53 1024 false m e l = S754_finite false m' e' /\
    ((e' = e + k /\ (Zpos m' = q \/ Zpos m' = q + 1) /\ Zpos m' < 2 ^ 53 /\
      (exact -> Zpos m' = q)) \/
     (e' = e + k + 1 /\ Zpos m' = 2 ^ 52 /\ q = 2 ^ 53 - 1 /\ ~ exact)).
Proof.
  intros Hm Hd Hlo Hhi k q exact.
  destruct m as [|p|p]; [lia| |lia]. simpl Zdigits2 in *.
  destruct (Zdigits2_bounds p) as [Hp1 Hp2].
  assert (0 < 2 ^ k) as Hk by (apply Z.pow_pos_nonneg; lia).
  assert (2 ^ 52 <= q < 2 ^ 53) as Hq.
  { unfold q. replace (Zpos (digits2_pos p)) with (k + 53) in Hp2 by (unfold k; lia).
    replace (Zpos (digits2_pos p) - 1) with (k + 52) in Hp1 by (unfold k; lia).
    rewrite Z.pow_add_r in Hp1, Hp2 by lia. split.
    - apply Z.div_le_lower_bound; lia.
    - apply Z.div_lt_upper_bound; lia. }
  split; [exact Hq|].
  unfold binary_round_aux, shr_fexp. simpl Zdigits2.
  rewrite fexp_normal by lia.
  replace (Zpos (digits2_pos p) + e - 53 - e) with k by (unfold k; lia).
  destruct (shr_spec (Zpos p) l e k) as (mrs & -> & Hmrs & Hex); [lia|lia|].
  fold q in Hmrs. fold exact in Hex.
  destruct (round_nearest_even_spec mrs) as [Hr Hrx].
  set (m'' := round_nearest_even (shr_m mrs) (loc_of_shr_record mrs)) in *.
  rewrite Hmrs in Hr, Hrx.
  destruct (Z.eq_dec m'' (2 ^ 53)) as [Hcarry|Hnc].
  - (* the rounding carried into a 54th digit *)
    rewrite Hcarry. change (Zdigits2 (2 ^ 53)) with 54.
    rewrite fexp_normal by lia.
    replace (54 + (e + k) - 53 - (e + k)) with 1 by lia.
    change (shr (shr_record_of_loc (2 ^ 53) loc_Exact) (e + k) 1)
      with (Build_shr_record (Zpos (Z.to_pos (2 ^ 52))) false false, e + k + 1).
    cbv iota beta. simpl shr_m. cbv iota.
    destruct (Z.leb_spec (e + k + 1) (1024 - 53)) as [_|]; [|lia].
    eexists _, _. split; [reflexivity|]. right.
    split; [reflexivity|]. split; [reflexivity|]. split; [lia|].
    intros Hx. apply Hex in Hx. apply Hrx in Hx. lia.
  - assert (2 ^ 52 <= m'' < 2 ^ 53) as Hm'' by lia.
    destruct m'' as [|p''|p''] eqn:E; [lia| |lia].
    simpl Zdigits2. rewrite (Zdigits2_unique p'' 53) by (simpl; lia).
    rewrite fexp_normal by lia.
    replace (53 + (e + k) - 53 - (e + k)) with 0 by lia.
    change (shr (shr_record_of_loc (Zpos p'') loc_Exact) (e + k) 0)
      with (Build_shr_record (Zpos p'') false false, e + k).
    cbv iota beta. simpl shr_m. cbv iota.
    destruct (Z.leb_spec (e + k) (1024 - 53)) as [_|]; [|lia].
    eexists _, _. split; [reflexivity|]. left.
    split; [reflexivity|]. split; [exact Hr|]. split; [lia|].
    intros Hx. apply Hrx. by apply Hex.
Qed.

Lemma iter_xO p n : Zpos (Pos.iter xO p n) = Zpos p * 2 ^ Zpos n.
Proof.
  induction n as [|n IH] using Pos.peano_ind.
  - simpl Pos.iter. change (2 ^ 1) with 2. lia.
  - rewrite Pos.iter_succ, Pos2Z.inj_succ, Z.pow_succ_r by lia.
    change (Zpos (Pos.iter xO p n)~0) with (2 * Zpos (Pos.iter xO p n)). lia.
Qed.

Lemma shl_align_spec mx ex ex' :
  ex' <= ex ->
  exists mz, shl_align mx ex ex' = (mz, ex') /\ Zpos mz = Zpos mx * 2 ^ (ex - ex').
Proof.
  intros H. unfold shl_align. destruct (ex' - ex) as [|d|d] eqn:E; [|lia|].
  - exists mx. assert (ex' = ex) as -> by lia. rewrite Z.sub_diag. split; [reflexivity|]. lia.
  - eexists. split; [reflexivity|]. rewrite iter_xO. f_equal. f_equal. lia.
Qed.

(** Integers below [2^53] convert exactly. *)
Lemma of_Z_normal z :
  0 < z < 2 ^ 53 ->
  exists m e, F64.normal (binary_normalize 53 1024 z 0 false) m e /\
    -52 <= e <= 0 /\ Zpos m = z * 2 ^ (- e) /\ 2 ^ (e + 52) <= z < 2 ^ (e + 53).
Proof.
  intros [Hz1 Hz2]. destruct z as [|p|p]; [lia| |lia].
  destruct (Zdigits2_bounds p) as [Hp1 Hp2].
  set (d := Zpos (digits2_pos p)) in *.
  assert (1 <= d <= 53) as Hd.
  { split; [unfold d; lia|].
    destruct (Z.le_gt_cases d 53) as [H|H]; [exact H|].
    assert (2 ^ 53 <= 2 ^ (d - 1)) by (apply Z.pow_le_mono_r; lia). lia. }
  unfold binary_normalize, binary_round. fold d.
  rewrite fexp_normal by lia.
  destruct (shl_align_spec p 0 (d + 0 - 53)) as (mz & -> & Hmz); [lia|].
  replace (0 - (d + 0 - 53)) with (53 - d) in Hmz by lia.
  assert (2 ^ 52 <= Zpos mz < 2 ^ 53) as Hnorm.
  { rewrite Hmz.
    assert (2 ^ 52 = 2 ^ (d - 1) * 2 ^ (53 - d)) as ->
      by (rewrite <- Z.pow_add_r by lia; f_equal; lia).
    assert (2 ^ 53 = 2 ^ d * 2 ^ (53 - d)) as ->
      by (rewrite <- Z.pow_add_r by lia; f_equal; lia).
    assert (0 < 2 ^ (53 - d)) by (apply Z.pow_pos_nonneg; lia). nia. }
  assert (Zdigits2 (Zpos mz) = 53) as Hdig by (apply Zdigits2_unique; simpl; lia).
  destruct (round_aux_shape (Zpos mz) (d + 0 - 53) loc_Exact) as (_ & m' & e' & -> & Hcase);
    rewrite ?Hdig; try lia.
  rewrite Hdig, Z.sub_diag, Z.pow_0_r, Z.div_1_r, Z.mod_1_r in Hcase.
  exists m', e'.
  destruct Hcase as [(-> & _ & _ & Hx)|(_ & _ & _ & Hx)];
    [|exfalso; apply Hx; by split].
  assert (m' = mz) as -> by (apply Pos2Z.inj, Hx; by split).
  split; [by split|]. split; [lia|]. split.
  - rewrite Hmz. f_equal. f_equal. lia.
  - replace (d + 0 - 53 + 0 + 52) with (d - 1) by lia.
    replace (d + 0 - 53 + 0 + 53) with d by lia. lia.
Qed.

Lemma new_location_exact n : new_location n 0 = loc_Exact.
Proof. unfold new_location. by destruct (Z.even n). Qed.

(** The quotient of two normal floats, before rounding. *)
Lemma SFdiv_normal ma ea mb eb :
  2 ^ 52 <= Zpos ma < 2 ^ 53 -> 2 ^ 52 <= Zpos mb < 2 ^ 53 ->
  -900 <= ea - eb ->
  SFdiv 53 1024 (S754_finite false ma ea) (S754_finite false mb eb)
  = binary_round_aux 53 1024 false
      ((Zpos ma * 2 ^ 53) / Zpos mb) (ea - eb - 53)
      (new_location (Zpos mb) ((Zpos ma * 2 ^ 53) mod Zpos mb)).
Proof.
  intros Ha Hb He. unfold SFdiv, SFdiv_core_binary. simpl Zdigits2.
  rewrite (Zdigits2_unique ma 53), (Zdigits2_unique mb 53) by (simpl; lia).
  rewrite fexp_normal by lia.
  replace (Z.min (53 + ea - (53 + eb) - 53) (ea - eb)) with (ea - eb - 53) by lia.
  replace (ea - eb - (ea - eb - 53)) with 53 by lia.
  rewrite Z.shiftl_mul_pow2 by lia. simpl xorb.
  unfold Z.div, Z.modulo.
  by destruct (Z.div_eucl (Zpos ma * 2 ^ 53) (Zpos mb)) as [q r].
Qed.

(** A quotient [c / n] with [0 < c ≤ n < 2^53]: at most one. *)
Lemma div_le_one c n :
  0 < c <= n -> n < 2 ^ 53 ->
  exists m e,
    F64.normal (SFdiv 53 1024 (binary_normalize 53 1024 c 0 false)
                          (binary_normalize 53 1024 n 0 false)) m e /\
    -107 <= e /\ (e <= -53 \/ (e = -52 /\ Zpos m = 2 ^ 52)).
Proof.
  intros Hc Hn.
  destruct (of_Z_normal c) as (ma & ea & [-> Ha] & Hea & Hma & Hca); [lia|].
  destruct (of_Z_normal n) as (mb & eb & [-> Hb] & Heb & Hmb & Hnb); [lia|].
  assert (ea <= eb) as Hee.
  { destruct (Z.le_gt_cases ea eb) as [H|H]; [exact H|].
    assert (2 ^ (eb + 53) <= 2 ^ (ea + 52)) by (apply Z.pow_le_mono_r; lia). lia. }
  assert (ea = eb -> Zpos ma <= Zpos mb) as Hmm.
  { intros ->. rewrite Hma, Hmb.
    assert (0 < 2 ^ (- eb)) by (apply Z.pow_pos_nonneg; lia). nia. }
  rewrite SFdiv_normal by (lia || exact Ha || exact Hb).
  set (Q := Zpos ma * 2 ^ 53 / Zpos mb).
  set (r := (Zpos ma * 2 ^ 53) mod Zpos mb).
  assert (2 ^ 52 <= Q < 2 ^ 54) as HQ.
  { unfold Q. split.
    - apply Z.div_le_lower_bound; [lia|]. nia.
    - apply Z.div_lt_upper_bound; [lia|].
      change (2 ^ 54) with (2 ^ 53 * 2). nia. }
  assert (ea = eb -> Q <= 2 ^ 53) as HQle.
  { intros He. specialize (Hmm He). unfold Q.
    apply Z.div_le_upper_bound; [lia|]. nia. }
  assert (ea = eb -> Q = 2 ^ 53 -> r = 0) as Hr0.
  { intros He HQ53. specialize (Hmm He).
    assert (Zpos ma = Zpos mb) as E.
    { pose proof (Z.mul_div_le (Zpos ma * 2 ^ 53) (Zpos mb) ltac:(lia)) as H.
      fold Q in H. rewrite HQ53 in H. nia. }
    unfold r. rewrite E, Z.mul_comm. apply Z.mod_mul. lia. }
  destruct Q as [|pq|pq] eqn:EQ; [lia| |lia].
  destruct (Z.lt_ge_cases (Zpos pq) (2 ^ 53)) as [Hlt|Hge].
  - (* 53 digits: nothing is shifted out *)
    assert (Zdigits2 (Zpos pq) = 53) as Hdig by (apply Zdigits2_unique; simpl; lia).
    destruct (round_aux_shape (Zpos pq) (ea - eb - 53) (new_location (Zpos mb) r))
      as (_ & m' & e' & -> & Hcase); rewrite ?Hdig; try lia.
    rewrite Hdig, Z.sub_diag, Z.pow_0_r, Z.div_1_r in Hcase.
    exists m', e'. split; [|split].
    + split; [reflexivity|]. destruct Hcase as [(_ & H & H' & _)|(_ & -> & _)]; lia.
    + destruct Hcase as [(-> & _)|(-> & _)]; lia.
    + destruct Hcase as [(-> & _)|(-> & H & _)]; lia.
  - (* 54 digits: one bit is shifted out *)
    assert (Zdigits2 (Zpos pq) = 54) as Hdig by (apply Zdigits2_unique; simpl; lia).
    destruct (round_aux_shape (Zpos pq) (ea - eb - 53) (new_location (Zpos mb) r))
      as (Hq & m' & e' & -> & Hcase); rewrite ?Hdig; try lia.
    rewrite Hdig in Hcase, Hq.
    change (54 - 53) with 1 in Hcase, Hq. change (2 ^ 1) with 2 in Hcase, Hq.
    exists m', e'. split; [|split].
    + split; [reflexivity|]. destruct Hcase as [(_ & H & H' & _)|(_ & -> & _)]; lia.
    + destruct Hcase as [(-> & _)|(-> & _)]; lia.
    + destruct (Z.eq_dec ea eb) as [He|He].
      * assert (Zpos pq = 2 ^ 53) as E53 by (specialize (HQle He); lia).
        specialize (Hr0 He E53).
        destruct Hcase as [(-> & _ & _ & Hx)|(_ & _ & Hq' & _)].
        -- right. split; [lia|]. rewrite Hx; [by rewrite E53|].
           rewrite Hr0, E53. split; [apply new_location_exact|reflexivity].
        -- rewrite E53 in Hq'. discriminate Hq'.
      * destruct Hcase as [(-> & _)|(-> & H & _)]; lia.
Qed.

Lemma of_Z_100 : binary_normalize 53 1024 100 0 false = S754_finite false F64.M100 (-46).
Proof. reflexivity. Qed.

(** A normal float at most one, times 100: at most 100. *)
Lemma mul_100_le m e :
  2 ^ 52 <= Zpos m < 2 ^ 53 -> -107 <= e ->
  (e <= -53 \/ (e = -52 /\ Zpos m = 2 ^ 52)) ->
  exists m' e',
    F64.normal (SFmul 53 1024 (S754_finite false m e) (S754_finite false F64.M100 (-46))) m' e' /\
    (e' < -46 \/ (e' = -46 /\ Zpos m' <= Zpos F64.M100)).
Proof.
  intros Hm He Hle. unfold SFmul. simpl xorb.
  set (P := Zpos (m * F64.M100)).
  assert (P = Zpos m * Zpos F64.M100) as HP by reflexivity.
  assert (2 ^ 104 <= P < 2 ^ 106) as HP'.
  { rewrite HP. unfold F64.M100. change (2 ^ 104) with (2 ^ 52 * 2 ^ 52).
    change (2 ^ 106) with (2 ^ 53 * 2 ^ 53). lia. }
  destruct (Z.lt_ge_cases P (2 ^ 105)) as [Hlt|Hge].
  - (* 105 digits *)
    assert (Zdigits2 P = 105) as Hdig by (apply Zdigits2_unique; simpl; lia).
    destruct (round_aux_shape P (e + -46) loc_Exact)
      as (Hq & m' & e' & -> & Hcase); rewrite ?Hdig; try lia.
    rewrite Hdig in Hcase, Hq. change (105 - 53) with 52 in Hcase, Hq.
    exists m', e'. split.
    + split; [reflexivity|]. destruct Hcase as [(_ & H & H' & _)|(_ & -> & _)]; lia.
    + destruct Hle as [Hle|[-> Hm52]].
      * destruct Hcase as [(-> & _)|(-> & -> & _)]; [lia|].
        destruct (Z.eq_dec e (-53)) as [->|]; [right|left; lia].
        split; [reflexivity|]. unfold F64.M100. lia.
      * assert (P = Zpos F64.M100 * 2 ^ 52) as HP52 by (rewrite HP, Hm52; lia).
        assert (P mod 2 ^ 52 = 0) as Hmod by (rewrite HP52; apply Z.mod_mul; lia).
        assert (P / 2 ^ 52 = Zpos F64.M100) as Hdiv by (rewrite HP52; apply Z.div_mul; lia).
        destruct Hcase as [(-> & _ & _ & Hx)|(_ & _ & _ & Hx)].
        -- right. split; [reflexivity|]. rewrite Hx by (by split). lia.
        -- exfalso. apply Hx. by split.
  - (* 106 digits *)
    assert (Zdigits2 P = 106) as Hdig by (apply Zdigits2_unique; simpl; lia).
    destruct (round_aux_shape P (e + -46) loc_Exact)
      as (Hq & m' & e' & -> & Hcase); rewrite ?Hdig; try lia.
    rewrite Hdig in Hcase, Hq. change (106 - 53) with 53 in Hcase, Hq.
    assert (P / 2 ^ 53 < Zpos F64.M100) as Hlt.
    { apply Z.div_lt_upper_bound; [lia|]. rewrite HP. nia. }
    assert (e <= -53) as He53.
    { destruct Hle as [?|[-> Hm52]]; [lia|]. exfalso.
      rewrite HP, Hm52 in Hge. unfold F64.M100 in Hge.
      change (2 ^ 105) with (2 ^ 52 * 2 ^ 53) in Hge. lia. }
    exists m', e'. split.
    + split; [reflexivity|]. destruct Hcase as [(_ & H & H' & _)|(_ & -> & _)]; lia.
    + destruct Hcase as [(-> & H & _)|(_ & _ & Hq' & _)].
      * destruct (Z.eq_dec e (-53)) as [->|]; [right|left; lia].
        split; [reflexivity|]. lia.
      * exfalso. unfold F64.M100 in Hlt. lia.
Qed.

(** ** The null percentage at its bounds *)

Lemma percentage_le_100 c n :
  0 <= c <= n -> n < 2 ^ 53 ->
  SFltb (binary_normalize 53 1024 100 0 false)
        (SFmul 53 1024
           (SFdiv 53 1024 (binary_normalize 53 1024 c 0 false)
                          (binary_normalize 53 1024 n 0 false))
           (binary_normalize 53 1024 100 0 false)) = false.
Proof.
  intros Hc Hn. rewrite of_Z_100.
  destruct (Z.eq_dec c 0) as [->|Hc0].
  - destruct (Z.eq_dec n 0) as [->|Hn0]; [reflexivity|].
    destruct (of_Z_normal n) as (mb & eb & [-> _] & _); [lia|]. reflexivity.
  - destruct (div_le_one c n) as (m & e & [-> Hm] & He & Hle); [lia|lia|].
    destruct (mul_100_le m e Hm He Hle) as (m' & e' & [-> Hm'] & Hb).
    unfold SFltb, SFcompare.
    destruct Hb as [Hlt|[-> Hle']].
    + destruct (Z.compare_spec (-46) e'); [lia|lia|reflexivity].
    + rewrite Z.compare_refl.
      change (Pos.compare_cont Eq F64.M100 m') with (Pos.compare F64.M100 m').
      destruct (Pos.compare F64.M100 m') eqn:E; [reflexivity| |reflexivity].
      change (F64.M100 < m')%positive in E. lia.
Qed.

Lemma percentage_pos c n :
  0 < c <= n -> n < 2 ^ 53 ->
  SFltb (binary_normalize 53 1024 0 0 false)
        (SFmul 53 1024
           (SFdiv 53 1024 (binary_normalize 53 1024 c 0 false)
                          (binary_normalize 53 1024 n 0 false))
           (binary_normalize 53 1024 100 0 false)) = true.
Proof.
  intros Hc Hn. rewrite of_Z_100.
  destruct (div_le_one c n) as (m & e & [-> Hm] & He & Hle); [lia|lia|].
  destruct (mul_100_le m e Hm He Hle) as (m' & e' & [-> Hm'] & Hb).
  reflexivity.
Qed.

Lemma percentage_zero n :
  SFltb (binary_normalize 53 1024 0 0 false)
        (SFmul 53 1024
           (SFdiv 53 1024 (binary_normalize 53 1024 0 0 false)
                          (binary_normalize 53 1024 n 0 false))
           (binary_normalize 53 1024 100 0 false)) = false.
Proof.
  rewrite of_Z_100. change (binary_normalize 53 1024 0 0 false) with (S754_zero false).
  by destruct (binary_normalize 53 1024 n 0 false) as [[]|[]| |[]].
Qed.

(** ** Step 2 *)

Lemma filter_ext_elem {A} (P Q : A → Prop) `{∀ x, Decision (P x)} `{∀ x, Decision (Q x)}
    (l : list A) :
  (∀ x, x ∈ l → (P x ↔ Q x)) → filter P l = filter Q l.
Proof.
  induction l as [|x l IH]; intros Hl; [done|].
  rewrite !filter_cons, IH by (intros y Hy; apply Hl; by right).
  destruct (decide (P x)) as [HP|HP], (decide (Q x)) as [HQ|HQ]; try done;
    exfalso; apply (Hl x) in HP || apply (Hl x) in HQ; done || by left.
Qed.

Lemma filter_all {A} (P : A → Prop) `{∀ x, Decision (P x)} (l : list A) :
  (∀ x, x ∈ l → P x) → filter P l = l.
Proof.
  induction l as [|x l IH]; intros Hl; [done|].
  rewrite filter_cons_True by (apply Hl; by left).
  f_equal. apply IH. intros y Hy. apply Hl. by right.
Qed.

Lemma filter_fmap_comm {A B} (f : A → B) (P : B → Prop) `{∀ x, Decision (P x)}
    (l : list A) :
  filter P (map f l) = map f (filter (λ x, P (f x)) l).
Proof.
  induction l as [|x l IH]; [done|]. simpl map.
  rewrite !filter_cons, IH. by destruct (decide (P (f x))).
Qed.

(** Under distinct labels a label names one column. *)
Lemma NoDup_label_unique {B} (l : list (string * B)) c c' :
  NoDup (map fst l) → c ∈ l → c' ∈ l → fst c = fst c' → c = c'.
Proof.
  induction l as [|x l IH]; intros Hnd Hc Hc' E; [by apply elem_of_nil in Hc|].
  simpl in Hnd. apply NoDup_cons in Hnd as [Hx Hnd].
  apply elem_of_cons in Hc as [->|Hc]; apply elem_of_cons in Hc' as [->|Hc'].
  - done.
  - exfalso. apply Hx. rewrite E. apply list_elem_of_fmap. by exists c'.
  - exfalso. apply Hx. rewrite <- E. apply list_elem_of_fmap. by exists c.
  - by apply IH.
Qed.

Lemma filter_label_length {B} (l : list (string * B)) label :
  NoDup (map fst l) → label ∈ map fst l →
  length (filter (λ e, fst e = label) l) = 1%nat.
Proof.
  induction l as [|x l IH]; intros Hnd Hin; [by apply elem_of_nil in Hin|].
  simpl in Hnd, Hin. apply NoDup_cons in Hnd as [Hx Hnd].
  rewrite filter_cons. destruct (decide (fst x = label)) as [E|E].
  - simpl. f_equal. apply length_zero_iff_nil.
    destruct (filter _ l) as [|y l'] eqn:F; [done|]. exfalso.
    assert (y ∈ filter (λ e, fst e = label) l) as Hy by (rewrite F; left).
    apply list_elem_of_filter in Hy as [Hy1 Hy2].
    apply Hx. rewrite E, <- Hy1. apply list_elem_of_fmap. by exists y.
  - apply IH; [done|]. apply elem_of_cons in Hin as [->|Hin]; done.
Qed.

Lemma series_getitems_length {B} (s : Series B) labels :
  NoDup (map fst s) → (∀ l, l ∈ labels → l ∈ map fst s) →
  length (series_getitems s labels) = length labels.
Proof.
  intros Hnd. unfold series_getitems.
  induction labels as [|l labels IH]; intros Hl; [done|].
  simpl. rewrite length_app, IH by (intros; apply Hl; by right).
  unfold Series in *. rewrite (filter_label_length s l Hnd); [done|].
  apply Hl. by left.
Qed.

Lemma missing_percentage_columns df :
  missing_percentage df = map (λ c, (fst c, null_percentage df c)) (df_data df).
Proof.
  unfold missing_percentage, isnull_sum. by rewrite <- list_fmap_compose.
Qed.

(** The labels that step 2 drops. *)
Lemma cols_to_drop_columns df t :
  map fst (filter (λ e, F64.gtb (snd e) (F64.of_Z t) = true) (missing_percentage df))
  = map fst (filter (λ c, exceeds (null_percentage df c) t = true) (df_data df)).
Proof.
  rewrite missing_percentage_columns.
  rewrite (filter_fmap_comm (λ c, (fst c, null_percentage df c))
             (λ e, F64.gtb (snd e) (F64.of_Z t) = true)).
  rewrite <- list_fmap_compose.
  reflexivity.
Qed.

Lemma dropped_frame_columns labels s rows :
  dropped_frame labels s = Ok rows → map d_column rows = labels.
Proof.
  unfold dropped_frame. destruct (decide _) as [Hlen|]; [|done].
  intros [= <-]. revert s Hlen.
  induction labels as [|l labels IH]; intros [|e s] Hlen; try done.
  simpl. f_equal. apply IH. simpl in Hlen. lia.
Qed.

(** Under distinct labels step 2 returns, and drops the columns over the
    threshold and no other. *)
Lemma drop_missing_columns_distinct df t :
  NoDup (columns df) →
  ∃ dropped_summary note,
    drop_missing_columns df t
      = Ok (mkDF (df_index df)
                 (filter (λ c, exceeds (null_percentage df c) t = false) (df_data df)),
            SummaryDropped dropped_summary note (len df) (len df)) ∧
    map d_column dropped_summary
      = map fst (filter (λ c, exceeds (null_percentage df c) t = true) (df_data df)).
Proof.
  intros Hnd. unfold drop_missing_columns. rewrite cols_to_drop_columns.
  set (labels := map fst (filter _ (df_data df))).
  assert (∀ l, l ∈ labels → l ∈ map fst (missing_percentage df)) as Hsub.
  { intros l Hl. rewrite missing_percentage_columns, <- list_fmap_compose.
    apply list_elem_of_fmap in Hl as (c & -> & Hc).
    apply list_elem_of_filter in Hc as [_ Hc]. apply list_elem_of_fmap. by exists c. }
  assert (NoDup (map fst (missing_percentage df))) as Hnd'.
  { by rewrite missing_percentage_columns, <- list_fmap_compose. }
  destruct (dropped_frame labels _) as [rows|e] eqn:Hrows.
  2:{ exfalso. unfold dropped_frame in Hrows.
      rewrite length_fmap, series_getitems_length in Hrows by done.
      by destruct (decide (length labels = length labels)). }
  simpl mbind. eexists rows, _. split.
  - unfold copy, drop_columns. f_equal. f_equal.
    + f_equal. apply filter_ext_elem. intros c Hc. split.
      * intros Hnot. destruct (exceeds (null_percentage df c) t) eqn:E; [|done].
        exfalso. apply Hnot. apply list_elem_of_fmap. exists c. split; [done|].
        by apply list_elem_of_filter.
      * intros E Hin. apply list_elem_of_fmap in Hin as (c' & Hfst & Hc').
        apply list_elem_of_filter in Hc' as [E' Hc'].
        assert (c = c') as -> by (by apply (NoDup_label_unique (df_data df))).
        congruence.
  - by apply (dropped_frame_columns _ _ _ Hrows).
Qed.

Lemma null_count_bounds col : 0 ≤ null_count col ≤ Z.of_nat (length col).
Proof.
  unfold null_count. pose proof (length_filter (λ x, isnull x = true) col). lia.
Qed.

Lemma exceeds_100 df c :
  wf_frame df → Z.of_nat (len df) < 2 ^ 53 → c ∈ df_data df →
  exceeds (null_percentage df c) 100 = false.
Proof.
  intros Hwf Hrows Hc.
  pose proof (proj1 (Forall_forall _ _) Hwf c Hc) as Hlen. simpl in Hlen.
  pose proof (null_count_bounds (snd c)) as Hb. rewrite Hlen in Hb.
  by apply percentage_le_100.
Qed.

Lemma exceeds_0 df c :
  wf_frame df → Z.of_nat (len df) < 2 ^ 53 → c ∈ df_data df →
  exceeds (null_percentage df c) 0 = false ↔ null_count (snd c) = 0.
Proof.
  intros Hwf Hrows Hc.
  pose proof (proj1 (Forall_forall _ _) Hwf c Hc) as Hlen. simpl in Hlen.
  pose proof (null_count_bounds (snd c)) as Hb. rewrite Hlen in Hb.
  unfold exceeds, null_percentage. split.
  - intros Hx. destruct (Z.eq_dec (null_count (snd c)) 0) as [E|E]; [exact E|].
    exfalso. unfold percentage, F64.gtb, F64.mul, F64.div, F64.of_Z in Hx.
    rewrite percentage_pos in Hx by lia. discriminate.
  - intros ->. apply percentage_zero.
Qed.

(** X3.  What step 2 computes.  On a frame with distinct column labels
    (and fewer than [2^53] rows, so that the counts convert exactly), for
    a threshold from 0 to 100, [drop_missing_columns] returns the frame
    without the columns whose null percentage, computed in binary64 as
    [count / rows * 100], is over the threshold, and with every other
    column and every row as they were; the summary names the dropped
    columns.  At 100 the frame comes back whole; at 0 the columns with a
    null go and the others stay. *)
Theorem drop_missing_columns_removes_exceeding (df : DataFrame) (t : Z) :
  0 ≤ t ≤ 100 → NoDup (columns df) → wf_frame df → Z.of_nat (len df) < 2 ^ 53 →
  ∃ df' dropped_summary note,
    drop_missing_columns df t
      = Ok (df', SummaryDropped dropped_summary note (len df) (len df')) ∧
    df_data df'
      = filter (λ c, exceeds (null_percentage df c) t = false) (df_data df) ∧
    map d_column dropped_summary
      = map fst (filter (λ c, exceeds (null_percentage df c) t = true) (df_data df)) ∧
    df_index df' = df_index df ∧
    len df' = len df ∧
    (t = 100 → df' = df) ∧
    (t = 0 → df_data df' = filter (λ c, null_count (snd c) = 0) (df_data df)).
Proof.
  intros Ht Hnd Hwf Hrows.
  destruct (drop_missing_columns_distinct df t Hnd) as (rows & note & Hok & Hcols).
  eexists _, rows, note. split; [exact Hok|].
  split; [reflexivity|]. split; [exact Hcols|].
  split; [reflexivity|]. split; [reflexivity|]. split.
  - intros ->. destruct df as [idx data]. simpl. f_equal.
    apply filter_all. intros c Hc. by apply exceeds_100.
  - intros ->. simpl. apply filter_ext_elem. intros c Hc. by apply exceeds_0.
Qed.

Lemma drop_missing_columns_removes_exceeding_witness :
  ∃ df' dropped_summary note,
    drop_missing_columns Sample.orders 0
      = Ok (df', SummaryDropped dropped_summary note 3 3) ∧
    columns df' = ["Date"; "Order ID"; "Qty"; "B2B"].
Proof.
  destruct (drop_missing_columns_removes_exceeding Sample.orders 0)
    as (df' & rows & note & Hok & Hdata & _ & _ & Hlen & _ & H0).
  - lia.
  - unfold columns. simpl. repeat constructor; rewrite ?elem_of_cons, elem_of_nil;
      intros H; repeat destruct H as [H|H]; discriminate || done.
  - repeat constructor.
  - vm_compute. reflexivity.
  - exists df', rows, note. rewrite Hlen in Hok. split; [exact Hok|].
    unfold columns. rewrite (H0 eq_refl). reflexivity.
Defined.

(** C3 fails on the program at the threshold itself.  Of the hundred
    rows seven have no coupon: seven per cent, which is not over a
    threshold of 7, so by the docstring of the function ("Drops columns
    where the percentage of missing values exceeds the threshold") the
    column stays.  The program computes [7 / 100 * 100] in binary64,
    which is [7.000000000000001], and drops the column; its summary
    lists the column at [7.0] per cent under the note "Columns with > 7%
    missing values were dropped". *)
Theorem drop_missing_columns_at_threshold :
  len Sample.coupons = 100%nat ∧
  null_count (repeat NA 7 ++ repeat (VStr "SAVE10") 93) = 7 ∧
  ¬ exact_percentage_exceeds 7 100 7 ∧
  percentage 7 100 = S754_finite false 7881299347898369 (-50) ∧
  F64.of_Z 7 = S754_finite false 7881299347898368 (-50) ∧
  ∃ df' sm, drop_missing_columns Sample.coupons 7 = Ok (df', sm) ∧
            columns Sample.coupons = ["Order ID"; "coupon"] ∧
            columns df' = ["Order ID"] ∧
            sm = SummaryDropped [mkDropped "coupon" "coupon" (F64.of_Z 7)]
                   (NoteDropped 7 1) 100 100.
Proof.
  split; [reflexivity|]. split; [reflexivity|].
  split; [unfold exact_percentage_exceeds; lia|].
  split; [vm_compute; reflexivity|]. split; [vm_compute; reflexivity|].
  eexists _, _. split; [vm_compute; reflexivity|].
  split; [reflexivity|]. split; [reflexivity|]. vm_compute. reflexivity.
Qed.

(** When a label that is to be dropped names two columns, the summary
    cannot be built and step 2 raises. *)
Lemma drop_missing_columns_duplicate_labels :
  drop_missing_columns Sample.twins 50
  = Raise (ValueError "array length does not match index length").
Proof. vm_compute. reflexivity. Qed.

(** ** Step 3 and the column mapping *)

Lemma dict_get_set {V} k k' (v : V) d :
  Dict.get k (Dict.set k' v d) = if decide (k = k') then Some v else Dict.get k d.
Proof.
  induction d as [|[k0 v0] d IH]; simpl.
  - by destruct (decide (k = k')).
  - destruct (decide (k' = k0)) as [->|Hne]; simpl.
    + destruct (decide (k = k0)); [done|]. reflexivity.
    + destruct (decide (k = k0)) as [->|Hne'].
      * by destruct (decide (k0 = k')) as [->|].
      * exact IH.
Qed.

(** The renaming dictionary goes from a standard name to the source column
    it was mapped from. *)
Lemma reverse_dict_get mapping c src :
  Dict.get c (reverse_dict mapping) = Some src → (src, c) ∈ mapping.
Proof.
  unfold reverse_dict.
  assert (∀ acc, Dict.get c (fold_left (λ acc kv, Dict.set (snd kv) (fst kv) acc)
                               mapping acc) = Some src →
                 (src, c) ∈ mapping ∨ Dict.get c acc = Some src) as H.
  { induction mapping as [|[k v] m IH]; intros acc Hget; [by right|].
    destruct (IH _ Hget) as [Hin|Hacc]; [left; by right|].
    simpl in Hacc. rewrite dict_get_set in Hacc.
    destruct (decide (c = v)) as [->|Hne]; [|by right].
    injection Hacc as ->. left. by left. }
  intros Hget. by destruct (H [] Hget).
Qed.

Lemma rename_columns_id df m :
  (∀ c, c ∈ columns df → default c (Dict.get c m) = c) →
  rename_columns df m = df.
Proof.
  intros H. destruct df as [idx data]. unfold rename_columns, columns in *.
  simpl in *. f_equal. rewrite <- (list_fmap_id data) at 2.
  apply list_fmap_ext. intros i [l col] Hi. simpl. f_equal.
  apply H. apply list_elem_of_fmap. exists (l, col). split; [done|].
  by apply list_elem_of_lookup_2 in Hi.
Qed.

(** Columns that carry no standard name of the mapping keep their names. *)
Lemma rename_columns_sources df mapping :
  (∀ c, c ∈ columns df → c ∉ Dict.values mapping) →
  rename_columns df (reverse_dict mapping) = df.
Proof.
  intros H. apply rename_columns_id. intros c Hc.
  destruct (Dict.get c (reverse_dict mapping)) as [src|] eqn:E; [|done].
  apply reverse_dict_get in E. exfalso. apply (H c Hc).
  apply list_elem_of_fmap. by exists (src, c).
Qed.

(** With the identity mapping the renaming changes nothing either. *)
Lemma rename_columns_identity df mapping :
  (∀ src c, (src, c) ∈ mapping → src = c) →
  rename_columns df (reverse_dict mapping) = df.
Proof.
  intros H. apply rename_columns_id. intros c _.
  destruct (Dict.get c (reverse_dict mapping)) as [src|] eqn:E; [|done].
  apply reverse_dict_get in E. simpl. by apply H.
Qed.

(** When the file has its own headers, none of them a standard name, and
    the mapping sends one of them to Date, step 3 renames nothing, finds
    no Date column and hands the frame back. *)
Lemma convert_date_skipped df mapping :
  (∀ c, c ∈ columns df → c ∉ Dict.values mapping) →
  "Date" ∈ Dict.values mapping →
  convert_date_and_derive df mapping = Ok (df, SummaryNote NoteDateSkipped).
Proof.
  intros Hsrc Hdate. unfold convert_date_and_derive, copy.
  rewrite (rename_columns_sources _ _ Hsrc).
  unfold has_column. rewrite bool_decide_eq_false_2; [done|].
  intros Hin. by apply (Hsrc _ Hin).
Qed.

(** C4 fails on the program.  The export has the columns order_date,
    total and id, and the mapping assigns them to Date, Amount and Order
    ID.  Step 3 renames nothing: the result has no Date column, the
    conversion is skipped and the frame comes back as it was. *)
Theorem convert_date_keeps_source_names :
  Dict.get "order_date" Sample.export_mapping = Some "Date" ∧
  missing_critical Sample.export_mapping = [] ∧
  convert_date_and_derive Sample.export Sample.export_mapping
    = Ok (Sample.export, SummaryNote NoteDateSkipped) ∧
  rename_columns Sample.export (reverse_dict Sample.export_mapping) = Sample.export ∧
  "Date" ∉ columns Sample.export.
Proof.
  split; [reflexivity|]. split; [reflexivity|].
  split; [vm_compute; reflexivity|]. split; [vm_compute; reflexivity|].
  unfold columns. simpl. rewrite !elem_of_cons, elem_of_nil.
  intros [H|[H|[H|[]]]]; discriminate H.
Qed.

(** ** Schema mapping *)

Lemma unassigned_values col_map c : unassigned col_map c ↔ c ∉ Dict.values col_map.
Proof.
  unfold unassigned, Dict.values. rewrite list_elem_of_fmap. split.
  - intros H ([src c'] & -> & Hin). by apply (H src).
  - intros H src Hin. apply H. by exists (src, c).
Qed.

Lemma missing_critical_spec col_map c :
  c ∈ missing_critical col_map ↔ c ∈ CRITICAL_COLS ∧ unassigned col_map c.
Proof.
  unfold missing_critical. rewrite list_elem_of_filter, unassigned_values. tauto.
Qed.

Lemma apply_mapping_missing col_map s :
  missing_critical col_map ≠ [] →
  apply_mapping col_map s = display (ErrorCritical (missing_critical col_map)) s.
Proof. unfold apply_mapping. by destruct (missing_critical col_map). Qed.

Lemma apply_mapping_complete col_map s :
  missing_critical col_map = [] →
  apply_mapping col_map s =
    display SuccessMapping (set_mapped true (set_column_mapping col_map s)).
Proof. unfold apply_mapping. by intros ->. Qed.

(** X14.  What the Apply Mapping button checks, on the dictionary [col_map]
    that the form has built.  The mapping is refused exactly when one of
    Date, Amount, Order ID is the standard name of no source column in
    [col_map]; a refusal leaves the session as it was (not mapped, when
    it was not), and otherwise the mapping is stored and the session is
    mapped. *)
Theorem mapping_rejected_iff_critical_unassigned (col_map : Dict.t string) (s : session) :
  (rejected col_map s ↔
     unassigned col_map "Date" ∨ unassigned col_map "Amount" ∨
     unassigned col_map "Order ID") ∧
  (rejected col_map s →
     mapped (apply_mapping col_map s) = mapped s ∧
     column_mapping (apply_mapping col_map s) = column_mapping s ∧
     current_step (apply_mapping col_map s) = current_step s ∧
     df_current (apply_mapping col_map s) = df_current s ∧
     snapshots (apply_mapping col_map s) = snapshots s) ∧
  (¬ rejected col_map s →
     mapped (apply_mapping col_map s) = true ∧
     column_mapping (apply_mapping col_map s) = col_map).
Proof.
  assert (rejected col_map s ↔ missing_critical col_map ≠ []) as Hrej.
  { split.
    - intros (missing & Hne & Heq) Hnil.
      rewrite (apply_mapping_complete _ _ Hnil) in Heq.
      apply (f_equal alerts) in Heq. simpl in Heq.
      by apply app_inj_tail in Heq as [_ ?].
    - intros Hne. exists (missing_critical col_map). split; [done|].
      by apply apply_mapping_missing. }
  split; [|split].
  - rewrite Hrej. split.
    + intros Hne. destruct (missing_critical col_map) as [|c l] eqn:E; [done|].
      assert (c ∈ missing_critical col_map) as Hc by (rewrite E; left).
      apply missing_critical_spec in Hc as [Hc Hun].
      unfold CRITICAL_COLS in Hc. rewrite !elem_of_cons, elem_of_nil in Hc.
      destruct Hc as [->|[->|[->|[]]]]; auto.
    + intros Hun Hnil.
      assert (∃ c, c ∈ missing_critical col_map) as [c Hc].
      { destruct Hun as [H|[H|H]]; eexists; apply missing_critical_spec;
          (split; [|exact H]); unfold CRITICAL_COLS;
          rewrite !elem_of_cons; auto. }
      rewrite Hnil in Hc. by apply elem_of_nil in Hc.
  - intros H. apply Hrej in H. by rewrite (apply_mapping_missing _ _ H).
  - intros H. rewrite Hrej in H.
    destruct (missing_critical col_map) as [|c l] eqn:E; [|by destruct H].
    by rewrite (apply_mapping_complete _ _ E).
Qed.

Lemma mapping_rejected_iff_critical_unassigned_witness :
  rejected [("order_date", "Date"); ("id", "Order ID")] Sample.loaded ∧
  mapped (apply_mapping [("order_date", "Date"); ("id", "Order ID")] Sample.loaded)
    = false.
Proof.
  destruct (mapping_rejected_iff_critical_unassigned
              [("order_date", "Date"); ("id", "Order ID")] Sample.loaded)
    as (Hiff & Hkeep & _).
  assert (rejected [("order_date", "Date"); ("id", "Order ID")] Sample.loaded) as Hrej.
  { apply Hiff. right. left. intros src Hin.
    rewrite !elem_of_cons, elem_of_nil in Hin.
    destruct Hin as [H|[H|[]]]; discriminate H. }
  split; [exact Hrej|]. by destruct (Hkeep Hrej) as [-> _].
Defined.

(** The form can leave a critical name out although a source column was
    chosen for it: the dictionary goes from source column to standard
    name, so a source chosen again for a later name is taken from the
    earlier one. *)
Lemma build_col_map_overwrites :
  build_col_map (λ std_name,
    if decide (std_name = "Date") then "Date"
    else if decide (std_name = "Qty") then "Date" else "SKIP")
  = [("Date", "Qty")].
Proof. vm_compute. reflexivity. Qed.

Lemma dict_set_elem {V} k (v : V) d a b :
  (a, b) ∈ Dict.set k v d → (a, b) = (k, v) ∨ (a, b) ∈ d.
Proof.
  induction d as [|[k' v'] d IH]; simpl.
  - rewrite list_elem_of_singleton. by left.
  - destruct (decide (k = k')) as [->|Hne]; rewrite !elem_of_cons.
    + intros [H|H]; [by left|right; by right].
    + intros [H|H]; [right; by left|].
      destruct (IH H) as [H'|H']; [by left|right; by right].
Qed.

(** The entries of the form's dictionary: a chosen source column with a
    standard name it was chosen for. *)
Lemma build_col_map_entries selected src std :
  (src, std) ∈ build_col_map selected →
  src = selected std ∧ src ≠ "SKIP" ∧ std ∈ Dict.keys REQUIRED_COLS.
Proof.
  unfold build_col_map.
  assert (∀ l acc,
            (∀ x, x ∈ l → x ∈ Dict.keys REQUIRED_COLS) →
            (∀ a b, (a, b) ∈ acc →
               a = selected b ∧ a ≠ "SKIP" ∧ b ∈ Dict.keys REQUIRED_COLS) →
            ∀ a b,
              (a, b) ∈ fold_left
                (λ col_map std_name,
                   if decide (selected std_name ≠ "SKIP")
                   then Dict.set (selected std_name) std_name col_map
                   else col_map) l acc →
              a = selected b ∧ a ≠ "SKIP" ∧ b ∈ Dict.keys REQUIRED_COLS) as H.
  { induction l as [|x l IH]; intros acc Hl Hacc a b Hin; [by apply Hacc|].
    simpl in Hin. revert Hin. apply IH; [intros; apply Hl; by right|].
    intros a' b' Hin'. destruct (decide (selected x ≠ "SKIP")) as [Hx|Hx];
      [|by apply Hacc].
    apply dict_set_elem in Hin' as [E|Hin']; [|by apply Hacc].
    injection E as -> ->. split; [done|]. split; [done|]. apply Hl. by left. }
  apply H; [done|]. intros a b Hin. by apply elem_of_nil in Hin.
Qed.

Lemma default_choice_option df std_name :
  default_choice df std_name ∈ "SKIP" :: columns df.
Proof.
  unfold default_choice. destruct (bool_decide _) eqn:E.
  - by apply bool_decide_eq_true in E.
  - left.
Qed.

(** A critical name left on SKIP in the form is missing from the
    dictionary, so the mapping is refused. *)
Lemma mapping_rejected_when_critical_skipped selected c s :
  c ∈ CRITICAL_COLS → selected c = "SKIP" → rejected (build_col_map selected) s.
Proof.
  intros Hc Hskip.
  assert (c ∈ missing_critical (build_col_map selected)) as Hin.
  { apply missing_critical_spec. split; [exact Hc|]. intros src Hsrc.
    apply build_col_map_entries in Hsrc as (-> & Hne & _). by apply Hne. }
  exists (missing_critical (build_col_map selected)). split.
  - intros E. rewrite E in Hin. by apply elem_of_nil in Hin.
  - apply apply_mapping_missing. intros E. rewrite E in Hin.
    by apply elem_of_nil in Hin.
Qed.

(** C7 fails on the program.  On the mapping form of the loaded orders
    the source column Date is chosen for Date and again for Qty, and the
    other select boxes stay on their defaults: every choice is an option
    of its select box, and each of Date, Amount and Order ID has a source
    column chosen.  The dictionary is keyed by source column, so the
    entry of Date is overwritten by the one of Qty; the button then
    reports "Critical columns must be mapped: Date" and the session stays
    unmapped. *)
Theorem mapping_rejected_with_every_critical_chosen :
  (∀ std_name,
     Sample.date_twice std_name ∈ "SKIP" :: columns (df_raw Sample.loaded)) ∧
  (∀ c, c ∈ CRITICAL_COLS →
        Sample.date_twice c ≠ "SKIP" ∧
        Sample.date_twice c ∈ columns (df_raw Sample.loaded)) ∧
  Sample.date_twice "Date" = "Date" ∧ Sample.date_twice "Qty" = "Date" ∧
  build_col_map Sample.date_twice
    = [("Date", "Qty"); ("Amount", "Amount"); ("Order ID", "Order ID");
       ("B2B", "B2B")] ∧
  data_loaded Sample.loaded = true ∧ mapped Sample.loaded = false ∧
  apply_mapping (build_col_map Sample.date_twice) Sample.loaded
    = display (ErrorCritical ["Date"]) Sample.loaded ∧
  rejected (build_col_map Sample.date_twice) Sample.loaded ∧
  mapped (apply_mapping (build_col_map Sample.date_twice) Sample.loaded) = false ∧
  column_mapping (apply_mapping (build_col_map Sample.date_twice) Sample.loaded) = [].
Proof.
  assert (apply_mapping (build_col_map Sample.date_twice) Sample.loaded
          = display (ErrorCritical ["Date"]) Sample.loaded) as Happly
    by (vm_compute; reflexivity).
  split.
  { intros std_name. unfold Sample.date_twice.
    destruct (decide (std_name = "Qty")); [|apply default_choice_option].
    apply (bool_decide_unpack _). vm_compute. exact I. }
  split.
  { intros c Hc. unfold CRITICAL_COLS in Hc.
    rewrite !elem_of_cons, elem_of_nil in Hc.
    destruct Hc as [->|[->|[->|[]]]]; (split; [vm_compute; discriminate|]);
      apply (bool_decide_unpack _); vm_compute; exact I. }
  split; [reflexivity|]. split; [reflexivity|].
  split; [vm_compute; reflexivity|].
  split; [reflexivity|]. split; [reflexivity|].
  split; [exact Happly|]. split.
  { exists ["Date"]. split; [discriminate|exact Happly]. }
  rewrite Happly. split; reflexivity.
Qed.

(** ** The effect of one step *)

Lemma run_step_ok n flag s df sm :
  step_transform n (copy (df_current s)) s = Ok (df, sm) →
  run_step n flag s =
    set_step_output (if flag then OutRunAll n else OutEmpty)
      (set_current_step n
         (set_df_current df
            (make_snapshot df n
               (set_step_summaries (<[n := sm]> (step_summaries s)) s)))).
Proof. intros H. unfold run_step. rewrite H. by destruct flag. Qed.

Lemma run_step_raise n flag s e :
  step_transform n (copy (df_current s)) s = Raise e →
  run_step n flag s = set_step_output (OutError e) (display (ErrorStep n e) s).
Proof. intros H. unfold run_step. by rewrite H. Qed.

(** The transform reads the working frame, the threshold and the mapping,
    and nothing else of the session. *)
Lemma step_transform_ext n df s1 s2 :
  missing_threshold s1 = missing_threshold s2 →
  column_mapping s1 = column_mapping s2 →
  step_transform n df s1 = step_transform n df s2.
Proof. intros Ht Hm. unfold step_transform. by rewrite Ht, Hm. Qed.

(** Steps 4 to 7 compute nothing and cannot fail. *)
Lemma checkpoint_transform n df s :
  4 ≤ n ≤ 7 → step_transform n df s = Ok (df, SummaryReady true).
Proof.
  intros Hn. unfold step_transform.
  destruct (Z.eqb_spec n 1); [lia|]. destruct (Z.eqb_spec n 2); [lia|].
  destruct (Z.eqb_spec n 3); [lia|].
  rewrite bool_decide_eq_true_2; [done|].
  rewrite !elem_of_cons. lia.
Qed.

(** A step leaves the settings and the raw frame alone. *)
Lemma run_step_threshold n flag s :
  missing_threshold (run_step n flag s) = missing_threshold s.
Proof. run_step_cases. Qed.

Lemma run_step_mapping n flag s :
  column_mapping (run_step n flag s) = column_mapping s.
Proof. run_step_cases. Qed.

Lemma run_step_df_raw n flag s : df_raw (run_step n flag s) = df_raw s.
Proof. run_step_cases. Qed.

Lemma run_step_mapped n flag s : mapped (run_step n flag s) = mapped s.
Proof. run_step_cases. Qed.

(** C6.  When the transform of step [n] raises, [run_step n] leaves the
    step pointer, the working frame, the snapshot store (and the
    summaries, the raw frame, the mapping and the settings) as they were;
    it records the error marker and displays the error. *)
Theorem run_step_failure_keeps_state (n : Z) (flag : bool) (s : session) (e : exn) :
  step_transform n (copy (df_current s)) s = Raise e →
  current_step (run_step n flag s) = current_step s ∧
  df_current (run_step n flag s) = df_current s ∧
  snapshots (run_step n flag s) = snapshots s ∧
  step_summaries (run_step n flag s) = step_summaries s ∧
  df_raw (run_step n flag s) = df_raw s ∧
  column_mapping (run_step n flag s) = column_mapping s ∧
  mapped (run_step n flag s) = mapped s ∧
  missing_threshold (run_step n flag s) = missing_threshold s ∧
  step_output (run_step n flag s) = OutError e ∧
  alerts (run_step n flag s) = alerts s ++ [ErrorStep n e].
Proof. intros H. rewrite (run_step_raise _ _ _ _ H). by repeat split. Qed.

Lemma run_step_failure_keeps_state_witness :
  step_transform 3 (copy (df_current Sample.mapped_crossed)) Sample.mapped_crossed
    = Raise (TypeError "the first argument must be callable") ∧
  current_step (run_step 3 false Sample.mapped_crossed) = 0 ∧
  df_current (run_step 3 false Sample.mapped_crossed) = Sample.orders ∧
  snapshots (run_step 3 false Sample.mapped_crossed) = {[ 0 := Sample.orders ]}.
Proof.
  assert (step_transform 3 (copy (df_current Sample.mapped_crossed))
            Sample.mapped_crossed
          = Raise (TypeError "the first argument must be callable")) as H
    by (vm_compute; reflexivity).
  split; [exact H|].
  destruct (run_step_failure_keeps_state 3 false Sample.mapped_crossed _ H)
    as (Hp & Hd & Hs & _).
  rewrite Hp, Hd, Hs. repeat split.
Defined.

(** Step 1 as the controller runs it: the working frame stays. *)
Lemma run_step_1_keeps_frame flag s :
  df_current (run_step 1 flag s) = df_current s ∧ current_step (run_step 1 flag s) = 1.
Proof.
  destruct (inspect_missing_values_ok (copy (df_current s))) as [sm H].
  rewrite (run_step_ok 1 flag s _ _ H). by destruct flag.
Qed.

(** ** A full run against the steps run by hand *)

Lemma returns_ok {A} (r : result A) : returns r → ∃ a, r = Ok a.
Proof. destruct r; [eauto|discriminate]. Qed.

Lemma raises_raise {A} (r : result A) : raises r → ∃ e, r = Raise e.
Proof. destruct r; [discriminate|eauto]. Qed.

Lemma run_step_same_inputs n f1 f2 s1 s2 :
  same_inputs s1 s2 → same_inputs (run_step n f1 s1) (run_step n f2 s2).
Proof.
  intros (Hd & Ht & Hm). unfold same_inputs, run_step.
  rewrite <- Hd, (step_transform_ext n _ s2 s1) by done.
  destruct (step_transform _ _ _) as [[df sm]|e]; [|done].
  by destruct f1, f2.
Qed.

Lemma run_steps_same_inputs l s1 s2 :
  same_inputs s1 s2 → same_inputs (run_steps l s1) (run_manually l s2).
Proof.
  revert s1 s2. induction l as [|k l IH]; intros s1 s2 H; [done|].
  apply IH. by apply run_step_same_inputs.
Qed.

Lemma run_steps_app l1 l2 s : run_steps (l1 ++ l2) s = run_steps l2 (run_steps l1 s).
Proof. apply fold_left_app. Qed.

Lemma run_steps_cons k l s : run_steps (k :: l) s = run_steps l (run_step k true s).
Proof. reflexivity. Qed.

Lemma run_steps_snoc l k s : run_steps (l ++ [k]) s = run_step k true (run_steps l s).
Proof. apply run_steps_app. Qed.

Lemma run_manually_app l1 l2 s :
  run_manually (l1 ++ l2) s = run_manually l2 (run_manually l1 s).
Proof. apply fold_left_app. Qed.

Lemma no_failure_app l1 l2 s :
  no_failure (l1 ++ l2) s ↔ no_failure l1 s ∧ no_failure l2 (run_steps l1 s).
Proof.
  revert s. induction l1 as [|k l1 IH]; intros s; simpl; [tauto|].
  rewrite IH. tauto.
Qed.

(** A successful step stores its result under its own key ... *)
Lemma run_step_snapshot n flag s :
  step_succeeds n s →
  snapshots (run_step n flag s) !! n = Some (df_current (run_step n flag s)) ∧
  current_step (run_step n flag s) = n.
Proof.
  intros H. apply returns_ok in H as [[df sm] H].
  rewrite (run_step_ok _ _ _ _ _ H). simpl. by rewrite lookup_insert_eq.
Qed.

(** ... and no step writes under another key. *)
Lemma run_step_snapshot_ne n flag s k :
  k ≠ n → snapshots (run_step n flag s) !! k = snapshots s !! k.
Proof.
  intros Hk. unfold run_step.
  destruct (step_transform _ _ _) as [[df sm]|e]; [|done].
  destruct flag; simpl; by rewrite lookup_insert_ne.
Qed.

Lemma run_steps_snapshot_ne l s k :
  k ∉ l → snapshots (run_steps l s) !! k = snapshots s !! k.
Proof.
  revert s. induction l as [|n l IH]; intros s Hk; [done|].
  apply not_elem_of_cons in Hk as [Hn Hl]. simpl.
  unfold run_steps in IH. rewrite IH by done. by apply run_step_snapshot_ne.
Qed.

Lemma snapshot_after_steps l1 k l2 s m :
  same_inputs s m → no_failure (l1 ++ k :: l2) s → k ∉ l2 →
  snapshots (run_steps (l1 ++ k :: l2) s) !! k
    = Some (df_current (run_manually (l1 ++ [k]) m)) ∧
  (l2 = [] → current_step (run_steps (l1 ++ k :: l2) s) = k).
Proof.
  intros Hin Hok Hk.
  apply no_failure_app in Hok as [_ [Hstep _]].
  rewrite run_steps_app, run_manually_app, run_steps_cons.
  change (run_manually [k] ?x) with (run_step k false x).
  destruct (run_step_snapshot k true _ Hstep) as [Hsnap Hptr].
  pose proof (run_steps_same_inputs l1 _ _ Hin) as Hin'.
  destruct (run_step_same_inputs k true false _ _ Hin') as [Hd _].
  split.
  - rewrite run_steps_snapshot_ne by done. by rewrite Hsnap, Hd.
  - by intros ->.
Qed.

Lemma run_all_steps_mapped s :
  mapped s = true →
  run_all_steps s = run_steps [1; 2; 3; 4; 5; 6; 7] (reset_to_raw s).
Proof. intros H. unfold run_all_steps. by rewrite H. Qed.

(** C1.  On a mapped session, when no step of the full run fails,
    [run_all_steps] ends with the step pointer at 7, and the snapshot of
    step 7 (and of every step [k] from 1 to 7) is the working frame
    reached by running steps 1 to 7 (1 to [k]) by hand, from a session
    whose working frame is the same raw frame and whose threshold and
    mapping are the same. *)
Theorem run_all_matches_manual_run (s loaded : session) :
  mapped s = true →
  df_current loaded = df_raw s →
  missing_threshold loaded = missing_threshold s →
  column_mapping loaded = column_mapping s →
  no_failure [1; 2; 3; 4; 5; 6; 7] (reset_to_raw s) →
  current_step (run_all_steps s) = 7 ∧
  snapshots (run_all_steps s) !! 7
    = Some (df_current (run_manually [1; 2; 3; 4; 5; 6; 7] loaded)) ∧
  ∀ k, 1 ≤ k ≤ 7 →
    snapshots (run_all_steps s) !! k
      = Some (df_current (run_manually (steps_upto k) loaded)).
Proof.
  intros Hm Hd Ht Hc Hok. rewrite (run_all_steps_mapped _ Hm).
  assert (same_inputs (reset_to_raw s) loaded) as Hin by done.
  assert (∀ k, 1 ≤ k ≤ 7 → ∃ l2,
            [1; 2; 3; 4; 5; 6; 7] = removelast (steps_upto k) ++ k :: l2 ∧
            steps_upto k = removelast (steps_upto k) ++ [k] ∧
            (k ∉ l2) ∧ (k = 7 → l2 = [])) as Hsplit.
  { intros k Hk.
    assert (k = 1 ∨ k = 2 ∨ k = 3 ∨ k = 4 ∨ k = 5 ∨ k = 6 ∨ k = 7) as Hcase by lia.
    destruct Hcase as [->|[->|[->|[->|[->|[->| ->]]]]]];
      eexists; (split; [reflexivity|]); (split; [reflexivity|]);
      (split; [rewrite ?elem_of_cons, elem_of_nil; lia|]); intros;
      first [lia | reflexivity]. }
  assert (∀ k, 1 ≤ k ≤ 7 →
            snapshots (run_steps [1; 2; 3; 4; 5; 6; 7] (reset_to_raw s)) !! k
              = Some (df_current (run_manually (steps_upto k) loaded)) ∧
            (k = 7 → current_step (run_steps [1; 2; 3; 4; 5; 6; 7] (reset_to_raw s)) = 7))
    as Hall.
  { intros k Hk. destruct (Hsplit k Hk) as (l2 & E1 & E2 & Hnin & H7).
    rewrite E2. rewrite E1 in Hok |- *.
    destruct (snapshot_after_steps _ k l2 _ _ Hin Hok Hnin) as [Hs Hp].
    split; [exact Hs|]. intros ->. apply Hp. by apply H7. }
  split; [|split].
  - by apply (Hall 7).
  - apply (Hall 7). lia.
  - intros k Hk. by apply Hall.
Qed.

Lemma run_all_matches_manual_run_witness :
  current_step (run_all_steps Sample.mapped_identity) = 7 ∧
  snapshots (run_all_steps Sample.mapped_identity) !! 7
    = Some (df_current (run_manually [1; 2; 3; 4; 5; 6; 7] Sample.mapped_identity)) ∧
  ∀ k, 1 ≤ k ≤ 7 →
    snapshots (run_all_steps Sample.mapped_identity) !! k
      = Some (df_current (run_manually (steps_upto k) Sample.mapped_identity)).
Proof.
  apply (run_all_matches_manual_run Sample.mapped_identity Sample.mapped_identity);
    vm_compute; repeat split.
Defined.

(** ** A full run and failing steps *)

Lemma run_step_checkpoint n flag s :
  4 ≤ n ≤ 7 →
  current_step (run_step n flag s) = n ∧
  df_current (run_step n flag s) = df_current s ∧
  snapshots (run_step n flag s) = <[n := df_current s]> (snapshots s).
Proof.
  intros Hn. rewrite (run_step_ok n flag s _ _ (checkpoint_transform n _ s Hn)).
  by destruct flag.
Qed.

Lemma run_steps_until_failure_all l s :
  no_failure l s → run_steps_until_failure l s = run_steps l s.
Proof.
  revert s. induction l as [|k l IH]; intros s; [done|].
  intros [Hk Hl]. simpl. rewrite IH by done.
  apply returns_ok in Hk as [[df sm] Hk]. by rewrite (run_step_ok _ _ _ _ _ Hk).
Qed.

(** C5, as the program has it.  Without a mapping nothing runs.  With a
    mapping the working frame is reset to the raw frame, which becomes
    snapshot 0, and [run_step] is called for each of the steps 1 to 7 in
    turn, after a failure too: a failing step leaves the working frame,
    the step pointer and the snapshots of the steps before it as they
    were, the steps after it run on that frame, and the step pointer ends
    at 7.  When no step fails this is the run that stops at the first
    failure. *)
Theorem run_all_runs_every_step (s : session) :
  (mapped s = false → run_all_steps s = display ErrorNotMapped s) ∧
  (mapped s = true →
     df_current (reset_to_raw s) = df_raw s ∧
     snapshots (reset_to_raw s) !! 0 = Some (df_raw s) ∧
     run_all_steps s =
       run_step 7 true (run_step 6 true (run_step 5 true (run_step 4 true
         (run_step 3 true (run_step 2 true (run_step 1 true (reset_to_raw s))))))) ∧
     current_step (run_all_steps s) = 7 ∧
     (∀ l k l', [1; 2; 3; 4; 5; 6; 7] = l ++ k :: l' →
        step_fails k (run_steps l (reset_to_raw s)) →
        df_current (run_steps (l ++ [k]) (reset_to_raw s))
          = df_current (run_steps l (reset_to_raw s)) ∧
        current_step (run_steps (l ++ [k]) (reset_to_raw s))
          = current_step (run_steps l (reset_to_raw s)) ∧
        snapshots (run_steps (l ++ [k]) (reset_to_raw s))
          = snapshots (run_steps l (reset_to_raw s))) ∧
     (no_failure [1; 2; 3; 4; 5; 6; 7] (reset_to_raw s) →
        run_all_steps s = run_all_stopping s)).
Proof.
  split; intros Hm.
  - unfold run_all_steps. by rewrite Hm.
  - rewrite (run_all_steps_mapped _ Hm).
    split; [done|]. split; [apply lookup_insert_eq|]. split; [done|].
    split; [|split].
    + rewrite (run_steps_snoc [1; 2; 3; 4; 5; 6] 7).
      apply run_step_checkpoint. lia.
    + intros l k l' _ Hfail. rewrite run_steps_snoc.
      apply raises_raise in Hfail as [e He].
      by rewrite (run_step_raise _ _ _ _ He).
    + intros Hok. unfold run_all_stopping. rewrite Hm. simpl negb. cbv iota.
      symmetry. by apply run_steps_until_failure_all.
Qed.

Lemma run_all_runs_every_step_witness :
  mapped Sample.mapped_crossed = true ∧
  current_step (run_all_steps Sample.mapped_crossed) = 7.
Proof.
  split; [reflexivity|].
  destruct (run_all_runs_every_step Sample.mapped_crossed) as [_ H].
  destruct (H eq_refl) as (_ & _ & _ & Hp & _). exact Hp.
Defined.

(** C5, as the specification has it, fails: with the crossed mapping step
    3 raises, and yet the steps 4 to 7 run; the step pointer ends at 7,
    where a run that stops at the failure leaves it at 2. *)
Lemma run_all_goes_on_after_failure :
  step_fails 3 (run_steps [1; 2] (reset_to_raw Sample.mapped_crossed)) ∧
  current_step (run_all_steps Sample.mapped_crossed) = 7 ∧
  step_summaries (run_all_steps Sample.mapped_crossed) !! 7 = Some (SummaryReady true) ∧
  current_step (run_all_stopping Sample.mapped_crossed) = 2 ∧
  run_all_steps Sample.mapped_crossed ≠ run_all_stopping Sample.mapped_crossed.
Proof.
  split; [vm_compute; reflexivity|].
  split; [vm_compute; reflexivity|].
  split; [vm_compute; reflexivity|].
  split; [vm_compute; reflexivity|].
  intros H. apply (f_equal current_step) in H. vm_compute in H. discriminate.
Qed.

(** ** Undo *)

Lemma undo_ok s snap :
  0 ≤ current_step s - 1 →
  snapshots s !! (current_step s - 1) = Some snap →
  undo_last_step s =
    Ok (set_show_custom_dashboard false
          (set_step_output (OutUndo (current_step s - 1))
             (set_current_step (current_step s - 1)
                (set_df_current (copy snap) s)))).
Proof.
  intros Hp Hs. unfold undo_last_step.
  destruct (Z.leb_spec 0 (current_step s - 1)); [|lia]. by rewrite Hs.
Qed.

Lemma undo_key_error s :
  0 ≤ current_step s - 1 →
  snapshots s !! (current_step s - 1) = None →
  undo_last_step s = Raise (KeyError (current_step s - 1)).
Proof.
  intros Hp Hs. unfold undo_last_step.
  destruct (Z.leb_spec 0 (current_step s - 1)); [|lia]. by rewrite Hs.
Qed.

Lemma undo_initial s :
  current_step s - 1 < 0 → undo_last_step s = Ok (display WarningInitialState s).
Proof.
  intros Hp. unfold undo_last_step.
  destruct (Z.leb_spec 0 (current_step s - 1)); [lia|done].
Qed.

(** Undo right after a successful step [n] looks up the key [n - 1]. *)
Lemma undo_after_step s n flag snap :
  1 ≤ n → step_succeeds n s →
  snapshots s !! (n - 1) = Some snap →
  ∃ s', undo_last_step (run_step n flag s) = Ok s' ∧
        df_current s' = snap ∧ current_step s' = n - 1.
Proof.
  intros Hn Hok Hsnap.
  destruct (run_step_snapshot n flag s Hok) as [_ Hptr].
  eexists. split.
  - apply undo_ok; rewrite Hptr; [lia|].
    rewrite run_step_snapshot_ne by lia. exact Hsnap.
  - by rewrite Hptr.
Qed.

(** *** Steps run in order keep the snapshot store complete *)

Lemma run_step_complete n flag s :
  0 ≤ current_step s →
  (∀ k, 0 ≤ k ≤ current_step s → is_Some (snapshots s !! k)) →
  1 ≤ n ≤ current_step s + 1 → step_succeeds n s →
  snapshots_complete (run_step n flag s).
Proof.
  intros Hp Hkeys Hn Hok.
  destruct (run_step_snapshot n flag s Hok) as [Hsnap Hptr].
  unfold snapshots_complete. rewrite Hptr. split; [lia|]. split; [done|].
  intros k Hk. destruct (decide (k = n)) as [->|Hne]; [by rewrite Hsnap|].
  rewrite run_step_snapshot_ne by done. apply Hkeys. lia.
Qed.

Lemma run_step_complete_any n flag s :
  snapshots_complete s → 1 ≤ n ≤ current_step s + 1 →
  snapshots_complete (run_step n flag s).
Proof.
  intros (Hp & Hcur & Hkeys) Hn.
  destruct (step_transform n (copy (df_current s)) s) as [r|e] eqn:E.
  - apply run_step_complete; try done. unfold step_succeeds. by rewrite E.
  - rewrite (run_step_raise _ _ _ _ E). done.
Qed.

Lemma run_steps_complete l s :
  snapshots_complete s → no_failure l s →
  (∀ l1 k l2, l = l1 ++ k :: l2 → k = current_step s + 1 + Z.of_nat (length l1)) →
  snapshots_complete (run_steps l s).
Proof.
  revert s. induction l as [|k l IH]; intros s Hc Hnf Hseq; [done|].
  destruct Hnf as [Hk Hl].
  pose proof (Hseq [] k l eq_refl) as Ek. simpl in Ek.
  pose proof (proj1 Hc) as Hp.
  destruct (run_step_snapshot k true s Hk) as [_ Hptr].
  apply IH; [|done|].
  - apply run_step_complete_any; [done|lia].
  - intros l1 k' l2 ->. rewrite Hptr.
    rewrite (Hseq (k :: l1) k' l2 eq_refl). simpl length. lia.
Qed.

Lemma in_order_complete s : in_order s → snapshots_complete s.
Proof.
  induction 1 as [df s Hne|m s _ IH|n flag s _ IH Hn|s s' _ IH Hu|s _ IH Hm Hok].
  - unfold load_raw, snapshots_complete. rewrite Hne. simpl.
    repeat split; [done|..].
    + apply lookup_insert_eq.
    + intros k Hk. assert (k = 0) as -> by lia. rewrite lookup_insert_eq. eauto.
  - unfold apply_mapping. by destruct (missing_critical m).
  - by apply run_step_complete_any.
  - destruct IH as (Hp & Hcur & Hkeys).
    destruct (Z.le_gt_cases 0 (current_step s - 1)) as [Hge|Hlt].
    + destruct (Hkeys (current_step s - 1)) as [snap Hsnap]; [lia|].
      rewrite (undo_ok _ _ Hge Hsnap) in Hu. injection Hu as <-.
      repeat split; simpl; [done|done|]. intros k Hk. apply Hkeys. lia.
    + rewrite (undo_initial _ Hlt) in Hu. injection Hu as <-. done.
  - rewrite (run_all_steps_mapped _ Hm).
    destruct IH as (Hp & _ & Hkeys).
    destruct Hok as [H1 Hrest].
    rewrite run_steps_cons.
    destruct (run_step_snapshot 1 true _ H1) as [_ Hptr].
    apply run_steps_complete; [|done|].
    + apply run_step_complete; [done| |simpl; lia|done].
      intros k Hk. simpl.
      destruct (decide (k = 0)) as [->|Hne];
        [rewrite lookup_insert_eq; eauto|rewrite lookup_insert_ne by done; auto].
    + intros l1 k l2 E. rewrite Hptr.
      do 6 (destruct l1 as [|? l1];
            [injection E as <- _; simpl; lia | injection E as _ E]).
      destruct l1; discriminate E.
Qed.

(** C2, as the program has it.  Let step [n ≥ 1] succeed.  When the
    snapshot of step [n - 1] holds the working frame, as it does when the
    step pointer is [n - 1] in a session whose steps were run in order,
    undo right after [run_step n] restores that frame and leaves the step
    pointer at [n - 1]. *)
Theorem undo_restores_frame_before_step (s : session) (n : Z) (flag : bool) :
  1 ≤ n → step_succeeds n s →
  (snapshots s !! (n - 1) = Some (df_current s) →
   ∃ s', undo_last_step (run_step n flag s) = Ok s' ∧
         df_current s' = df_current s ∧ current_step s' = n - 1) ∧
  (in_order s → current_step s = n - 1 →
   ∃ s', undo_last_step (run_step n flag s) = Ok s' ∧
         df_current s' = df_current s ∧ current_step s' = n - 1).
Proof.
  intros Hn Hok. split.
  - intros Hsnap. by apply undo_after_step.
  - intros Hin Hptr. apply undo_after_step; [done..|].
    destruct (in_order_complete s Hin) as (_ & Hcur & _). by rewrite <- Hptr.
Qed.

Lemma undo_restores_frame_before_step_witness :
  ∃ s', undo_last_step (run_step 1 false Sample.mapped_identity) = Ok s' ∧
        df_current s' = Sample.orders ∧ current_step s' = 0.
Proof.
  refine (proj1 (undo_restores_frame_before_step Sample.mapped_identity 1 false _ _) _).
  - lia.
  - vm_compute. reflexivity.
  - vm_compute. reflexivity.
Defined.

(** C2, as the specification has it, fails when a step is run again:
    after steps 1 and 2, where step 2 dropped the Amount column, a second
    [run_step 2] succeeds and undo then brings back the frame of step 1,
    which still has that column, not the frame that was there before the
    call. *)
Lemma undo_after_rerun_restores_older_frame :
  step_succeeds 2 (run_manually [1; 2] Sample.mapped_identity) ∧
  ∃ s', undo_last_step (run_step 2 false (run_manually [1; 2] Sample.mapped_identity))
          = Ok s' ∧
        current_step s' = 1 ∧
        columns (df_current (run_manually [1; 2] Sample.mapped_identity))
          = ["Date"; "Order ID"; "Qty"; "B2B"] ∧
        columns (df_current s') = ["Date"; "Amount"; "Order ID"; "Qty"; "B2B"] ∧
        df_current s' ≠ df_current (run_manually [1; 2] Sample.mapped_identity).
Proof.
  split; [vm_compute; reflexivity|].
  eexists. split; [vm_compute; reflexivity|].
  split; [reflexivity|]. split; [vm_compute; reflexivity|].
  split; [vm_compute; reflexivity|].
  intros H. apply (f_equal columns) in H. vm_compute in H. discriminate.
Qed.

Lemma reachable_mapped_identity : reachable Sample.mapped_identity.
Proof.
  apply reach_mapping; try (vm_compute; reflexivity).
  - apply reach_load; [apply reach_init|reflexivity].
  - intros std_name. apply default_choice_option.
Qed.

(** C10, as the program has it.  Undo is partial.  After a successful
    [run_step n] it looks up the snapshot of step [n - 1]; when the store
    has no such key it raises [KeyError].  This is the case when [n] is
    two or more past the step pointer in a session that holds no snapshot
    beyond its pointer, and such a session is reached through the page:
    load, map, run step 3, undo.  In a session whose steps were run in
    order undo never raises. *)
Theorem undo_raises_after_skipped_step :
  (∀ s n flag,
     1 ≤ n → step_succeeds n s → snapshots s !! (n - 1) = None →
     undo_last_step (run_step n flag s) = Raise (KeyError (n - 1))) ∧
  (∀ s n flag,
     1 ≤ n → step_succeeds n s →
     no_snapshot_ahead s → current_step s + 2 ≤ n →
     undo_last_step (run_step n flag s) = Raise (KeyError (n - 1))) ∧
  (∃ s, reachable s ∧ raises (undo_last_step s)) ∧
  (∀ s, in_order s → returns (undo_last_step s)).
Proof.
  assert (∀ s n flag,
     1 ≤ n → step_succeeds n s → snapshots s !! (n - 1) = None →
     undo_last_step (run_step n flag s) = Raise (KeyError (n - 1))) as Hkey.
  { intros s n flag Hn Hok Hnone.
    destruct (run_step_snapshot n flag s Hok) as [_ Hptr].
    rewrite <- Hptr at 2. apply undo_key_error; rewrite Hptr; [lia|].
    by rewrite run_step_snapshot_ne by lia. }
  split; [exact Hkey|]. split; [|split].
  - intros s n flag Hn Hok Hahead Hskip. apply Hkey; [done..|].
    destruct (snapshots s !! (n - 1)) as [snap|] eqn:E; [|done].
    assert (n - 1 ≤ current_step s) by (apply Hahead; by rewrite E). lia.
  - exists (run_step 3 false Sample.mapped_identity). split.
    + apply reach_step; try (vm_compute; reflexivity);
        [apply reachable_mapped_identity|lia].
    + vm_compute. reflexivity.
  - intros s Hin. destruct (in_order_complete s Hin) as (Hp & _ & Hkeys).
    destruct (Z.le_gt_cases 0 (current_step s - 1)) as [Hge|Hlt].
    + destruct (Hkeys (current_step s - 1)) as [snap Hsnap]; [lia|].
      by rewrite (undo_ok _ _ Hge Hsnap).
    + by rewrite (undo_initial _ Hlt).
Qed.

Lemma undo_raises_after_skipped_step_witness :
  undo_last_step (run_step 5 false Sample.mapped_identity) = Raise (KeyError 4).
Proof.
  refine (proj1 (proj2 undo_raises_after_skipped_step)
            Sample.mapped_identity 5 false _ _ _ _).
  - lia.
  - vm_compute. reflexivity.
  - intros k [snap Hk]. vm_compute in Hk.
    destruct k as [|p|p]; [vm_compute; discriminate| |discriminate Hk].
    destruct p; discriminate Hk.
  - vm_compute. discriminate.
Defined.

(** Each click on a step button of the page, for a step that succeeds
    and whose button is drawn. *)
Lemma reach_step_ok n s :
  reachable s → dashboard_view s = false → data_loaded s = true →
  mapped s = true → 1 ≤ n ≤ 7 → current_step s < n →
  reachable (run_step n false s).
Proof.
  intros Hs Hdash Hload Hmap Hn Hlt. apply reach_step; try done.
  unfold step_button_drawn, is_executed.
  destruct (Z.leb_spec n (current_step s)); [lia|done].
Qed.

(** C10, as the specification has it, fails after undos: the snapshots of
    steps that were undone stay in the store.  On the page the orders are
    loaded and mapped, the steps 1, 2 and 3 are run and Undo is pressed
    three times: the step pointer is 0 and the working frame is the raw
    frame, with its Amount column.  Step 3 is then run, three past the
    pointer, and succeeds.  Undo does not raise: key 2 is in the store,
    and the working frame becomes the frame that step 2 once left,
    without the Amount column. *)
Lemma undo_after_skipped_step_returns_stale_frame :
  ∃ s, undo_times 3 (run_manually [1; 2; 3] Sample.mapped_identity) = Ok s ∧
       reachable s ∧ reachable (run_step 3 false s) ∧
       current_step s = 0 ∧ current_step s + 2 ≤ 3 ∧
       df_current s = Sample.orders ∧
       step_succeeds 3 s ∧ current_step (run_step 3 false s) = 3 ∧
       ∃ s', undo_last_step (run_step 3 false s) = Ok s' ∧
             current_step s' = 2 ∧
             snapshots s !! 2 = Some (df_current s') ∧
             columns (df_current s') = ["Date"; "Order ID"; "Qty"; "B2B"] ∧
             df_current s' ≠ df_current s.
Proof.
  set (s0 := Sample.mapped_identity).
  set (s1 := run_step 1 false s0).
  set (s2 := run_step 2 false s1).
  set (s3 := run_step 3 false s2).
  assert (reachable s1) as H1
    by (apply reach_step_ok; try (vm_compute; reflexivity);
        [apply reachable_mapped_identity|lia]).
  assert (reachable s2) as H2
    by (apply reach_step_ok; try (vm_compute; reflexivity); [exact H1|lia]).
  assert (reachable s3) as H3
    by (apply reach_step_ok; try (vm_compute; reflexivity); [exact H2|lia]).
  assert (∀ s s', reachable s → undo_last_step s = Ok s' →
            show_custom_dashboard s = false → data_loaded s = true →
            reachable s') as Hundo
    by (intros s s' Hs Hu Hdash Hload; by apply (reach_undo s s')).
  eassert (undo_last_step s3 = Ok _) as E1 by (vm_compute; reflexivity).
  pose proof (Hundo _ _ H3 E1 ltac:(vm_compute; reflexivity)
                ltac:(vm_compute; reflexivity)) as R1.
  match type of E1 with
  | _ = Ok ?u =>
      eassert (undo_last_step u = Ok _) as E2 by (vm_compute; reflexivity)
  end.
  pose proof (Hundo _ _ R1 E2 ltac:(vm_compute; reflexivity)
                ltac:(vm_compute; reflexivity)) as R2.
  match type of E2 with
  | _ = Ok ?u =>
      eassert (undo_last_step u = Ok _) as E3 by (vm_compute; reflexivity)
  end.
  pose proof (Hundo _ _ R2 E3 ltac:(vm_compute; reflexivity)
                ltac:(vm_compute; reflexivity)) as R3.
  eexists. split; [vm_compute; reflexivity|].
  split; [exact R3|]. split.
  { apply reach_step_ok; try (vm_compute; reflexivity); [exact R3|lia]. }
  split; [reflexivity|]. split; [vm_compute; discriminate|].
  split; [vm_compute; reflexivity|]. split; [vm_compute; reflexivity|].
  split; [vm_compute; reflexivity|].
  eexists. split; [vm_compute; reflexivity|].
  split; [reflexivity|]. split; [vm_compute; reflexivity|].
  split; [vm_compute; reflexivity|].
  intros H. apply (f_equal columns) in H. vm_compute in H. discriminate.
Qed.

(** ** The text-generation service *)

Section GeminiFacts.

Context {model : Type}.
Variable API_KEYS : list string.
Variable configure : string → result model.
Variable generate_content : model → string → result string.

(** With at least one key, looking for a model never raises. *)
Lemma get_gemini_model_returns (s : ai_state) :
  API_KEYS ≠ [] →
  ∃ m s', get_gemini_model API_KEYS configure s = (Ok m, s').
Proof.
  intros Hne. funelim (get_gemini_model API_KEYS configure s); try by eauto.
  exfalso. apply Hne. by apply nil_length_inv.
Qed.

(** With at least one key, the answer is a string in every case. *)
Lemma get_gemini_response_returns (prompt : string) (s : ai_state) :
  API_KEYS ≠ [] →
  ∃ text s',
    get_gemini_response API_KEYS configure generate_content prompt s = (Ok text, s').
Proof.
  intros Hne. unfold get_gemini_response.
  destruct (get_gemini_model_returns s Hne) as (m & s' & ->).
  destruct m as [m|]; [|by eauto].
  destruct (generate_content m prompt); eauto.
Qed.

(** X28.  When every key fails, the answer is the fixed failure string. *)
Lemma get_gemini_response_all_failed (prompt : string) :
  API_KEYS ≠ [] → (∀ key, raises (configure key)) →
  ∃ s', get_gemini_response API_KEYS configure generate_content prompt (mkAi 0 None)
        = (Ok all_keys_failed, s').
Proof.
  intros Hne Hfail. unfold get_gemini_response.
  assert (∀ s m s', gemini_model s = None →
            get_gemini_model API_KEYS configure s = (Ok m, s') → m = None) as Hnone.
  { intros s. funelim (get_gemini_model API_KEYS configure s);
      intros m0 s0 Hs Hres; simpl in *; try congruence.
    - exfalso. unfold try_configure in Heq. destruct (API_KEYS !! _) as [key|]; [|done].
      pose proof (Hfail key) as Hk. rewrite Heq in Hk. discriminate.
    - by apply (H prompt Hne0 Hfail m0 s0). }
  destruct (get_gemini_model_returns (mkAi 0 None) Hne) as (m & s' & E).
  rewrite E. rewrite (Hnone (mkAi 0 None) m s' eq_refl E). eauto.
Qed.

End GeminiFacts.

(** C9 fails on the program when no key is configured, which is what the
    module falls back to when the secrets are missing: [API_KEYS[index]]
    raises, the handler computes [(index + 1) % len(API_KEYS)] with a zero
    length, and the [ZeroDivisionError] leaves [get_gemini_response],
    whatever the prompt. *)
Theorem get_gemini_response_without_keys_raises
    {model : Type} (configure : string → result model)
    (generate_content : model → string → result string)
    (prompt : string) (index : nat) :
  get_gemini_response [] configure generate_content prompt (mkAi index None)
  = (Raise ZeroDivisionError, mkAi index None).
Proof.
  unfold get_gemini_response. simp get_gemini_model. simpl.
  unfold try_configure. simpl. simp get_gemini_model. reflexivity.
Qed.

(** ** The scenarios of the specification *)

(** Step 3 on a hundred rows of which ten have no amount: ninety rows are
    left, the dates are time stamps and the three derived columns are
    there. *)
Example scenario_step_3 :
  ∃ df' sm,
    convert_date_and_derive Sample.ledger (build_col_map (default_choice Sample.ledger))
      = Ok (df', sm) ∧
    len df' = 90%nat ∧
    columns df' = ["Date"; "Amount"; "Order ID"; "Category"; "Month"; "Year"; "DayOfWeek"] ∧
    getitem df' "Date" = Ok (OneColumn (repeat (VTime (mkDate 2022 4 30)) 90)) ∧
    getitem df' "Month" = Ok (OneColumn (repeat (VStr "2022-04") 90)) ∧
    getitem df' "DayOfWeek" = Ok (OneColumn (repeat (VStr "Saturday") 90)).
Proof.
  eexists _, _. split; [vm_compute; reflexivity|].
  repeat split; vm_compute; reflexivity.
Qed.

(** A threshold of 5 with a column at six per cent and one at four. *)
Example scenario_threshold_5 :
  ∃ df' sm,
    drop_missing_columns Sample.sparse 5 = Ok (df', sm) ∧ columns df' = ["currency"].
Proof. eexists _, _. split; vm_compute; reflexivity. Qed.

(** Undo right after the load: a warning, and the step pointer stays 0. *)
Example scenario_undo_at_initial_state :
  undo_last_step Sample.loaded = Ok (display WarningInitialState Sample.loaded) ∧
  current_step (display WarningInitialState Sample.loaded) = 0.
Proof. split; reflexivity. Qed.

(** * Further properties of the code *)

(** ** Step 2 on shared labels, on empty tables and across thresholds *)

Lemma filter_two {A} (P : A → Prop) `{∀ x, Decision (P x)} (l : list A) x y :
  x ∈ l → y ∈ l → x ≠ y → P x → P y → (2 ≤ length (filter P l))%nat.
Proof.
  intros Hx Hy Hne Px Py.
  assert ([x; y] ⊆+ filter P l) as Hsub.
  { apply NoDup_submseteq.
    - apply NoDup_cons. split; [|apply NoDup_singleton].
      rewrite list_elem_of_singleton. done.
    - intros z. rewrite !elem_of_cons, elem_of_nil, list_elem_of_filter.
      intros [->|[->|[]]]; done. }
  apply submseteq_length in Hsub. exact Hsub.
Qed.

Lemma filter_none {A} (P : A → Prop) `{∀ x, Decision (P x)} (l : list A) :
  (∀ x, x ∈ l → ¬ P x) → filter P l = [].
Proof.
  intros Hl. destruct (filter P l) as [|x l'] eqn:E; [done|]. exfalso.
  assert (x ∈ filter P l) as Hx by (rewrite E; left).
  apply list_elem_of_filter in Hx as [Px Hx]. by apply (Hl x).
Qed.

Lemma label_count_pos df c : c ∈ df_data df → (1 ≤ label_count df (fst c))%nat.
Proof.
  intros Hc. unfold label_count.
  assert (c ∈ filter (λ c' : string * list cell, fst c' = fst c) (df_data df)) as Hin
    by (by apply list_elem_of_filter).
  destruct (filter _ (df_data df)); [by apply elem_of_nil in Hin|simpl; lia].
Qed.

Lemma missing_percentage_count df l :
  length (filter (λ e : string * spec_float, fst e = l) (missing_percentage df))
  = label_count df l.
Proof.
  rewrite missing_percentage_columns. unfold label_count.
  rewrite (filter_fmap_comm (λ c, (fst c, null_percentage df c))
             (λ e : string * spec_float, fst e = l)).
  by rewrite length_fmap.
Qed.

(** The entries picked for the dropped labels are as many as the labels
    exactly when each label names one column. *)
Lemma series_getitems_length_iff df labels :
  (∀ l, l ∈ labels → (1 ≤ label_count df l)%nat) →
  (length labels ≤ length (series_getitems (missing_percentage df) labels))%nat ∧
  (length (series_getitems (missing_percentage df) labels) = length labels ↔
   ∀ l, l ∈ labels → label_count df l = 1%nat).
Proof.
  unfold series_getitems.
  induction labels as [|l labels IH]; intros Hpos.
  - split; [done|]. split; [|done]. intros _ l Hl. by apply elem_of_nil in Hl.
  - destruct IH as [IHle IHiff]; [intros; apply Hpos; by right|].
    pose proof (Hpos l ltac:(by left)) as Hl.
    simpl flat_map. rewrite length_app, missing_percentage_count. simpl length.
    split; [lia|]. split.
    + intros Hlen l' Hl'. apply elem_of_cons in Hl' as [->|Hl'].
      * lia.
      * apply IHiff; [lia|done].
    + intros Hall. rewrite (Hall l) by (by left).
      rewrite (proj2 IHiff); [done|]. intros; apply Hall; by right.
Qed.

(** The two outcomes of step 2.  When each column over the threshold is
    the only one of its label, the frame comes back without them; when
    one of them shares its label, the summary cannot be built. *)
Lemma drop_missing_columns_cases df t :
  let over := filter (λ c, exceeds (null_percentage df c) t = true) (df_data df) in
  (Forall (λ c, label_count df (fst c) = 1%nat) over ∧
   ∃ dropped_summary,
     drop_missing_columns df t
       = Ok (mkDF (df_index df)
                  (filter (λ c, exceeds (null_percentage df c) t = false) (df_data df)),
             SummaryDropped dropped_summary
               (match over with
                | [] => NoteNoneExceeded t
                | _ => NoteDropped t (length over)
                end) (len df) (len df)) ∧
     map d_column dropped_summary = map fst over) ∨
  (Exists (λ c, (1 < label_count df (fst c))%nat) over ∧
   drop_missing_columns df t
     = Raise (ValueError "array length does not match index length")).
Proof.
  intros over. unfold drop_missing_columns. rewrite cols_to_drop_columns.
  fold over. set (labels := map fst over).
  assert (∀ l, l ∈ labels → (1 ≤ label_count df l)%nat) as Hpos.
  { intros l Hl. apply list_elem_of_fmap in Hl as (c & -> & Hc).
    apply list_elem_of_filter in Hc as [_ Hc]. by apply label_count_pos. }
  destruct (series_getitems_length_iff df labels Hpos) as [Hle Hiff].
  unfold dropped_frame. rewrite length_fmap.
  destruct (decide (length labels = length _)) as [Hlen|Hlen].
  - left. symmetry in Hlen. pose proof (proj1 Hiff Hlen) as Hone.
    assert (Forall (λ c, label_count df (fst c) = 1%nat) over) as Hall.
    { apply Forall_forall. intros c Hc. apply Hone.
      apply list_elem_of_fmap. by exists c. }
    split; [exact Hall|]. simpl mbind. eexists. split.
    + unfold copy, drop_columns, len. simpl. f_equal. f_equal.
      * f_equal. apply filter_ext_elem. intros c Hc. split.
        -- intros Hnot. destruct (exceeds (null_percentage df c) t) eqn:E; [|done].
           exfalso. apply Hnot. apply list_elem_of_fmap. exists c.
           split; [done|]. by apply list_elem_of_filter.
        -- intros E Hin. apply list_elem_of_fmap in Hin as (c' & Hfst & Hc').
           pose proof (proj1 (Forall_forall _ _) Hall c' Hc') as Hcnt.
           apply list_elem_of_filter in Hc' as [E' Hc'].
           assert (c ≠ c') as Hne by (intros ->; congruence).
           pose proof (filter_two (λ x : string * list cell, fst x = fst c')
                         (df_data df) c c' Hc Hc' Hne Hfst eq_refl) as H2.
           unfold label_count in Hcnt. lia.
      * f_equal. unfold labels. rewrite length_fmap.
        by destruct over.
    + apply (dropped_frame_columns labels
               (map (λ e : string * spec_float, (fst e, F64.round2 (snd e)))
                    (series_getitems (missing_percentage df) labels))).
      unfold dropped_frame. rewrite length_fmap.
      destruct (decide (length labels = length _)) as [Hlen'|Hlen']; [|by rewrite Hlen in Hlen'].
      reflexivity.
  - right. split; [|done].
    destruct (decide (Exists (λ c : string * list cell, (1 < label_count df (fst c))%nat) over))
      as [Hex|Hnex]; [exact Hex|].
    exfalso. apply Hlen. symmetry. apply Hiff. intros l Hl.
    apply list_elem_of_fmap in Hl as (c & -> & Hc).
    apply (not_Exists_Forall _) in Hnex.
    pose proof (proj1 (Forall_forall _ _) Hnex c Hc) as Hc1. simpl in Hc1.
    pose proof (Hpos (fst c)) as Hc2.
    assert (fst c ∈ labels) as Hin by (apply list_elem_of_fmap; by exists c).
    specialize (Hc2 Hin). lia.
Qed.

(** X4.  Step 2 raises exactly when a column over the threshold shares
    its label with another column: the labels to drop then pick more
    entries of the percentages than there are labels, and the summary
    frame is refused with a [ValueError].  In every other case step 2
    returns. *)
Theorem drop_missing_columns_raises_iff (df : DataFrame) (t : Z) :
  (raises (drop_missing_columns df t) ↔
   ∃ c, c ∈ df_data df ∧ exceeds (null_percentage df c) t = true ∧
        (1 < label_count df (fst c))%nat) ∧
  (raises (drop_missing_columns df t) →
   drop_missing_columns df t
     = Raise (ValueError "array length does not match index length")).
Proof.
  destruct (drop_missing_columns_cases df t) as [[Hall (rows & Hok & _)]|[Hex Hraise]].
  - rewrite Hok. split; [|discriminate]. split; [discriminate|].
    intros (c & Hc & Hover & Hcnt). exfalso.
    assert (c ∈ filter (λ c, exceeds (null_percentage df c) t = true) (df_data df))
      as Hin by (by apply list_elem_of_filter).
    pose proof (proj1 (Forall_forall _ _) Hall c Hin) as H1. simpl in H1. lia.
  - rewrite Hraise. split; [|done]. split; [|done]. intros _.
    apply Exists_exists in Hex as (c & Hc & Hcnt).
    apply list_elem_of_filter in Hc as [Hover Hc]. by exists c.
Qed.

Lemma drop_missing_columns_raises_iff_witness :
  raises (drop_missing_columns Sample.twins 50) ∧
  returns (drop_missing_columns Sample.twins 100).
Proof.
  split.
  - apply (proj1 (drop_missing_columns_raises_iff Sample.twins 50)).
    exists ("B2B", [NA; NA]). split; [left|].
    split; vm_compute; [reflexivity|lia].
  - destruct (is_ok (drop_missing_columns Sample.twins 100)) eqn:E; [exact E|].
    apply (proj1 (drop_missing_columns_raises_iff Sample.twins 100)) in E
      as (c & Hc & Hx & _).
    exfalso. unfold Sample.twins in Hc. simpl in Hc.
    rewrite !elem_of_cons, elem_of_nil in Hc.
    destruct Hc as [->|[->|[]]]; vm_compute in Hx; discriminate Hx.
Defined.

(** X5.  Step 2 is idempotent: on the frame it returned it drops
    nothing more at the same threshold and returns that frame again. *)
Theorem drop_missing_columns_idempotent (df df' : DataFrame) (t : Z) (sm : summary) :
  drop_missing_columns df t = Ok (df', sm) →
  drop_missing_columns df' t
    = Ok (df', SummaryDropped [] (NoteNoneExceeded t) (len df') (len df')).
Proof.
  intros Hok.
  destruct (drop_missing_columns_cases df t) as [[_ (rows & Hok' & _)]|[_ Hraise]];
    [|congruence].
  rewrite Hok' in Hok. injection Hok as <- _.
  set (df' := mkDF _ _).
  assert (filter (λ c, exceeds (null_percentage df' c) t = true) (df_data df') = [])
    as Hnone.
  { apply filter_none. intros c Hc. simpl in Hc.
    apply list_elem_of_filter in Hc as [Hc _].
    unfold null_percentage in *. unfold df', len. simpl. unfold len in Hc. congruence. }
  destruct (drop_missing_columns_cases df' t) as [[_ (rows' & Hok'' & Hrows)]|[Hex _]].
  - rewrite Hok''. rewrite Hnone in Hrows |- *.
    destruct rows'; [|discriminate]. f_equal. f_equal.
    destruct df' as [idx data] eqn:E. simpl. f_equal.
    apply filter_all. intros c Hc.
    destruct (exceeds (null_percentage (mkDF idx data) c) t) eqn:Ex; [|done].
    exfalso.
    assert (c ∈ filter (λ c, exceeds (null_percentage (mkDF idx data) c) t = true) data)
      as Hin by (by apply list_elem_of_filter).
    simpl in Hnone. rewrite Hnone in Hin. by apply elem_of_nil in Hin.
  - rewrite Hnone in Hex. by apply Exists_nil in Hex.
Qed.

Lemma drop_missing_columns_idempotent_witness :
  ∃ df' sm,
    drop_missing_columns Sample.sparse 5 = Ok (df', sm) ∧
    columns df' = ["currency"] ∧
    drop_missing_columns df' 5
      = Ok (df', SummaryDropped [] (NoteNoneExceeded 5) (len df') (len df')).
Proof.
  eassert (drop_missing_columns Sample.sparse 5 = Ok (_, _)) as E
    by (vm_compute; reflexivity).
  eexists _, _. split; [exact E|]. split; [reflexivity|].
  exact (drop_missing_columns_idempotent _ _ _ _ E).
Defined.

(** *** Comparisons of binary64 numbers *)

Lemma SFltb_trans x y z : SFltb x y = true → SFltb y z = true → SFltb x z = true.
Proof.
  unfold SFltb, SFcompare.
  destruct x as [sx|sx| |sx mx ex], y as [sy|sy| |sy my ey], z as [sz|sz| |sz mz ez];
    try destruct sx; try destruct sy; try destruct sz; try done;
    change (Pos.compare_cont Eq ?a ?b) with (Pos.compare a b);
    repeat match goal with
      | |- context [Z.compare ?a ?b] => destruct (Z.compare_spec a b)
      | |- context [Pos.compare ?a ?b] => destruct (Pos.compare_spec a b)
      end; simpl; try done; try lia.
Qed.

(** The thresholds of the slider convert to increasing numbers, all of
    them below the conversion of 100 and none below zero. *)
Lemma of_Z_increasing t1 t2 :
  0 ≤ t1 → t1 < t2 → t2 ≤ 100 → SFltb (F64.of_Z t1) (F64.of_Z t2) = true.
Proof.
  intros H1 H12 H2.
  assert (∀ t, 0 ≤ t < 100 → SFltb (F64.of_Z t) (F64.of_Z (t + 1)) = true) as Hstep.
  { intros t Ht.
    assert (forallb (λ k, SFltb (F64.of_Z (Z.of_nat k)) (F64.of_Z (Z.of_nat k + 1)))
              (seq 0 100) = true) as Hall by (vm_compute; reflexivity).
    rewrite forallb_forall in Hall. specialize (Hall (Z.to_nat t)).
    rewrite Z2Nat.id in Hall by lia. apply Hall. apply in_seq. lia. }
  assert (∀ d : nat, t1 + 1 + Z.of_nat d ≤ 100 →
            SFltb (F64.of_Z t1) (F64.of_Z (t1 + 1 + Z.of_nat d)) = true) as Hd.
  { induction d as [|d IH]; intros Hle.
    - rewrite Z.add_0_r. apply Hstep. lia.
    - apply (SFltb_trans _ (F64.of_Z (t1 + 1 + Z.of_nat d))); [apply IH; lia|].
      replace (t1 + 1 + Z.of_nat (S d)) with (t1 + 1 + Z.of_nat d + 1) by lia.
      apply Hstep. lia. }
  specialize (Hd (Z.to_nat (t2 - t1 - 1))).
  replace (t1 + 1 + Z.of_nat (Z.to_nat (t2 - t1 - 1))) with t2 in Hd by lia.
  apply Hd. lia.
Qed.

(** A lower threshold is exceeded whenever a higher one is. *)
Lemma exceeds_antitone p t1 t2 :
  0 ≤ t1 → t1 ≤ t2 → t2 ≤ 100 → exceeds p t2 = true → exceeds p t1 = true.
Proof.
  intros H1 H12 H2. unfold exceeds, F64.gtb. intros Hp.
  destruct (Z.eq_dec t1 t2) as [->|Hne]; [exact Hp|].
  apply (SFltb_trans _ (F64.of_Z t2)); [|exact Hp].
  apply of_Z_increasing; lia.
Qed.

(** *** The percentage of a column without a value and of one without a null *)

Lemma div_self n :
  0 < n < 2 ^ 53 →
  SFdiv 53 1024 (binary_normalize 53 1024 n 0 false) (binary_normalize 53 1024 n 0 false)
  = S754_finite false 4503599627370496 (-52).
Proof.
  intros Hn.
  destruct (of_Z_normal n Hn) as (m & e & [-> Hm] & He & _).
  rewrite SFdiv_normal by (lia || exact Hm).
  rewrite Z.mul_comm, Z.div_mul, Z.mod_mul, new_location_exact, Z.sub_diag by lia.
  reflexivity.
Qed.

Lemma percentage_full n :
  0 < Z.of_nat n < 2 ^ 53 →
  percentage (Z.of_nat n) n = S754_finite false F64.M100 (-46).
Proof.
  intros Hn. unfold percentage, F64.mul, F64.div, F64.of_Z, F64.prec, F64.emax.
  rewrite div_self by exact Hn. reflexivity.
Qed.

Lemma percentage_none n :
  (∃ sign, percentage 0 n = S754_zero sign) ∨ percentage 0 n = S754_nan.
Proof.
  unfold percentage, F64.mul, F64.div, F64.of_Z, F64.prec, F64.emax.
  rewrite of_Z_100.
  change (binary_normalize 53 1024 0 0 false) with (S754_zero false).
  destruct (binary_normalize 53 1024 (Z.of_nat n) 0 false) as [[]|[]| |[]];
    (by right) || (left; eexists; reflexivity).
Qed.

Lemma exceeds_nan t : exceeds S754_nan t = false.
Proof. unfold exceeds, F64.gtb, SFltb, SFcompare. by destruct (F64.of_Z t) as [[]|[]| |[]]. Qed.

Lemma exceeds_zero sign t : 0 ≤ t ≤ 100 → exceeds (S754_zero sign) t = false.
Proof.
  intros Ht. unfold exceeds, F64.gtb.
  destruct (Z.eq_dec t 0) as [->|Hne]; [by destruct sign|].
  pose proof (of_Z_increasing 0 t ltac:(lia) ltac:(lia) ltac:(lia)) as H.
  change (F64.of_Z 0) with (S754_zero false) in H.
  unfold SFltb, SFcompare in *. by destruct (F64.of_Z t) as [[]|[]| |[]].
Qed.

(** X6.  On a table without rows step 2 drops nothing, whatever the
    threshold: every percentage is [0 / 0], which is not a number, and
    nothing that is not a number is over a threshold. *)
Theorem drop_missing_columns_no_rows (df : DataFrame) (t : Z) :
  wf_frame df → len df = 0%nat →
  drop_missing_columns df t = Ok (df, SummaryDropped [] (NoteNoneExceeded t) 0 0).
Proof.
  intros Hwf Hlen.
  assert (∀ c, c ∈ df_data df → exceeds (null_percentage df c) t = false) as Hnone.
  { intros c Hc. pose proof (proj1 (Forall_forall _ _) Hwf c Hc) as Hc0. simpl in Hc0.
    rewrite Hlen in Hc0. apply nil_length_inv in Hc0.
    unfold null_percentage. rewrite Hc0, Hlen. apply exceeds_nan. }
  destruct (drop_missing_columns_cases df t) as [[_ (rows & Hok & Hrows)]|[Hex _]].
  - rewrite Hok, Hlen.
    rewrite (filter_none (λ c, exceeds (null_percentage df c) t = true)) in Hrows |- *
      by (intros c Hc; rewrite (Hnone c Hc); discriminate).
    destruct rows; [|discriminate]. f_equal. f_equal.
    destruct df as [idx data]. simpl. f_equal. by apply filter_all.
  - apply Exists_exists in Hex as (c & Hc & _).
    apply list_elem_of_filter in Hc as [Hover Hc]. rewrite (Hnone c Hc) in Hover. discriminate.
Qed.

Lemma drop_missing_columns_no_rows_witness :
  drop_missing_columns (mkDF [] [("Date", []); ("Amount", [])]) 10
  = Ok (mkDF [] [("Date", []); ("Amount", [])],
        SummaryDropped [] (NoteNoneExceeded 10) 0 0).
Proof.
  apply drop_missing_columns_no_rows; [|reflexivity]. repeat constructor.
Defined.

(** X7.  For a threshold from 0 to 99, on a frame with rows, step 2
    drops every column that has no value at all and keeps every column
    that has no null; at 100 the first stays too. *)
Theorem drop_missing_columns_full_and_clean_columns
    (df df' : DataFrame) (t : Z) (sm : summary) (c : string * list cell) :
  0 ≤ t ≤ 100 → wf_frame df → (0 < len df)%nat → Z.of_nat (len df) < 2 ^ 53 →
  drop_missing_columns df t = Ok (df', sm) → c ∈ df_data df →
  (null_count (snd c) = 0 → c ∈ df_data df') ∧
  (null_count (snd c) = Z.of_nat (len df) → (c ∈ df_data df' ↔ t = 100)).
Proof.
  intros Ht Hwf Hpos Hrows Hok Hc.
  destruct (drop_missing_columns_cases df t) as [[_ (rows & Hok' & _)]|[_ Hraise]];
    [|congruence].
  rewrite Hok' in Hok. injection Hok as <- _. simpl.
  rewrite list_elem_of_filter. unfold null_percentage. split.
  - intros ->. split; [|exact Hc].
    destruct (percentage_none (len df)) as [[sign ->] | ->];
      [by apply exceeds_zero|apply exceeds_nan].
  - intros ->. rewrite percentage_full by lia. split.
    + intros [Hx _]. destruct (Z.eq_dec t 100) as [E|E]; [exact E|]. exfalso.
      unfold exceeds, F64.gtb in Hx. rewrite <- of_Z_100 in Hx.
      change (binary_normalize 53 1024 100 0 false) with (F64.of_Z 100) in Hx.
      rewrite of_Z_increasing in Hx by lia. discriminate.
    + intros ->. split; [reflexivity|exact Hc].
Qed.

Lemma drop_missing_columns_full_and_clean_columns_witness :
  ∃ df' sm,
    drop_missing_columns
      (mkDF [0; 1] [("promotion", [NA; NA]); ("Order ID", [VInt 1; VInt 2])]) 50
      = Ok (df', sm) ∧
    ("Order ID", [VInt 1; VInt 2]) ∈ df_data df' ∧
    (("promotion", [NA; NA]) ∈ df_data df' ↔ 50 = 100).
Proof.
  pose (df := mkDF [0; 1] [("promotion", [NA; NA]); ("Order ID", [VInt 1; VInt 2])]).
  assert (∃ df' sm, drop_missing_columns df 50 = Ok (df', sm)) as (df' & sm & Hok)
    by (eexists _, _; vm_compute; reflexivity).
  assert (wf_frame df) as Hwf by (repeat constructor).
  assert (0 < len df)%nat as Hpos by (unfold df, len; simpl; lia).
  assert (Z.of_nat (len df) < 2 ^ 53) as Hrows by (vm_compute; reflexivity).
  exists df', sm. split; [exact Hok|]. split.
  - refine (proj1 (drop_missing_columns_full_and_clean_columns df df' 50 sm
                     ("Order ID", [VInt 1; VInt 2]) _ Hwf Hpos Hrows Hok _) _).
    + lia.
    + right. left.
    + reflexivity.
  - refine (proj2 (drop_missing_columns_full_and_clean_columns df df' 50 sm
                     ("promotion", [NA; NA]) _ Hwf Hpos Hrows Hok _) _).
    + lia.
    + left.
    + reflexivity.
Defined.

(** X8.  Raising the threshold drops no more columns: what step 2 keeps
    at a threshold it keeps at every higher one. *)
Theorem drop_missing_columns_monotone
    (df df1 df2 : DataFrame) (t1 t2 : Z) (sm1 sm2 : summary) :
  0 ≤ t1 → t1 ≤ t2 → t2 ≤ 100 →
  drop_missing_columns df t1 = Ok (df1, sm1) →
  drop_missing_columns df t2 = Ok (df2, sm2) →
  ∀ c, c ∈ df_data df1 → c ∈ df_data df2.
Proof.
  intros H1 H12 H2 Hok1 Hok2 c.
  destruct (drop_missing_columns_cases df t1) as [[_ (rows1 & Hok1' & _)]|[_ Hraise]];
    [|congruence].
  destruct (drop_missing_columns_cases df t2) as [[_ (rows2 & Hok2' & _)]|[_ Hraise]];
    [|congruence].
  rewrite Hok1' in Hok1. injection Hok1 as <- _.
  rewrite Hok2' in Hok2. injection Hok2 as <- _.
  simpl. rewrite !list_elem_of_filter. intros [Hx Hc]. split; [|exact Hc].
  destruct (exceeds (null_percentage df c) t2) eqn:E; [|done].
  by rewrite (exceeds_antitone _ t1 t2 H1 H12 H2 E) in Hx.
Qed.

Lemma drop_missing_columns_monotone_witness :
  ∃ df1 sm1 df2 sm2,
    drop_missing_columns Sample.sparse 5 = Ok (df1, sm1) ∧
    drop_missing_columns Sample.sparse 50 = Ok (df2, sm2) ∧
    columns df1 = ["currency"] ∧ columns df2 = ["promotion"; "currency"] ∧
    ∀ c, c ∈ df_data df1 → c ∈ df_data df2.
Proof.
  eassert (drop_missing_columns Sample.sparse 5 = Ok (_, _)) as E1
    by (vm_compute; reflexivity).
  eassert (drop_missing_columns Sample.sparse 50 = Ok (_, _)) as E2
    by (vm_compute; reflexivity).
  eexists _, _, _, _. split; [exact E1|]. split; [exact E2|].
  split; [reflexivity|]. split; [reflexivity|].
  exact (drop_missing_columns_monotone _ _ _ 5 50 _ _
           ltac:(lia) ltac:(lia) ltac:(lia) E1 E2).
Defined.

(** ** Step 1: the rows of the sample *)

Lemma list_as_map_nth {A} (l : list A) d :
  l = map (λ i, nth i l d) (seq 0 (length l)).
Proof.
  induction l as [|x l IH]; [done|].
  simpl. f_equal. rewrite <- seq_shift, map_map. exact IH.
Qed.

Lemma select_map {A B} (f : A → B) mask l :
  select mask (map f l) = map f (select mask l).
Proof.
  revert l. induction mask as [|b mask IH]; intros [|x l]; try done.
  simpl. rewrite IH. by destruct b.
Qed.

(** A selection by a mask is a selection of positions. *)
Lemma select_positions {A} mask (l : list A) d :
  select mask l = map (λ i, nth i l d) (select mask (seq 0 (length l))).
Proof.
  revert l. induction mask as [|b mask IH]; intros [|x l]; try done.
  simpl. rewrite <- seq_shift, select_map, (IH l).
  destruct b; simpl; rewrite map_map; reflexivity.
Qed.

Lemma firstn_positions {A} k (l : list A) d :
  firstn k l = map (λ i, nth i l d) (firstn k (seq 0 (length l))).
Proof.
  rewrite <- firstn_map, <- list_as_map_nth. reflexivity.
Qed.

Lemma select_mask_map {A} (p : A → bool) l :
  select (map p l) l = filter (λ x, p x = true) l.
Proof.
  induction l as [|x l IH]; [done|].
  simpl. rewrite filter_cons, IH. destruct (p x) eqn:E.
  - by rewrite decide_True.
  - by rewrite decide_False.
Qed.

(** The rows of a frame cut down to the positions [P]. *)
Lemma rows_positions df P idx' :
  length idx' = length P →
  rows (mkDF idx' (map (λ c : string * list cell,
                          (fst c, map (λ i, nth i (snd c) NA) P)) (df_data df)))
  = map (row df) P.
Proof.
  intros Hlen. unfold rows, len. simpl. rewrite Hlen.
  rewrite (list_as_map_nth (map (row df) P) []), length_fmap.
  apply map_ext_in. intros j Hj. apply in_seq in Hj.
  rewrite (nth_indep (map (row df) P) [] (row df 0%nat)) by (rewrite length_fmap; lia).
  rewrite (map_nth (row df) P 0%nat j).
  unfold row. simpl. rewrite map_map. simpl.
  apply map_ext. intros c.
  rewrite (nth_indep _ NA (nth 0%nat (snd c) NA)) by (rewrite length_fmap; lia).
  apply (map_nth (λ i, nth i (snd c) NA) P 0%nat j).
Qed.

Lemma rows_select_rows df mask :
  wf_frame df → rows (select_rows mask df) = select mask (rows df).
Proof.
  intros Hwf. unfold rows at 2. rewrite select_map.
  rewrite <- (rows_positions df (select mask (seq 0 (len df))) (select mask (df_index df))).
  - f_equal. unfold select_rows. f_equal.
    apply map_ext_in. intros c Hc. f_equal.
    rewrite (select_positions mask (snd c) NA).
    apply list_elem_of_In in Hc.
    by rewrite (proj1 (Forall_forall _ _) Hwf c Hc).
  - rewrite (select_positions mask (df_index df) 0), length_fmap. reflexivity.
Qed.

Lemma wf_select_rows df mask : wf_frame df → wf_frame (select_rows mask df).
Proof.
  intros Hwf. unfold wf_frame, select_rows, len. simpl.
  apply Forall_fmap, Forall_forall. intros c Hc. simpl.
  pose proof (proj1 (Forall_forall _ _) Hwf c Hc) as Hlen. simpl in Hlen.
  rewrite (select_positions mask (snd c) NA), (select_positions mask (df_index df) 0).
  rewrite !length_fmap, Hlen. reflexivity.
Qed.

Lemma rows_head df k : wf_frame df → rows (head k df) = firstn k (rows df).
Proof.
  intros Hwf. unfold rows at 2. rewrite firstn_map.
  rewrite <- (rows_positions df (firstn k (seq 0 (len df))) (firstn k (df_index df))).
  - f_equal. unfold head. f_equal.
    apply map_ext_in. intros c Hc. f_equal.
    rewrite (firstn_positions k (snd c) NA).
    apply list_elem_of_In in Hc.
    by rewrite (proj1 (Forall_forall _ _) Hwf c Hc).
  - rewrite !length_take, length_seq. reflexivity.
Qed.

Lemma lookup_nth {A} (l : list A) i d x : l !! i = Some x → nth i l d = x.
Proof. intros H. by rewrite nth_lookup, H. Qed.

(** The mask of step 1 marks the rows that have a null cell. *)
Lemma null_mask_rows n cols :
  Forall (λ col : list cell, length col = n) cols →
  null_mask n cols
  = map (λ i, has_null (map (λ col, nth i col NA) cols)) (seq 0 n).
Proof.
  intros Hcols. unfold null_mask.
  assert (∀ acc, length acc = n →
            fold_left (λ mask col, zip_with orb mask (map isnull col)) cols acc
            = map (λ i, nth i acc false || has_null (map (λ col, nth i col NA) cols))
                  (seq 0 n)) as Hfold.
  { induction Hcols as [|col cols Hcol Hcols IH]; intros acc Hacc.
    - simpl. rewrite (list_as_map_nth acc false) at 1. rewrite Hacc.
      apply map_ext. intros i. by rewrite orb_false_r.
    - simpl fold_left. rewrite IH.
      2:{ rewrite length_zip_with, length_fmap. lia. }
      apply map_ext_in. intros i Hi. apply in_seq in Hi.
      unfold has_null. simpl. rewrite orb_assoc. f_equal.
      destruct (lookup_lt_is_Some_2 acc i) as [a Ha]; [lia|].
      destruct (lookup_lt_is_Some_2 col i) as [x Hx]; [lia|].
      rewrite (lookup_nth acc i false a Ha), (lookup_nth col i NA x Hx).
      apply lookup_nth. rewrite lookup_zip_with, Ha. simpl.
      by rewrite list_lookup_fmap, Hx. }
  rewrite Hfold by apply repeat_length.
  apply map_ext. intros i. by rewrite nth_repeat.
Qed.

Lemma missing_mask_rows df :
  wf_frame df →
  null_mask (len df) (map snd (df_data df)) = map has_null (rows df).
Proof.
  intros Hwf. rewrite null_mask_rows by (by apply Forall_fmap).
  unfold rows, row. rewrite map_map. apply map_ext. intros i.
  by rewrite map_map.
Qed.

(** X1.  The sample of step 1 holds the first hundred rows of the frame
    that have a null cell, in their order, and the note counts all the
    rows that have one. *)
Theorem inspect_missing_values_sample (df : DataFrame) :
  wf_frame df →
  ∃ missing_summary sample_missing_rows,
    inspect_missing_values df
      = Ok (df, SummaryMissing missing_summary sample_missing_rows
                  (NoteFound (length missing_summary)
                     (length (filter (λ r, has_null r = true) (rows df))))) ∧
    rows sample_missing_rows
      = firstn 100 (filter (λ r, has_null r = true) (rows df)).
Proof.
  intros Hwf. unfold inspect_missing_values.
  rewrite (missing_mask_rows df Hwf). eexists _, _. split.
  - f_equal. f_equal. f_equal. f_equal.
    rewrite (filter_fmap_comm has_null (λ b, b = true)). by rewrite length_fmap.
  - unfold copy. rewrite rows_head by (by apply wf_select_rows).
    rewrite rows_select_rows by done. by rewrite select_mask_map.
Qed.

Lemma inspect_missing_values_sample_witness :
  ∃ missing_summary sample_missing_rows,
    inspect_missing_values Sample.orders
      = Ok (Sample.orders, SummaryMissing missing_summary sample_missing_rows
                  (NoteFound (length missing_summary) 1)) ∧
    rows sample_missing_rows
      = [[VStr "05-01-22"; NA; VStr "404-0687676"; VInt 2; VBool true]].
Proof.
  destruct (inspect_missing_values_sample Sample.orders) as (ms & sample & Hok & Hrows).
  - repeat constructor.
  - exists ms, sample. split; [exact Hok|exact Hrows].
Defined.

Lemma filter_nil_iff {A} (P : A → Prop) `{∀ x, Decision (P x)} (l : list A) :
  filter P l = [] ↔ ∀ x, x ∈ l → ¬ P x.
Proof.
  split; [|apply filter_none].
  intros Hnil x Hx Px.
  assert (x ∈ filter P l) as Hin by (by apply list_elem_of_filter).
  rewrite Hnil in Hin. by apply elem_of_nil in Hin.
Qed.

Lemma sort_desc_nil l : sort_desc l = [] ↔ l = [].
Proof.
  split; [|by intros ->].
  destruct l as [|r l]; [done|]. intros Hnil.
  assert (r ∈ sort_desc (r :: l)) as Hin by (apply elem_of_sort_desc; left).
  rewrite Hnil in Hin. by apply elem_of_nil in Hin.
Qed.

Lemma null_count_zero col : null_count col = 0 ↔ ∀ x, x ∈ col → isnull x = false.
Proof.
  unfold null_count. rewrite <- Nat2Z.inj_0, Nat2Z.inj_iff, length_zero_iff_nil.
  rewrite filter_nil_iff. split; intros H x Hx.
  - specialize (H x Hx). by destruct (isnull x).
  - rewrite (H x Hx). discriminate.
Qed.

(** No row has a null cell exactly when no column has one. *)
Lemma rows_without_null df :
  wf_frame df →
  (∀ r, r ∈ rows df → has_null r = false) ↔
  (∀ c x, c ∈ df_data df → x ∈ snd c → isnull x = false).
Proof.
  intros Hwf. split.
  - intros Hrows c x Hc Hx.
    pose proof (proj1 (Forall_forall _ _) Hwf c Hc) as Hlen. simpl in Hlen.
    apply list_elem_of_lookup in Hx as [i Hi].
    pose proof (lookup_lt_Some _ _ _ Hi) as Hlt. rewrite Hlen in Hlt.
    assert (row df i ∈ rows df) as Hr.
    { unfold rows. apply list_elem_of_fmap. exists i. split; [done|].
      apply list_elem_of_In, in_seq. lia. }
    specialize (Hrows _ Hr). unfold has_null in Hrows.
    destruct (isnull x) eqn:E; [|done].
    assert (existsb isnull (row df i) = true) as Hex; [|congruence].
    apply existsb_exists. exists x. split; [|exact E].
    unfold row. apply in_map_iff. exists c. split.
    + by apply lookup_nth.
    + by apply list_elem_of_In.
  - intros Hcols r Hr. unfold rows in Hr.
    apply list_elem_of_fmap in Hr as (i & -> & Hi).
    apply list_elem_of_In, in_seq in Hi.
    unfold has_null. destruct (existsb isnull (row df i)) eqn:E; [|done].
    apply existsb_exists in E as (x & Hx & Hnull).
    unfold row in Hx. apply in_map_iff in Hx as (c & <- & Hc).
    apply list_elem_of_In in Hc.
    pose proof (proj1 (Forall_forall _ _) Hwf c Hc) as Hlen. simpl in Hlen.
    rewrite (Hcols c (nth i (snd c) NA) Hc) in Hnull; [done|].
    apply list_elem_of_In, nth_In. lia.
Qed.

(** X2.  The summary and the sample of step 1 agree: the summary has no
    row exactly when the sample has none, and that is when the frame has
    no null cell at all. *)
Theorem inspect_missing_values_nothing_missing (df : DataFrame) :
  wf_frame df →
  ∃ missing_summary sample_missing_rows n,
    inspect_missing_values df
      = Ok (df, SummaryMissing missing_summary sample_missing_rows n) ∧
    (missing_summary = [] ↔ len sample_missing_rows = 0%nat) ∧
    (missing_summary = [] ↔
     ∀ c x, c ∈ df_data df → x ∈ snd c → isnull x = false).
Proof.
  intros Hwf. unfold inspect_missing_values.
  rewrite (missing_mask_rows df Hwf), missing_rows_zip.
  eexists _, _, _. split; [reflexivity|].
  assert (sort_desc (filter (λ r, 0 < m_count r) (map (missing_row_of (len df)) (df_data df)))
          = [] ↔ ∀ c x, c ∈ df_data df → x ∈ snd c → isnull x = false) as Hsummary.
  { rewrite sort_desc_nil, filter_nil_iff. split.
    - intros H c x Hc Hx. revert x Hx. apply null_count_zero.
      pose proof (null_count_bounds (snd c)).
      specialize (H (missing_row_of (len df) c)). simpl in H.
      assert (¬ 0 < null_count (snd c)); [|lia].
      apply H. apply list_elem_of_fmap. by exists c.
    - intros H r Hr. apply list_elem_of_fmap in Hr as (c & -> & Hc). simpl.
      rewrite (proj2 (null_count_zero (snd c))); [lia|]. intros x. by apply H. }
  split; [|exact Hsummary].
  rewrite Hsummary, <- (rows_without_null df Hwf).
  set (sample := copy _).
  assert (len sample = 0%nat ↔ rows sample = []) as ->.
  { unfold rows. destruct (len sample); simpl; split; intros; done || lia. }
  unfold sample, copy. rewrite rows_head by (by apply wf_select_rows).
  rewrite rows_select_rows, select_mask_map by done.
  split.
  - intros H. rewrite (filter_none (λ r, has_null r = true)); [done|].
    intros r Hr. rewrite (H r Hr). discriminate.
  - intros Hnil r Hr. destruct (has_null r) eqn:E; [|done]. exfalso.
    assert (r ∈ filter (λ r, has_null r = true) (rows df)) as Hin
      by (by apply list_elem_of_filter).
    destruct (filter _ (rows df)) as [|r' l]; [by apply elem_of_nil in Hin|].
    discriminate Hnil.
Qed.

Lemma inspect_missing_values_nothing_missing_witness :
  ∃ sample_missing_rows n,
    inspect_missing_values Sample.export
      = Ok (Sample.export, SummaryMissing [] sample_missing_rows n) ∧
    len sample_missing_rows = 0%nat.
Proof.
  destruct (inspect_missing_values_nothing_missing Sample.export)
    as (ms & sample & n & Hok & Hiff & _).
  - repeat constructor.
  - assert (ms = []) as -> by (vm_compute in Hok; by injection Hok as <- _ _).
    exists sample, n. split; [exact Hok|]. by apply Hiff.
Defined.

(** ** Step 3 on frames with distinct labels *)

Lemma has_column_elem df l : has_column df l = true ↔ ∃ c, (l, c) ∈ df_data df.
Proof.
  unfold has_column, columns. rewrite bool_decide_eq_true, list_elem_of_fmap. split.
  - intros ([l' c] & -> & Hin). by exists c.
  - intros [c Hin]. by exists (l, c).
Qed.

Lemma filter_label_one df l c :
  NoDup (columns df) → (l, c) ∈ df_data df →
  filter (λ c' : string * list cell, fst c' = l) (df_data df) = [(l, c)].
Proof.
  intros Hnd Hin.
  pose proof (filter_label_length (df_data df) l Hnd) as Hlen.
  assert ((l, c) ∈ filter (λ c' : string * list cell, fst c' = l) (df_data df)) as Hf
    by (by apply list_elem_of_filter).
  destruct (filter _ (df_data df)) as [|x [|y rest]].
  - by apply elem_of_nil in Hf.
  - by apply list_elem_of_singleton in Hf as <-.
  - exfalso. simpl in Hlen.
    assert (l ∈ map fst (df_data df)) as Hl by (apply list_elem_of_fmap; by exists (l, c)).
    specialize (Hlen Hl). discriminate.
Qed.

Lemma getitem_one df l c :
  NoDup (columns df) → (l, c) ∈ df_data df → getitem df l = Ok (OneColumn c).
Proof. intros Hnd Hin. unfold getitem. by rewrite (filter_label_one df l c). Qed.

(** *** Row selections *)

Lemma columns_select_rows mask df : columns (select_rows mask df) = columns df.
Proof. unfold columns, select_rows. simpl. by rewrite map_map. Qed.

Lemma elem_of_select_rows mask df l c :
  (l, c) ∈ df_data df → (l, select mask c) ∈ df_data (select_rows mask df).
Proof.
  intros Hin. unfold select_rows. simpl. apply list_elem_of_fmap. by exists (l, c).
Qed.

Lemma select_sublist {A} mask (l : list A) : select mask l `sublist_of` l.
Proof.
  revert l. induction mask as [|b mask IH]; intros [|x l]; simpl;
    try apply sublist_nil_l.
  destruct b; [by apply sublist_skip|by apply sublist_cons].
Qed.

Lemma zip_with_orb_false l : zip_with orb (repeat false (length l)) l = l.
Proof. induction l as [|b l IH]; [done|]. simpl. by rewrite IH. Qed.

(** On a frame with distinct labels [dropna] keeps the rows where the one
    column of the label is not null. *)
Lemma dropna_subset_one df l c :
  NoDup (columns df) → wf_frame df → (l, c) ∈ df_data df →
  dropna_subset df l = select_rows (map (λ x, negb (isnull x)) c) df ∧
  (l, filter (λ x, negb (isnull x) = true) c) ∈ df_data (dropna_subset df l).
Proof.
  intros Hnd Hwf Hin.
  assert (dropna_subset df l = select_rows (map (λ x, negb (isnull x)) c) df) as E.
  { unfold dropna_subset. rewrite (filter_label_one df l c Hnd Hin). simpl.
    unfold null_mask. simpl.
    pose proof (proj1 (Forall_forall _ _) Hwf _ Hin) as Hlen. simpl in Hlen.
    rewrite <- Hlen, <- (length_fmap isnull c), zip_with_orb_false, map_map.
    reflexivity. }
  split; [exact E|]. rewrite E, <- select_mask_map. by apply elem_of_select_rows.
Qed.

(** *** Column assignment *)

Lemma setitem_elem df l v : (l, v) ∈ df_data (setitem df l v).
Proof.
  unfold setitem. simpl. destruct (has_column df l) eqn:E.
  - apply has_column_elem in E as [c Hc]. apply list_elem_of_fmap.
    exists (l, c). split; [|exact Hc]. simpl. by rewrite decide_True.
  - apply elem_of_app. right. left.
Qed.

Lemma setitem_other df l v l' c :
  l' ≠ l → (l', c) ∈ df_data df → (l', c) ∈ df_data (setitem df l v).
Proof.
  intros Hne Hin. unfold setitem. simpl. destruct (has_column df l).
  - apply list_elem_of_fmap. exists (l', c). split; [|exact Hin].
    simpl. by rewrite decide_False.
  - apply elem_of_app. by left.
Qed.

Lemma columns_setitem df l v :
  columns (setitem df l v) = if has_column df l then columns df else columns df ++ [l].
Proof.
  unfold columns, setitem. simpl. destruct (has_column df l).
  - rewrite map_map. apply map_ext. intros c. by destruct (decide (fst c = l)).
  - by rewrite map_app.
Qed.

Lemma NoDup_setitem df l v : NoDup (columns df) → NoDup (columns (setitem df l v)).
Proof.
  intros Hnd. rewrite columns_setitem. destruct (has_column df l) eqn:E; [done|].
  apply NoDup_app. split; [done|]. split; [|apply NoDup_singleton].
  intros x Hx Hx'. apply list_elem_of_singleton in Hx' as ->.
  unfold has_column in E. by apply bool_decide_eq_false in E.
Qed.

Lemma wf_setitem df l v :
  wf_frame df → length v = len df → wf_frame (setitem df l v).
Proof.
  intros Hwf Hlen. unfold wf_frame, setitem, len in *. simpl.
  destruct (has_column df l).
  - apply Forall_fmap, Forall_forall. intros c Hc. simpl.
    destruct (decide (fst c = l)); [done|].
    by apply (proj1 (Forall_forall _ _) Hwf c).
  - apply Forall_app. split; [done|]. by constructor.
Qed.

Lemma len_setitem df l v : len (setitem df l v) = len df.
Proof. reflexivity. Qed.

(** *** Dropped columns *)

Lemma NoDup_drop_columns df labels :
  NoDup (columns df) → NoDup (columns (drop_columns df labels)).
Proof.
  unfold columns, drop_columns. simpl. intros Hnd.
  assert (map fst (filter (λ c : string * list cell, fst c ∉ labels) (df_data df))
          `sublist_of` map fst (df_data df)) as Hsub
    by apply fmap_sublist, sublist_filter.
  exact (sublist_NoDup _ _ Hnd Hsub).
Qed.

Lemma wf_drop_columns df labels : wf_frame df → wf_frame (drop_columns df labels).
Proof.
  unfold wf_frame, drop_columns, len. simpl. intros Hwf.
  apply Forall_forall. intros c Hc. apply list_elem_of_filter in Hc as [_ Hc].
  by apply (proj1 (Forall_forall _ _) Hwf c).
Qed.

Lemma elem_of_drop_columns df labels l c :
  (l, c) ∈ df_data (drop_columns df labels) ↔ (l ∉ labels) ∧ (l, c) ∈ df_data df.
Proof. unfold drop_columns. simpl. by rewrite list_elem_of_filter. Qed.

Lemma setitem_other_inv df l v l' c :
  l' ≠ l → (l', c) ∈ df_data (setitem df l v) → (l', c) ∈ df_data df.
Proof.
  intros Hne. unfold setitem. simpl. destruct (has_column df l).
  - intros Hin. apply list_elem_of_fmap in Hin as (c' & E & Hc').
    destruct (decide (fst c' = l)) as [El|El]; [by injection E as -> _|by subst].
  - intros Hin. apply elem_of_app in Hin as [Hin|Hin]; [exact Hin|].
    apply list_elem_of_singleton in Hin. by injection Hin as -> _.
Qed.

Lemma elem_of_select_rows_inv mask df l c :
  (l, c) ∈ df_data (select_rows mask df) →
  ∃ c', c = select mask c' ∧ (l, c') ∈ df_data df.
Proof.
  unfold select_rows. simpl. intros Hin.
  apply list_elem_of_fmap in Hin as ([l' c'] & E & Hc'). injection E as -> ->.
  by exists c'.
Qed.

Lemma columns_drop_columns df labels :
  columns (drop_columns df labels) = filter (λ l, l ∉ labels) (columns df).
Proof.
  unfold columns, drop_columns. simpl.
  by rewrite (filter_fmap_comm fst (λ l, l ∉ labels)).
Qed.

Lemma wf_rename_columns df m : wf_frame df → wf_frame (rename_columns df m).
Proof.
  unfold wf_frame, rename_columns, len. simpl. intros Hwf.
  apply Forall_fmap, Forall_forall. intros c Hc. simpl.
  by apply (proj1 (Forall_forall _ _) Hwf c).
Qed.

Lemma Forall_select {A} (P : A → Prop) mask l : Forall P l → Forall P (select mask l).
Proof.
  intros H. apply Forall_forall. intros x Hx.
  apply (proj1 (Forall_forall _ _) H).
  exact (elem_of_sublist _ _ _ Hx (select_sublist mask l)).
Qed.

(** What is left of converted cells when the nulls are gone: time stamps. *)
Lemma to_datetime_not_null col :
  ∃ ds, filter (λ x, negb (isnull x) = true) (map Dates.to_datetime_cell col)
        = map VTime ds.
Proof.
  induction col as [|x col [ds IH]]; [by exists []|].
  simpl map. rewrite filter_cons, IH.
  destruct (Dates.to_datetime_cell x) as [| | | | |d] eqn:E;
    try (exfalso; revert E; unfold Dates.to_datetime_cell;
         destruct x; try destruct (Dates.strptime _); discriminate).
  - by exists ds.
  - by exists (d :: ds).
Qed.

Lemma b2b_lookup_bool x : b2b_lookup x = NA ∨ ∃ b, b2b_lookup x = VBool b.
Proof.
  unfold b2b_lookup. destruct x as [|s|b|z|f|d]; eauto.
  - destruct (decide (s = "Yes")); [eauto|]. destruct (decide (s = "No")); eauto.
  - destruct z as [|p|p]; eauto. destruct p; eauto.
Qed.

(** The frame that step 3 has built when it comes to the derived columns:
    without New and PendingS, without the rows that lack an amount or a
    date that parses, with time stamps for dates and booleans for B2B. *)
Lemma convert_date_converted df mapping :
  NoDup (columns (rename_columns df (reverse_dict mapping))) → wf_frame df →
  has_column (rename_columns df (reverse_dict mapping)) "Date" = true →
  ∃ df5 ds,
    NoDup (columns df5) ∧ wf_frame df5 ∧
    ("Date", map VTime ds) ∈ df_data df5 ∧
    df_index df5 `sublist_of` df_index df ∧
    columns df5
      = filter (λ l, l ∉ ["New"; "PendingS"])
               (columns (rename_columns df (reverse_dict mapping))) ∧
    (∀ c, ("Amount", c) ∈ df_data df5 → Forall (λ x, isnull x = false) c) ∧
    (∀ c, ("B2B", c) ∈ df_data df5 → Forall (λ x, x = NA ∨ ∃ b, x = VBool b) c) ∧
    convert_date_and_derive df mapping =
      Ok (setitem
            (setitem
               (setitem df5 "Month" (map Dates.dt_month (map VTime ds)))
               "Year" (map Dates.dt_year (map VTime ds)))
            "DayOfWeek" (map Dates.dt_day_name (map VTime ds)),
          SummaryNote NoteDateConverted).
Proof.
  intros Hnd0 Hwf Hdate. unfold convert_date_and_derive, copy.
  set (df0 := rename_columns df (reverse_dict mapping)) in *.
  rewrite Hdate.
  pose proof (wf_rename_columns df (reverse_dict mapping) Hwf) as Hwf0. fold df0 in Hwf0.
  apply has_column_elem in Hdate as [c0 Hc0].
  (* 2. the unused columns *)
  set (df1 := drop_columns df0 ["New"; "PendingS"]).
  assert (NoDup (columns df1)) as Hnd1 by (by apply NoDup_drop_columns).
  assert (wf_frame df1) as Hwf1 by (by apply wf_drop_columns).
  assert (("Date", c0) ∈ df_data df1) as Hc1.
  { apply elem_of_drop_columns. split; [|exact Hc0].
    rewrite !elem_of_cons, elem_of_nil. intros [H|[H|[]]]; discriminate H. }
  (* 3. the rows without an amount *)
  set (df2 := if has_column df1 "Amount" then dropna_subset df1 "Amount" else df1).
  assert (NoDup (columns df2) ∧ wf_frame df2 ∧ columns df2 = columns df1 ∧
          df_index df2 `sublist_of` df_index df1 ∧
          (∃ c2, ("Date", c2) ∈ df_data df2) ∧
          (∀ c, ("Amount", c) ∈ df_data df2 → Forall (λ x, isnull x = false) c))
    as (Hnd2 & Hwf2 & Hcols2 & Hidx2 & [c2 Hc2] & Hamount2).
  { unfold df2. destruct (has_column df1 "Amount") eqn:Ha.
    - apply has_column_elem in Ha as [a Ha].
      destruct (dropna_subset_one df1 "Amount" a Hnd1 Hwf1 Ha) as [E Hin].
      rewrite E in Hin |- *. rewrite columns_select_rows.
      split; [done|]. split; [by apply wf_select_rows|]. split; [done|].
      split; [apply select_sublist|]. split.
      + eexists. apply elem_of_select_rows. exact Hc1.
      + intros c Hc.
        assert (NoDup (map fst (df_data (select_rows (map (λ x, negb (isnull x)) a) df1))))
          as Hnd' by (fold (columns (select_rows (map (λ x, negb (isnull x)) a) df1));
                      by rewrite columns_select_rows).
        pose proof (NoDup_label_unique _ _ _ Hnd' Hc Hin eq_refl) as Ec.
        injection Ec as ->. apply Forall_forall. intros x Hx.
        apply list_elem_of_filter in Hx as [Hx _]. by destruct (isnull x).
    - split; [done|]. split; [done|]. split; [done|]. split; [done|].
      split; [by exists c0|]. intros c Hc.
      assert (has_column df1 "Amount" = true) as Ha' by (apply has_column_elem; by exists c).
      congruence. }
  fold df2.
  (* 4. the dates *)
  rewrite (getitem_one df2 "Date" c2 Hnd2 Hc2). simpl mbind.
  set (df3 := setitem df2 "Date" (map Dates.to_datetime_cell c2)).
  assert (length c2 = len df2) as Hlen2
    by (exact (proj1 (Forall_forall _ _) Hwf2 _ Hc2)).
  assert (NoDup (columns df3)) as Hnd3 by (by apply NoDup_setitem).
  assert (wf_frame df3) as Hwf3 by (apply wf_setitem; [done|by rewrite length_fmap]).
  assert (("Date", map Dates.to_datetime_cell c2) ∈ df_data df3) as Hc3
    by apply setitem_elem.
  destruct (dropna_subset_one df3 "Date" _ Hnd3 Hwf3 Hc3) as [E4 Hc4].
  set (df4 := dropna_subset df3 "Date") in *.
  destruct (to_datetime_not_null c2) as [ds Hds]. rewrite Hds in Hc4.
  assert (NoDup (columns df4)) as Hnd4 by (rewrite E4, columns_select_rows; done).
  assert (wf_frame df4) as Hwf4 by (rewrite E4; by apply wf_select_rows).
  assert (columns df4 = columns df1) as Hcols4.
  { rewrite E4, columns_select_rows. unfold df3. rewrite columns_setitem.
    assert (has_column df2 "Date" = true) as -> by (apply has_column_elem; by exists c2).
    exact Hcols2. }
  assert (df_index df4 `sublist_of` df_index df1) as Hidx4.
  { transitivity (df_index df2); [|exact Hidx2]. rewrite E4. apply select_sublist. }
  assert (∀ c, ("Amount", c) ∈ df_data df4 → Forall (λ x, isnull x = false) c) as Hamount4.
  { intros c Hc. rewrite E4 in Hc.
    apply elem_of_select_rows_inv in Hc as (c' & -> & Hc').
    apply Forall_select, Hamount2.
    apply (setitem_other_inv df2 "Date" (map Dates.to_datetime_cell c2) "Amount" c');
      [discriminate|exact Hc']. }
  (* 5. the B2B flag *)
  set (r5 := if has_column df4 "B2B" then map_b2b df4 else Ok df4).
  assert (∃ df5, r5 = Ok df5 ∧ NoDup (columns df5) ∧ wf_frame df5 ∧
            columns df5 = columns df4 ∧ df_index df5 = df_index df4 ∧
            ("Date", map VTime ds) ∈ df_data df5 ∧
            (∀ c, ("Amount", c) ∈ df_data df5 → ("Amount", c) ∈ df_data df4) ∧
            (∀ c, ("B2B", c) ∈ df_data df5 → Forall (λ x, x = NA ∨ ∃ b, x = VBool b) c))
    as (df5 & -> & Hnd5 & Hwf5 & Hcols5 & Hidx5 & Hc5 & Hamount5 & Hb2b5).
  { unfold r5. destruct (has_column df4 "B2B") eqn:Hb.
    - pose proof Hb as Hb'. apply has_column_elem in Hb' as [b Hb'].
      unfold map_b2b. rewrite (getitem_one df4 "B2B" b Hnd4 Hb'). simpl mbind.
      eexists. split; [reflexivity|].
      split; [by apply NoDup_setitem|].
      split.
      { apply wf_setitem; [done|]. rewrite length_fmap.
        exact (proj1 (Forall_forall _ _) Hwf4 _ Hb'). }
      split; [by rewrite columns_setitem, Hb|]. split; [reflexivity|].
      split; [apply setitem_other; [discriminate|exact Hc4]|].
      split; [intros c; apply setitem_other_inv; discriminate|].
      intros c Hc.
      pose proof (NoDup_label_unique _ _ _ (NoDup_setitem df4 "B2B" (map b2b_lookup b) Hnd4)
                    Hc (setitem_elem df4 "B2B" (map b2b_lookup b)) eq_refl) as Ec.
      injection Ec as ->. apply Forall_fmap, Forall_forall. intros x _. apply b2b_lookup_bool.
    - exists df4. repeat (split; [done|]). intros c Hc.
      assert (has_column df4 "B2B" = true) as Hb' by (apply has_column_elem; by exists c).
      congruence. }
  simpl mbind.
  (* 6. the derived columns *)
  rewrite (getitem_one df5 "Date" _ Hnd5 Hc5). simpl mbind.
  set (df6 := setitem df5 "Month" _).
  assert (NoDup (columns df6)) as Hnd6 by (by apply NoDup_setitem).
  assert (("Date", map VTime ds) ∈ df_data df6) as Hc6
    by (apply setitem_other; [discriminate|exact Hc5]).
  rewrite (getitem_one df6 "Date" _ Hnd6 Hc6). simpl mbind.
  set (df7 := setitem df6 "Year" _).
  assert (NoDup (columns df7)) as Hnd7 by (by apply NoDup_setitem).
  assert (("Date", map VTime ds) ∈ df_data df7) as Hc7
    by (apply setitem_other; [discriminate|exact Hc6]).
  rewrite (getitem_one df7 "Date" _ Hnd7 Hc7). simpl mbind.
  exists df5, ds.
  split; [done|]. split; [done|]. split; [done|].
  split; [rewrite Hidx5; exact Hidx4|].
  split; [rewrite Hcols5, Hcols4; apply columns_drop_columns|].
  split; [intros c Hc; by apply Hamount4, Hamount5|].
  split; [done|]. reflexivity.
Qed.



(** X10.  After a conversion the derived columns go with the dates row by
    row: every cell of Date is a time stamp, and Month, Year and
    DayOfWeek hold the month label, the year and the day name of the
    date of their row. *)
Theorem convert_date_and_derive_derived_columns
    (df : DataFrame) (mapping : Dict.t string) :
  NoDup (columns (rename_columns df (reverse_dict mapping))) → wf_frame df →
  "Date" ∈ columns (rename_columns df (reverse_dict mapping)) →
  ∃ df' ds,
    convert_date_and_derive df mapping = Ok (df', SummaryNote NoteDateConverted) ∧
    length ds = len df' ∧
    getitem df' "Date" = Ok (OneColumn (map VTime ds)) ∧
    getitem df' "Month"
      = Ok (OneColumn (map (λ d, VStr (Dates.month_label d)) ds)) ∧
    getitem df' "Year" = Ok (OneColumn (map (λ d, VInt (d_year d)) ds)) ∧
    getitem df' "DayOfWeek"
      = Ok (OneColumn (map (λ d, VStr (Dates.day_name d)) ds)).
Proof.
  intros Hnd Hwf Hdate.
  assert (has_column (rename_columns df (reverse_dict mapping)) "Date" = true) as Hhas
    by (by apply bool_decide_eq_true).
  destruct (convert_date_converted df mapping Hnd Hwf Hhas)
    as (df5 & ds & Hnd5 & Hwf5 & Hc5 & _ & _ & _ & _ & ->).
  rewrite !map_map. simpl.
  set (df6 := setitem df5 "Month" _). set (df7 := setitem df6 "Year" _).
  set (df8 := setitem df7 "DayOfWeek" _).
  assert (NoDup (columns df8)) as Hnd8 by (by do 3 apply NoDup_setitem).
  exists df8, ds. split; [reflexivity|]. split; [|split; [|split; [|split]]].
  - pose proof (proj1 (Forall_forall _ _) Hwf5 _ Hc5) as Hlen. simpl in Hlen.
    by rewrite length_fmap in Hlen.
  - apply getitem_one; [done|].
    do 3 (apply setitem_other; [discriminate|]). exact Hc5.
  - apply getitem_one; [done|].
    do 2 (apply setitem_other; [discriminate|]). apply setitem_elem.
  - apply getitem_one; [done|].
    apply setitem_other; [discriminate|]. apply setitem_elem.
  - apply getitem_one; [done|]. apply setitem_elem.
Qed.

Lemma convert_date_and_derive_derived_columns_witness :
  ∃ df' ds,
    convert_date_and_derive Sample.orders Sample.identity_mapping
      = Ok (df', SummaryNote NoteDateConverted) ∧
    length ds = len df' ∧
    getitem df' "Date" = Ok (OneColumn (map VTime ds)) ∧
    getitem df' "Month"
      = Ok (OneColumn (map (λ d, VStr (Dates.month_label d)) ds)) ∧
    getitem df' "Year" = Ok (OneColumn (map (λ d, VInt (d_year d)) ds)) ∧
    getitem df' "DayOfWeek"
      = Ok (OneColumn (map (λ d, VStr (Dates.day_name d)) ds)).
Proof.
  apply (convert_date_and_derive_derived_columns Sample.orders Sample.identity_mapping).
  - vm_compute. repeat constructor; rewrite ?elem_of_cons, elem_of_nil;
      intros H; repeat destruct H as [H|H]; discriminate || done.
  - repeat constructor.
  - vm_compute. left.
Defined.

(** X11.  After a conversion no row lacks its date or its amount, the
    columns New and PendingS are gone, every other column of the renamed
    frame is still there, and B2B holds booleans and nulls only. *)
Theorem convert_date_and_derive_cleans
    (df df' : DataFrame) (mapping : Dict.t string) (sm : summary) :
  NoDup (columns (rename_columns df (reverse_dict mapping))) → wf_frame df →
  "Date" ∈ columns (rename_columns df (reverse_dict mapping)) →
  convert_date_and_derive df mapping = Ok (df', sm) →
  NoDup (columns df') ∧ wf_frame df' ∧
  ("New" ∉ columns df') ∧ ("PendingS" ∉ columns df') ∧
  (∀ l, l ∈ columns (rename_columns df (reverse_dict mapping)) →
        l ≠ "New" → l ≠ "PendingS" → l ∈ columns df') ∧
  (∀ c, ("Date", c) ∈ df_data df' → Forall (λ x, isnull x = false) c) ∧
  (∀ c, ("Amount", c) ∈ df_data df' → Forall (λ x, isnull x = false) c) ∧
  (∀ c, ("B2B", c) ∈ df_data df' → Forall (λ x, x = NA ∨ ∃ b, x = VBool b) c).
Proof.
  intros Hnd Hwf Hdate Hok.
  assert (has_column (rename_columns df (reverse_dict mapping)) "Date" = true) as Hhas
    by (by apply bool_decide_eq_true).
  destruct (convert_date_converted df mapping Hnd Hwf Hhas)
    as (df5 & ds & Hnd5 & Hwf5 & Hc5 & _ & Hcols5 & Hamount5 & Hb2b5 & Hok').
  rewrite Hok' in Hok. injection Hok as <- _.
  pose proof (proj1 (Forall_forall _ _) Hwf5 _ Hc5) as Hlen. simpl in Hlen.
  rewrite length_fmap in Hlen.
  set (df6 := setitem df5 "Month" _). set (df7 := setitem df6 "Year" _).
  set (df8 := setitem df7 "DayOfWeek" _).
  assert (NoDup (columns df8)) as Hnd8 by (by do 3 apply NoDup_setitem).
  assert (∀ l, l ∈ columns df8 →
            l ∈ columns df5 ∨ l = "Month" ∨ l = "Year" ∨ l = "DayOfWeek") as Hcols8.
  { intros l. unfold df8, df7, df6. rewrite !columns_setitem.
    repeat match goal with |- context [if ?b then _ else _] => destruct b end;
      rewrite ?elem_of_app, ?list_elem_of_singleton; tauto. }
  assert (∀ l, l ∈ columns df5 → l ∈ columns df8) as Hkeep.
  { intros l. unfold df8, df7, df6. rewrite !columns_setitem.
    repeat match goal with |- context [if ?b then _ else _] => destruct b end;
      rewrite ?elem_of_app; tauto. }
  assert (∀ l c, l ≠ "Month" → l ≠ "Year" → l ≠ "DayOfWeek" →
            (l, c) ∈ df_data df8 → (l, c) ∈ df_data df5) as Hback.
  { intros l c H1 H2 H3 Hin.
    apply (setitem_other_inv df7 "DayOfWeek" _ l c H3) in Hin.
    apply (setitem_other_inv df6 "Year" _ l c H2) in Hin.
    by apply (setitem_other_inv df5 "Month" _ l c H1) in Hin. }
  split; [done|]. split.
  { do 3 (apply wf_setitem; [|by rewrite ?len_setitem, !length_fmap]). done. }
  split.
  { intros Hin. apply Hcols8 in Hin as [Hin|[H|[H|H]]]; try discriminate H.
    rewrite Hcols5 in Hin. apply list_elem_of_filter in Hin as [Hin _].
    apply Hin. left. }
  split.
  { intros Hin. apply Hcols8 in Hin as [Hin|[H|[H|H]]]; try discriminate H.
    rewrite Hcols5 in Hin. apply list_elem_of_filter in Hin as [Hin _].
    apply Hin. right. left. }
  split.
  { intros l Hl Hnew Hpend. apply Hkeep. rewrite Hcols5.
    apply list_elem_of_filter. split; [|exact Hl].
    rewrite !elem_of_cons, elem_of_nil. tauto. }
  split.
  { intros c Hc. apply Hback in Hc; try discriminate.
    assert (NoDup (map fst (df_data df5))) as Hnd5' by exact Hnd5.
    pose proof (NoDup_label_unique _ _ _ Hnd5' Hc Hc5 eq_refl) as E.
    injection E as ->. apply Forall_fmap, Forall_forall. by intros. }
  split.
  { intros c Hc. apply Hback in Hc; try discriminate. by apply Hamount5. }
  intros c Hc. apply Hback in Hc; try discriminate. by apply Hb2b5.
Qed.

Lemma convert_date_and_derive_cleans_witness :
  ∃ df', convert_date_and_derive Sample.orders Sample.identity_mapping
           = Ok (df', SummaryNote NoteDateConverted) ∧
         len df' = 1%nat ∧
         ∀ c, ("Amount", c) ∈ df_data df' → Forall (λ x, isnull x = false) c.
Proof.
  assert (NoDup (columns (rename_columns Sample.orders
                            (reverse_dict Sample.identity_mapping)))) as Hnd.
  { vm_compute. repeat constructor; rewrite ?elem_of_cons, elem_of_nil;
      intros H; repeat destruct H as [H|H]; discriminate || done. }
  assert (wf_frame Sample.orders) as Hwf by repeat constructor.
  assert ("Date" ∈ columns (rename_columns Sample.orders
                              (reverse_dict Sample.identity_mapping))) as Hdate
    by (vm_compute; left).
  assert (∃ df', convert_date_and_derive Sample.orders Sample.identity_mapping
                 = Ok (df', SummaryNote NoteDateConverted) ∧ len df' = 1%nat)
    as (df' & Hok & Hlen) by (eexists; split; vm_compute; reflexivity).
  exists df'. split; [exact Hok|]. split; [exact Hlen|].
  exact (proj1 (proj2 (proj2 (proj2 (proj2 (proj2 (proj2
           (convert_date_and_derive_cleans Sample.orders df' Sample.identity_mapping
              _ Hnd Hwf Hdate Hok)))))))).
Defined.

Lemma dropna_subset_index df l :
  df_index (dropna_subset df l) `sublist_of` df_index df.
Proof. unfold dropna_subset, select_rows. simpl. apply select_sublist. Qed.

Lemma map_b2b_index df df' : map_b2b df = Ok df' → df_index df' = df_index df.
Proof.
  unfold map_b2b. destruct (getitem df "B2B") as [[c|cs]|e]; simpl; try discriminate.
  - by intros [= <-].
  - destruct (decide (len df = 0%nat)); [|discriminate]. by intros [= <-].
Qed.

(** X12.  Step 3 adds no row and moves none: the rows of its result are
    rows of the frame it was given, in their order. *)
Theorem convert_date_and_derive_rows
    (df df' : DataFrame) (mapping : Dict.t string) (sm : summary) :
  convert_date_and_derive df mapping = Ok (df', sm) →
  df_index df' `sublist_of` df_index df ∧ (len df' ≤ len df)%nat.
Proof.
  intros Hok.
  assert (df_index df' `sublist_of` df_index df) as Hsub;
    [|split; [exact Hsub|by apply sublist_length]].
  unfold convert_date_and_derive, copy in Hok.
  set (df0 := rename_columns df (reverse_dict mapping)) in Hok.
  destruct (has_column df0 "Date"); [|by injection Hok as <- _].
  set (df1 := drop_columns df0 ["New"; "PendingS"]) in Hok.
  assert (df_index (if has_column df1 "Amount" then dropna_subset df1 "Amount" else df1)
          `sublist_of` df_index df) as H2.
  { destruct (has_column df1 "Amount"); [|reflexivity].
    change (df_index df) with (df_index df1). apply dropna_subset_index. }
  set (df2 := if has_column df1 "Amount" then dropna_subset df1 "Amount" else df1) in *.
  destruct (getitem df2 "Date") as [sel|e]; [|discriminate Hok]. simpl mbind in Hok.
  destruct (to_datetime sel) as [dates|e]; [|discriminate Hok]. simpl mbind in Hok.
  set (df4 := dropna_subset (setitem df2 "Date" dates) "Date") in Hok.
  assert (df_index df4 `sublist_of` df_index df) as H4.
  { transitivity (df_index df2); [|exact H2].
    change (df_index df2) with (df_index (setitem df2 "Date" dates)).
    apply dropna_subset_index. }
  destruct (if has_column df4 "B2B" then map_b2b df4 else Ok df4) as [df5|e] eqn:E5;
    [|discriminate Hok].
  assert (df_index df5 = df_index df4) as H5.
  { destruct (has_column df4 "B2B"); [by apply map_b2b_index|by injection E5 as <-]. }
  simpl mbind in Hok.
  destruct (getitem df5 "Date") as [sel5|e]; [|discriminate Hok]. simpl mbind in Hok.
  destruct (dt Dates.dt_month sel5) as [month|e]; [|discriminate Hok]. simpl mbind in Hok.
  destruct (getitem _ "Date") as [sel6|e]; [|discriminate Hok]. simpl mbind in Hok.
  destruct (dt Dates.dt_year sel6) as [year|e]; [|discriminate Hok]. simpl mbind in Hok.
  destruct (getitem _ "Date") as [sel7|e]; [|discriminate Hok]. simpl mbind in Hok.
  destruct (dt Dates.dt_day_name sel7) as [day|e]; [|discriminate Hok]. simpl mbind in Hok.
  injection Hok as <- _. simpl. by rewrite H5.
Qed.

Lemma convert_date_and_derive_rows_witness :
  ∃ df' sm,
    convert_date_and_derive Sample.orders Sample.identity_mapping = Ok (df', sm) ∧
    df_index df' `sublist_of` [0; 1; 2] ∧ (len df' ≤ 3)%nat.
Proof.
  assert (∃ df' sm, convert_date_and_derive Sample.orders Sample.identity_mapping
                    = Ok (df', sm)) as (df' & sm & Hok)
    by (eexists _, _; vm_compute; reflexivity).
  exists df', sm. split; [exact Hok|].
  exact (convert_date_and_derive_rows Sample.orders df' Sample.identity_mapping sm Hok).
Defined.

(** *** The dates that the format yields *)







(** ** The dictionary of the mapping form *)

Lemma dict_set_keys {V} k (v : V) d :
  NoDup (Dict.keys d) → NoDup (Dict.keys (Dict.set k v d)) ∧
  ∀ k', k' ∈ Dict.keys (Dict.set k v d) ↔ k' = k ∨ k' ∈ Dict.keys d.
Proof.
  unfold Dict.keys. induction d as [|[k0 v0] d IH]; simpl; intros Hnd.
  - split; [apply NoDup_singleton|]. intros k'. rewrite list_elem_of_singleton.
    rewrite elem_of_nil. tauto.
  - apply NoDup_cons in Hnd as [Hk0 Hnd]. destruct (IH Hnd) as [IH1 IH2].
    destruct (decide (k = k0)) as [->|Hne]; simpl.
    + split; [by apply NoDup_cons|]. intros k'. rewrite !elem_of_cons. tauto.
    + split.
      * apply NoDup_cons. split; [|exact IH1]. rewrite IH2. intros [E|H]; by auto.
      * intros k'. rewrite !elem_of_cons, IH2. tauto.
Qed.

Lemma dict_get_elem {V} k (v : V) d :
  NoDup (Dict.keys d) → (k, v) ∈ d ↔ Dict.get k d = Some v.
Proof.
  unfold Dict.keys. induction d as [|[k0 v0] d IH]; simpl; intros Hnd.
  - rewrite elem_of_nil. split; [done|discriminate].
  - apply NoDup_cons in Hnd as [Hk0 Hnd]. rewrite elem_of_cons.
    destruct (decide (k = k0)) as [->|Hne].
    + split.
      * intros [E|Hin]; [by injection E as ->|].
        exfalso. apply Hk0. apply list_elem_of_fmap. by exists (k0, v).
      * intros [= ->]. by left.
    + rewrite <- (IH Hnd). split; [|by right].
      intros [E|Hin]; [|done]. injection E as -> _. by destruct Hne.
Qed.

(** The form's dictionary, built over the standard names [l]. *)
Lemma build_col_map_fold (selected : string → string) (l : list string) :
  let col_map :=
    fold_left
      (λ col_map std_name,
         if decide (selected std_name ≠ "SKIP")
         then Dict.set (selected std_name) std_name col_map
         else col_map) l [] in
  NoDup (Dict.keys col_map) ∧
  ∀ src, Dict.get src col_map =
         if decide (src = "SKIP") then None
         else last (filter (λ std_name, selected std_name = src) l).
Proof.
  induction l as [|x l IH] using rev_ind; simpl.
  - split; [apply NoDup_nil_2|]. intros src. by destruct (decide (src = "SKIP")).
  - rewrite fold_left_app. simpl. destruct IH as [IHnd IHget].
    split.
    + destruct (decide (selected x ≠ "SKIP")); [|exact IHnd].
      by apply dict_set_keys.
    + intros src. rewrite filter_app, filter_cons, filter_nil.
      destruct (decide (selected x ≠ "SKIP")) as [Hx|Hx].
      * rewrite dict_get_set, IHget.
        destruct (decide (src = selected x)) as [->|Hne].
        -- rewrite decide_False by exact Hx. rewrite decide_True by done.
           by rewrite last_snoc.
        -- rewrite (decide_False (P := selected x = src)) by (intros E; by apply Hne).
           by rewrite app_nil_r.
      * rewrite IHget. destruct (decide (src = "SKIP")) as [->|Hs]; [done|].
        rewrite (decide_False (P := selected x = src)); [by rewrite app_nil_r|].
        intros E. apply Hx. intros E'. apply Hs. by rewrite <- E, E'.
Qed.

Lemma rejected_iff_missing col_map s :
  rejected col_map s ↔ missing_critical col_map ≠ [].
Proof.
  split.
  - intros (missing & Hne & Heq) Hnil.
    rewrite (apply_mapping_complete _ _ Hnil) in Heq.
    apply (f_equal alerts) in Heq. simpl in Heq.
    by apply app_inj_tail in Heq as [_ ?].
  - intros Hne. exists (missing_critical col_map). split; [done|].
    by apply apply_mapping_missing.
Qed.

(** X15.  What the mapping form stores for a source column: the last
    standard name, in the order of the form, for which that column was
    chosen; nothing for SKIP or for a column that was not chosen. *)
Theorem build_col_map_get (selected : string → string) (src : string) :
  Dict.get src (build_col_map selected)
  = if decide (src = "SKIP") then None
    else last (filter (λ std_name, selected std_name = src) (Dict.keys REQUIRED_COLS)).
Proof. apply (build_col_map_fold selected (Dict.keys REQUIRED_COLS)). Qed.

(** X16.  The mapping is refused exactly when one of Date, Amount, Order
    ID was left on SKIP or had its source column chosen again for a
    standard name further down the form. *)
Theorem mapping_rejected_iff_skipped_or_chosen_again
    (selected : string → string) (s : session) :
  rejected (build_col_map selected) s ↔
  ∃ c, c ∈ CRITICAL_COLS ∧
       (selected c = "SKIP" ∨
        last (filter (λ std_name, selected std_name = selected c)
                     (Dict.keys REQUIRED_COLS)) ≠ Some c).
Proof.
  destruct (build_col_map_fold selected (Dict.keys REQUIRED_COLS)) as [Hnd Hget].
  fold (build_col_map selected) in Hnd, Hget.
  assert (∀ c, c ∈ Dict.values (build_col_map selected) ↔
               selected c ≠ "SKIP" ∧
               last (filter (λ std_name, selected std_name = selected c)
                            (Dict.keys REQUIRED_COLS)) = Some c) as Hval.
  { intros c. unfold Dict.values. rewrite list_elem_of_fmap. split.
    - intros ([src c'] & -> & Hin). simpl.
      pose proof Hin as Hin'. apply build_col_map_entries in Hin' as (-> & Hne & _).
      split; [exact Hne|].
      apply (dict_get_elem _ _ _ Hnd) in Hin. rewrite Hget in Hin.
      by rewrite decide_False in Hin by exact Hne.
    - intros [Hne Hlast]. exists (selected c, c). split; [done|].
      apply (dict_get_elem _ _ _ Hnd). rewrite Hget.
      by rewrite decide_False by exact Hne. }
  rewrite rejected_iff_missing. split.
  - intros Hne. destruct (missing_critical (build_col_map selected)) as [|c l] eqn:E;
      [done|].
    assert (c ∈ missing_critical (build_col_map selected)) as Hc by (rewrite E; left).
    apply missing_critical_spec in Hc as [Hc Hun].
    apply unassigned_values in Hun. rewrite Hval in Hun.
    exists c. split; [exact Hc|].
    destruct (decide (selected c = "SKIP")) as [Hs|Hs]; [by left|right].
    intros Hl. apply Hun. by split.
  - intros (c & Hc & Hbad) Hnil.
    assert (c ∈ missing_critical (build_col_map selected)) as Hin.
    { apply missing_critical_spec. split; [exact Hc|].
      apply unassigned_values. rewrite Hval. intros [Hs Hl].
      destruct Hbad as [Hb|Hb]; [by apply Hs|by apply Hb]. }
    rewrite Hnil in Hin. by apply elem_of_nil in Hin.
Qed.

(** ** Undo and redo *)

Lemma session_eq (a b : session) :
  current_step a = current_step b → df_raw a = df_raw b →
  df_current a = df_current b → snapshots a = snapshots b →
  column_mapping a = column_mapping b → data_loaded a = data_loaded b →
  mapped a = mapped b → missing_threshold a = missing_threshold b →
  step_output a = step_output b → step_summaries a = step_summaries b →
  show_null_sample a = show_null_sample b →
  show_custom_dashboard a = show_custom_dashboard b → alerts a = alerts b →
  a = b.
Proof. destruct a, b. simpl. intros. by subst. Qed.

(** X17.  A step that was undone can be run again: when the snapshot
    before the step holds the working frame, running the step, undoing it
    and running it again leaves the session as the first run of the step
    left it. *)
Theorem redo_after_undo (s : session) (n : Z) (flag : bool) :
  1 ≤ n → step_succeeds n s →
  snapshots s !! (n - 1) = Some (df_current s) →
  show_custom_dashboard s = false →
  ∃ s', undo_last_step (run_step n flag s) = Ok s' ∧
        df_current s' = df_current s ∧
        run_step n flag s' = run_step n flag s.
Proof.
  intros Hn Hok Hsnap Hdash.
  pose proof Hok as Hok'. apply returns_ok in Hok' as [[df sm] Htr].
  destruct (run_step_snapshot n flag s Hok) as [_ Hptr].
  eexists. split; [|split].
  - apply undo_ok; rewrite Hptr; [lia|].
    rewrite run_step_snapshot_ne by lia. exact Hsnap.
  - reflexivity.
  - rewrite Hptr. set (s1 := run_step n flag s).
    set (s' := set_show_custom_dashboard _ _).
    assert (step_transform n (copy (df_current s')) s' = Ok (df, sm)) as Htr'.
    { rewrite <- Htr. unfold s'. simpl. unfold copy.
      apply step_transform_ext; unfold s1.
      - apply run_step_threshold.
      - apply run_step_mapping. }
    rewrite (run_step_ok n flag s' df sm Htr').
    unfold s', s1. rewrite (run_step_ok n flag s df sm Htr).
    apply session_eq; simpl; try done; by rewrite insert_insert_eq.
Qed.

Lemma redo_after_undo_witness :
  ∃ s', undo_last_step (run_step 2 false (run_step 1 false Sample.mapped_identity))
          = Ok s' ∧
        df_current s' = df_current (run_step 1 false Sample.mapped_identity) ∧
        run_step 2 false s'
          = run_step 2 false (run_step 1 false Sample.mapped_identity).
Proof.
  apply (redo_after_undo (run_step 1 false Sample.mapped_identity) 2 false).
  - lia.
  - vm_compute. reflexivity.
  - vm_compute. reflexivity.
  - reflexivity.
Defined.

(** *** Undo down to the raw frame *)

Lemma in_order_snapshot_0 s : in_order s → snapshots s !! 0 = Some (df_raw s).
Proof.
  induction 1 as [df s Hne|m s _ IH|n flag s _ IH Hn|s s' _ IH Hu|s _ IH Hm Hok].
  - unfold load_raw. rewrite Hne. simpl. apply lookup_insert_eq.
  - unfold apply_mapping. by destruct (missing_critical m).
  - rewrite run_step_snapshot_ne, run_step_df_raw by lia. exact IH.
  - unfold undo_last_step in Hu. destruct (0 <=? current_step s - 1).
    + destruct (snapshots s !! (current_step s - 1)); [|discriminate].
      by injection Hu as <-.
    + by injection Hu as <-.
  - rewrite (run_all_steps_mapped _ Hm).
    rewrite run_steps_snapshot_ne
      by (rewrite !elem_of_cons, elem_of_nil; lia).
    assert (∀ l s0, df_raw (run_steps l s0) = df_raw s0) as Hraw.
    { induction l as [|k l IHl]; intros s0; [done|].
      rewrite run_steps_cons, IHl. apply run_step_df_raw. }
    rewrite Hraw. simpl. apply lookup_insert_eq.
Qed.

(** X18.  In a session whose steps were run in order, pressing Undo as
    many times as the step pointer says never fails and ends at step 0
    with the raw frame as the working frame. *)
Theorem undo_down_to_raw (s : session) :
  in_order s →
  ∃ s', undo_times (Z.to_nat (current_step s)) s = Ok s' ∧
        current_step s' = 0 ∧ df_current s' = df_raw s.
Proof.
  remember (Z.to_nat (current_step s)) as k eqn:Hk.
  revert s Hk. induction k as [|k IH]; intros s Hk Hin.
  - destruct (in_order_complete s Hin) as (Hp & Hcur & _).
    assert (current_step s = 0) as E by lia.
    exists s. split; [done|]. split; [done|].
    pose proof (in_order_snapshot_0 s Hin) as H0. rewrite E in Hcur. congruence.
  - destruct (in_order_complete s Hin) as (Hp & _ & Hkeys).
    destruct (Hkeys (current_step s - 1)) as [snap Hsnap]; [lia|].
    pose proof (undo_ok s snap ltac:(lia) Hsnap) as Hu.
    set (s1 := set_show_custom_dashboard _ _) in Hu.
    assert (current_step s1 = current_step s - 1) as Hp1 by reflexivity.
    assert (df_raw s1 = df_raw s) as Hr1 by reflexivity.
    destruct (IH s1 ltac:(lia) (in_order_undo s _ Hin Hu)) as (s' & Hs' & Hp' & Hd').
    exists s'. split; [|split; [exact Hp'|by rewrite Hd']].
    replace (Z.to_nat (current_step s1)) with k in Hs' by lia.
    simpl undo_times. rewrite Hu. exact Hs'.
Qed.

Lemma undo_down_to_raw_witness :
  ∃ s', undo_times 3 (run_manually [1; 2; 3] Sample.mapped_identity) = Ok s' ∧
        current_step s' = 0 ∧ df_current s' = Sample.orders.
Proof.
  apply (undo_down_to_raw (run_manually [1; 2; 3] Sample.mapped_identity)).
  unfold run_manually. simpl fold_left.
  apply in_order_step; [|vm_compute; split; discriminate].
  apply in_order_step; [|vm_compute; split; discriminate].
  apply in_order_step; [|vm_compute; split; discriminate].
  apply in_order_mapping. by apply in_order_load.
Defined.



(** ** A full run, twice *)

Lemma run_step_data_loaded n flag s : data_loaded (run_step n flag s) = data_loaded s.
Proof. run_step_cases. Qed.

Lemma run_step_show_null_sample n flag s :
  show_null_sample (run_step n flag s) = show_null_sample s.
Proof. run_step_cases. Qed.

Lemma run_step_show_custom_dashboard n flag s :
  show_custom_dashboard (run_step n flag s) = show_custom_dashboard s.
Proof. run_step_cases. Qed.

Lemma run_step_alerts n flag s :
  step_succeeds n s → alerts (run_step n flag s) = alerts s.
Proof.
  intros H. apply returns_ok in H as [[df sm] H].
  rewrite (run_step_ok _ _ _ _ _ H). by destruct flag.
Qed.

Lemma run_step_summary_ne n flag s k :
  k ≠ n → step_summaries (run_step n flag s) !! k = step_summaries s !! k.
Proof.
  intros Hk. unfold run_step.
  destruct (step_transform _ _ _) as [[df sm]|e]; [|done].
  destruct flag; simpl; by rewrite lookup_insert_ne.
Qed.

(** What a run of steps leaves alone. *)
Lemma run_steps_keeps l s :
  df_raw (run_steps l s) = df_raw s ∧
  column_mapping (run_steps l s) = column_mapping s ∧
  missing_threshold (run_steps l s) = missing_threshold s ∧
  mapped (run_steps l s) = mapped s ∧
  data_loaded (run_steps l s) = data_loaded s ∧
  show_null_sample (run_steps l s) = show_null_sample s ∧
  show_custom_dashboard (run_steps l s) = show_custom_dashboard s ∧
  (∀ k, k ∉ l → step_summaries (run_steps l s) !! k = step_summaries s !! k) ∧
  (no_failure l s → alerts (run_steps l s) = alerts s).
Proof.
  revert s. induction l as [|n l IH]; intros s.
  - repeat split; done.
  - rewrite run_steps_cons.
    destruct (IH (run_step n true s)) as (H1 & H2 & H3 & H4 & H5 & H6 & H7 & H8 & H9).
    rewrite H1, H2, H3, H4, H5, H6, H7.
    rewrite run_step_df_raw, run_step_mapping, run_step_threshold, run_step_mapped,
      run_step_data_loaded, run_step_show_null_sample, run_step_show_custom_dashboard.
    repeat (split; [reflexivity|]). split.
    + intros k Hk. apply not_elem_of_cons in Hk as [Hn Hl].
      rewrite H8 by exact Hl. by apply run_step_summary_ne.
    + intros [Hn Hl]. rewrite H9 by exact Hl. by apply run_step_alerts.
Qed.

Lemma run_steps_same_inputs_both l s1 s2 :
  same_inputs s1 s2 → same_inputs (run_steps l s1) (run_steps l s2).
Proof.
  revert s1 s2. induction l as [|k l IH]; intros s1 s2 H; [exact H|].
  rewrite !run_steps_cons. apply IH. by apply run_step_same_inputs.
Qed.

Lemma step_succeeds_same_inputs n s1 s2 :
  same_inputs s1 s2 → step_succeeds n s1 → step_succeeds n s2.
Proof.
  intros (Hd & Ht & Hm). unfold step_succeeds.
  by rewrite Hd, (step_transform_ext n _ s1 s2 Ht Hm).
Qed.

Lemma no_failure_same_inputs l s1 s2 :
  same_inputs s1 s2 → no_failure l s1 → no_failure l s2.
Proof.
  revert s1 s2. induction l as [|k l IH]; intros s1 s2 Hin; [done|].
  intros [Hk Hl]. split.
  - by apply (step_succeeds_same_inputs k s1 s2).
  - apply (IH (run_step k true s1)); [|exact Hl]. by apply run_step_same_inputs.
Qed.

(** Two runs of the same steps on the same inputs write the same frames
    and the same summaries under the keys of the steps. *)
Lemma run_steps_twice l s1 s2 k :
  same_inputs s1 s2 → no_failure l s1 → k ∈ l →
  snapshots (run_steps l s1) !! k = snapshots (run_steps l s2) !! k ∧
  step_summaries (run_steps l s1) !! k = step_summaries (run_steps l s2) !! k.
Proof.
  revert k. induction l as [|n l IH] using rev_ind; intros k Hin Hok Hk.
  - by apply elem_of_nil in Hk.
  - apply no_failure_app in Hok as [Hl [Hn _]].
    rewrite !run_steps_snoc.
    pose proof (run_steps_same_inputs_both l s1 s2 Hin) as Hin'.
    destruct (decide (k = n)) as [->|Hne].
    + pose proof Hn as Hn'. apply returns_ok in Hn' as [[df sm] Htr].
      assert (step_transform n (copy (df_current (run_steps l s2))) (run_steps l s2)
              = Ok (df, sm)) as Htr'.
      { rewrite <- Htr. destruct Hin' as (Hd & Ht & Hm). rewrite Hd.
        symmetry. by apply step_transform_ext. }
      rewrite (run_step_ok _ _ _ _ _ Htr), (run_step_ok _ _ _ _ _ Htr').
      cbn [snapshots step_summaries set_step_output set_current_step set_df_current
             make_snapshot set_snapshots set_step_summaries].
      by rewrite !lookup_insert_eq.
    + rewrite !run_step_snapshot_ne, !run_step_summary_ne by exact Hne.
      apply IH; [exact Hin|exact Hl|].
      apply elem_of_app in Hk as [Hk|Hk]; [exact Hk|].
      by apply list_elem_of_singleton in Hk.
Qed.

(** After a run without a failure the step pointer and the marker name
    the last step. *)
Lemma run_steps_last l n s :
  no_failure (l ++ [n]) s →
  current_step (run_steps (l ++ [n]) s) = n ∧
  step_output (run_steps (l ++ [n]) s) = OutRunAll n.
Proof.
  intros Hok. apply no_failure_app in Hok as [_ [Hn _]].
  rewrite run_steps_snoc. apply returns_ok in Hn as [[df sm] Htr].
  by rewrite (run_step_ok _ _ _ _ _ Htr).
Qed.

(** Running the steps from a session that already holds what the run
    writes changes nothing. *)
Lemma run_steps_again l n a b :
  same_inputs a b → no_failure (l ++ [n]) a →
  df_raw b = df_raw a → data_loaded b = data_loaded a → mapped b = mapped a →
  show_null_sample b = show_null_sample a →
  show_custom_dashboard b = show_custom_dashboard a → alerts b = alerts a →
  (∀ k, k ∉ l ++ [n] → snapshots b !! k = snapshots (run_steps (l ++ [n]) a) !! k) →
  (∀ k, k ∉ l ++ [n] →
        step_summaries b !! k = step_summaries (run_steps (l ++ [n]) a) !! k) →
  run_steps (l ++ [n]) b = run_steps (l ++ [n]) a.
Proof.
  intros Hin Hok Hraw Hload Hmapped Hnull Hdash Halerts Hsnap Hsum.
  pose proof (no_failure_same_inputs _ _ _ Hin Hok) as Hok'.
  destruct (run_steps_last l n a Hok) as [Hpa Hoa].
  destruct (run_steps_last l n b Hok') as [Hpb Hob].
  destruct (run_steps_keeps (l ++ [n]) a)
    as (Ha1 & Ha2 & Ha3 & Ha4 & Ha5 & Ha6 & Ha7 & Ha8 & Ha9).
  destruct (run_steps_keeps (l ++ [n]) b)
    as (Hb1 & Hb2 & Hb3 & Hb4 & Hb5 & Hb6 & Hb7 & Hb8 & Hb9).
  destruct (run_steps_same_inputs_both (l ++ [n]) a b Hin) as (Hd & Ht & Hm).
  apply session_eq.
  - by rewrite Hpa, Hpb.
  - by rewrite Ha1, Hb1.
  - by rewrite Hd.
  - apply map_eq. intros k. destruct (decide (k ∈ l ++ [n])) as [Hk|Hk].
    + symmetry. apply (run_steps_twice _ a b k Hin Hok Hk).
    + rewrite run_steps_snapshot_ne by exact Hk. by apply Hsnap.
  - by rewrite Hm.
  - by rewrite Ha5, Hb5.
  - by rewrite Ha4, Hb4.
  - by rewrite Ht.
  - by rewrite Hoa, Hob.
  - apply map_eq. intros k. destruct (decide (k ∈ l ++ [n])) as [Hk|Hk].
    + symmetry. apply (run_steps_twice _ a b k Hin Hok Hk).
    + rewrite Hb8 by exact Hk. by apply Hsum.
  - by rewrite Ha6, Hb6.
  - by rewrite Ha7, Hb7.
  - rewrite Ha9, Hb9 by assumption. by symmetry.
Qed.

Lemma run_all_again l n s :
  0 ∉ l ++ [n] → no_failure (l ++ [n]) (reset_to_raw s) →
  run_steps (l ++ [n]) (reset_to_raw (run_steps (l ++ [n]) (reset_to_raw s)))
  = run_steps (l ++ [n]) (reset_to_raw s).
Proof.
  intros H0L Hok.
  destruct (run_steps_keeps (l ++ [n]) (reset_to_raw s))
    as (Hraw & Hmap & Hthr & Hmapped & Hload & Hnull & Hdash & Hsum & Halerts).
  assert (snapshots (run_steps (l ++ [n]) (reset_to_raw s)) !! 0 = Some (df_raw s))
    as H0.
  { rewrite run_steps_snapshot_ne by exact H0L. apply lookup_insert_eq. }
  specialize (Halerts Hok).
  set (s1 := run_steps (l ++ [n]) (reset_to_raw s)) in *.
  apply run_steps_again; fold s1.
  - split; [|split].
    + change (df_raw s = df_raw s1). by rewrite Hraw.
    + change (missing_threshold s = missing_threshold s1). by rewrite Hthr.
    + change (column_mapping s = column_mapping s1). by rewrite Hmap.
  - exact Hok.
  - change (df_raw s1 = df_raw s). exact Hraw.
  - change (data_loaded s1 = data_loaded s). exact Hload.
  - change (mapped s1 = mapped s). exact Hmapped.
  - change (show_null_sample s1 = show_null_sample s). exact Hnull.
  - change (show_custom_dashboard s1 = show_custom_dashboard s). exact Hdash.
  - change (alerts s1 = alerts s). exact Halerts.
  - intros k Hk. change (<[0 := df_raw s1]> (snapshots s1) !! k = snapshots s1 !! k).
    destruct (decide (k = 0)) as [->|Hk0].
    + rewrite lookup_insert_eq, H0. f_equal. exact Hraw.
    + by rewrite lookup_insert_ne.
  - intros k Hk. reflexivity.
Qed.

(** X20.  A full run is idempotent: when no step fails, running all the
    steps a second time leaves the session exactly as the first full run
    left it. *)
Theorem run_all_steps_idempotent (s : session) :
  mapped s = true → no_failure [1; 2; 3; 4; 5; 6; 7] (reset_to_raw s) →
  run_all_steps (run_all_steps s) = run_all_steps s.
Proof.
  intros Hm Hok.
  assert (0 ∉ [1; 2; 3; 4; 5; 6] ++ [7]) as H0L
    by (cbn [app]; rewrite !elem_of_cons, elem_of_nil; lia).
  rewrite (run_all_steps_mapped s Hm).
  destruct (run_steps_keeps [1; 2; 3; 4; 5; 6; 7] (reset_to_raw s))
    as (_ & _ & _ & Hmapped & _).
  rewrite run_all_steps_mapped by (rewrite Hmapped; exact Hm).
  exact (run_all_again [1; 2; 3; 4; 5; 6] 7 s H0L Hok).
Qed.

Lemma run_all_steps_idempotent_witness :
  run_all_steps (run_all_steps Sample.mapped_identity)
  = run_all_steps Sample.mapped_identity.
Proof.
  apply run_all_steps_idempotent; vm_compute; repeat split.
Defined.

(** ** What the page keeps *)

(** One step and the stores. *)
Lemma run_step_stores n flag s :
  (∀ k, is_Some (snapshots (run_step n flag s) !! k) →
        k = n ∨ is_Some (snapshots s !! k)) ∧
  (∀ k, is_Some (step_summaries (run_step n flag s) !! k) →
        k = n ∨ is_Some (step_summaries s !! k)) ∧
  (current_step (run_step n flag s) = n ∨
   current_step (run_step n flag s) = current_step s) ∧
  (is_run_all_output 7 (run_step n flag s) = true →
   current_step (run_step n flag s) = 7).
Proof.
  unfold run_step. destruct (step_transform _ _ _) as [[df sm]|e].
  - assert (∀ {A} (m : gmap Z A) (x : A) k,
              is_Some (<[n:=x]> m !! k) → k = n ∨ is_Some (m !! k)) as Hins.
    { intros A m x k. destruct (decide (k = n)) as [->|Hne]; [by left|].
      rewrite lookup_insert_ne by done. by right. }
    destruct flag; simpl; (split; [apply Hins|]); (split; [apply Hins|]);
      (split; [by left|]); unfold is_run_all_output; simpl; [|done].
    intros H. by apply Z.eqb_eq in H.
  - simpl. split; [by right|]. split; [by right|]. split; [by right|].
    unfold is_run_all_output. simpl. done.
Qed.

Lemma page_invariant_step n flag s :
  1 ≤ n ≤ 7 → page_invariant s → show_custom_dashboard s = false →
  page_invariant (run_step n flag s).
Proof.
  intros Hn (Hp & Ht & Hsnap & Hsum & Hload & Hmap & Hmark & Hdash) Hflag.
  destruct (run_step_stores n flag s) as (Hs1 & Hs2 & Hs3 & Hs4).
  unfold page_invariant.
  rewrite run_step_threshold, run_step_data_loaded, run_step_mapped,
    run_step_mapping, run_step_df_raw, run_step_show_custom_dashboard.
  split; [destruct Hs3 as [-> | ->]; lia|]. split; [done|].
  split; [intros k Hk; destruct (Hs1 k Hk) as [->|Hk']; [lia|by apply Hsnap]|].
  split; [intros k Hk; destruct (Hs2 k Hk) as [->|Hk']; [lia|by apply Hsum]|].
  split; [|split; [done|split; [done|by rewrite Hflag]]].
  intros Hl. destruct (Hload Hl) as [He H0]. split; [done|].
  by rewrite run_step_snapshot_ne by lia.
Qed.

Lemma page_invariant_run_steps l s :
  (∀ n, n ∈ l → 1 ≤ n ≤ 7) → page_invariant s → show_custom_dashboard s = false →
  page_invariant (run_steps l s).
Proof.
  revert s. induction l as [|n l IH]; intros s Hl Hinv Hflag; [done|].
  rewrite run_steps_cons. apply IH.
  - intros; apply Hl; by right.
  - apply page_invariant_step; [apply Hl; by left|done..].
  - by rewrite run_step_show_custom_dashboard.
Qed.

Lemma page_keeps_invariant s : reachable s → page_invariant s.
Proof.
  induction 1 as [|df s _ IH Hflag|v s _ IH Hflag Hl Hv|b s _ IH Hflag Hl
                  |s _ IH Hflag Hl|s s' _ IH Hflag Hl Hu|s _ IH Hflag
                  |selected s _ IH Hview Hl Hm Hsel
                  |n s _ IH Hview Hl Hm Hn Hb|n s _ IH Hview Hl Hm Hn Hb Hb'
                  |s _ IH Hview Hl Hm Hbody Herr].
  - (* a fresh session *)
    unfold page_invariant, init_state, is_run_all_output. simpl.
    split; [lia|]. split; [lia|].
    split; [intros k Hk; rewrite lookup_empty in Hk; by destruct Hk|].
    split; [intros k Hk; rewrite lookup_empty in Hk; by destruct Hk|].
    done.
  - (* Load *)
    destruct IH as (Hp & Ht & Hsnap & Hsum & Hload & Hmap & Hmark & Hdash).
    unfold load_raw. destruct (is_empty df) eqn:He; simpl; [done|].
    unfold page_invariant, is_run_all_output. simpl.
    split; [lia|]. split; [done|]. split.
    { intros k Hk. destruct (decide (k = 0)) as [->|Hne]; [lia|].
      rewrite lookup_insert_ne in Hk by done. by apply Hsnap. }
    split; [done|]. split; [intros _; by rewrite lookup_insert_eq|].
    split; [done|]. split; [done|]. by rewrite Hflag.
  - (* the slider *)
    destruct IH as (Hp & Ht & Hsnap & Hsum & Hload & Hmap & Hmark & Hdash).
    unfold page_invariant, is_run_all_output. simpl.
    split; [exact Hp|]. split; [exact Hv|]. split; [exact Hsnap|].
    split; [exact Hsum|]. split; [exact Hload|]. split; [exact Hmap|].
    split; [exact Hmark|exact Hdash].
  - (* the check box *)
    exact IH.
  - (* Run All *)
    destruct (mapped s) eqn:Hm.
    + rewrite (run_all_steps_mapped s Hm).
      apply page_invariant_run_steps;
        [intros n; rewrite !elem_of_cons, elem_of_nil; lia| |exact Hflag].
      destruct IH as (Hp & Ht & Hsnap & Hsum & Hload' & Hmap & Hmark & Hdash).
      unfold page_invariant, is_run_all_output, reset_to_raw. simpl.
      split; [done|]. split; [done|]. split.
      { intros k Hk. destruct (decide (k = 0)) as [->|Hne]; [lia|].
        rewrite lookup_insert_ne in Hk by done. by apply Hsnap. }
      split; [done|]. split.
      { intros _. split; [by apply Hload'|]. by rewrite lookup_insert_eq. }
      done.
    + unfold run_all_steps. rewrite Hm. exact IH.
  - (* Undo *)
    destruct IH as (Hp & Ht & Hsnap & Hsum & Hload & Hmap & Hmark & Hdash).
    unfold undo_last_step in Hu. destruct (Z.leb_spec 0 (current_step s - 1)).
    + destruct (snapshots s !! (current_step s - 1)) as [snap|]; [|discriminate].
      injection Hu as <-. unfold page_invariant, is_run_all_output. simpl.
      split; [lia|]. split; [exact Ht|]. split; [exact Hsnap|].
      split; [exact Hsum|]. split; [exact Hload|]. split; [exact Hmap|].
      split; discriminate.
    + injection Hu as <-. exact (conj Hp (conj Ht (conj Hsnap (conj Hsum
        (conj Hload (conj Hmap (conj Hmark Hdash))))))).
  - (* Back *)
    destruct IH as (Hp & Ht & Hsnap & Hsum & Hload & Hmap & Hmark & Hdash).
    unfold page_invariant, is_run_all_output. simpl.
    split; [exact Hp|]. split; [exact Ht|]. split; [exact Hsnap|].
    split; [exact Hsum|]. split; [exact Hload|]. split; [exact Hmap|].
    split; [exact Hmark|discriminate].
  - (* Apply Mapping *)
    destruct IH as (Hp & Ht & Hsnap & Hsum & Hload & Hmap & Hmark & Hdash).
    unfold apply_mapping.
    destruct (missing_critical (build_col_map selected)) eqn:Hcrit; [|done].
    unfold page_invariant, is_run_all_output. simpl.
    split; [done|]. split; [done|]. split; [done|]. split; [done|].
    split; [done|]. split; [|split; [done|]].
    + intros _. split; [done|]. split; [done|]. intros src std Hin.
      apply build_col_map_entries in Hin as (-> & Hskip & Hstd). split; [|done].
      specialize (Hsel std). apply elem_of_cons in Hsel as [E|Hsel]; done.
    + intros Hd. destruct (Hdash Hd) as [_ Hm']. congruence.
  - (* a step *)
    apply page_invariant_step; [done..|].
    destruct (show_custom_dashboard s) eqn:Hflag; [|done].
    destruct IH as (_ & _ & _ & _ & _ & _ & _ & Hdash).
    destruct (Hdash Hflag) as [H7 _].
    unfold dashboard_view in Hview. rewrite Hflag, H7 in Hview. discriminate.
  - (* a step, and the marker written by its card *)
    assert (show_custom_dashboard s = false) as Hflag.
    { destruct (show_custom_dashboard s) eqn:Hflag; [|done].
      destruct IH as (_ & _ & _ & _ & _ & _ & _ & Hdash).
      destruct (Hdash Hflag) as [H7 _].
      unfold dashboard_view in Hview. rewrite Hflag, H7 in Hview. discriminate. }
    pose proof (page_invariant_step n false s Hn IH Hflag)
      as (Hp & Ht & Hsnap & Hsum & Hload & Hmap & Hmark & Hdash).
    unfold page_invariant, is_run_all_output. simpl.
    split; [done|]. split; [done|]. split; [done|]. split; [done|].
    split; [done|]. split; [done|]. split; [|done].
    intros E. apply Z.eqb_eq in E as ->.
    by rewrite (run_step_ok 7 false s _ _ (checkpoint_transform 7 _ s ltac:(lia))).
  - (* to the dashboard *)
    destruct IH as (Hp & Ht & Hsnap & Hsum & Hload & Hmap & Hmark & Hdash).
    unfold page_invariant, is_run_all_output. simpl.
    repeat (split; [done|]). intros _. split; [|done].
    unfold card_body_drawn, is_executed in Hbody.
    apply orb_true_iff in Hbody as [H7|H7]; [|by apply Hmark].
    apply Z.leb_le in H7. lia.
Qed.

(** X21.  Whatever is pressed on the page, the step pointer stays
    between 0 and 7 and the threshold between 0 and 100, the snapshot
    store has no key outside 0 to 7 and the summaries none outside 1 to
    7. *)
Theorem page_keeps_ranges (s : session) :
  reachable s →
  0 ≤ current_step s ≤ 7 ∧ 0 ≤ missing_threshold s ≤ 100 ∧
  (∀ k, is_Some (snapshots s !! k) → 0 ≤ k ≤ 7) ∧
  (∀ k, is_Some (step_summaries s !! k) → 1 ≤ k ≤ 7).
Proof.
  intros H. destruct (page_keeps_invariant s H) as (Hp & Ht & Hsnap & Hsum & _).
  done.
Qed.

Lemma page_keeps_ranges_witness :
  0 ≤ current_step (run_step 3 false Sample.mapped_identity) ≤ 7 ∧
  0 ≤ missing_threshold (run_step 3 false Sample.mapped_identity) ≤ 100 ∧
  (∀ k, is_Some (snapshots (run_step 3 false Sample.mapped_identity) !! k) →
        0 ≤ k ≤ 7) ∧
  (∀ k, is_Some (step_summaries (run_step 3 false Sample.mapped_identity) !! k) →
        1 ≤ k ≤ 7).
Proof.
  apply page_keeps_ranges.
  apply reach_step; try (vm_compute; reflexivity); [apply reachable_mapped_identity|lia].
Defined.



(** X23.  On the page a mapped session has its data loaded, and its
    mapping assigns each of Date, Amount and Order ID; every entry of
    the mapping goes from a column of the raw frame to one of the
    standard names. *)
Theorem page_mapping_names_columns (s : session) :
  reachable s → mapped s = true →
  data_loaded s = true ∧
  (∀ c, c ∈ CRITICAL_COLS → c ∈ Dict.values (column_mapping s)) ∧
  (∀ src std, (src, std) ∈ column_mapping s →
     src ∈ columns (df_raw s) ∧ std ∈ Dict.keys REQUIRED_COLS).
Proof.
  intros H Hm.
  destruct (page_keeps_invariant s H) as (_ & _ & _ & _ & _ & Hmap & _).
  destruct (Hmap Hm) as (Hl & Hcrit & Hent). split; [done|]. split; [|done].
  intros c Hc. destruct (decide (c ∈ Dict.values (column_mapping s))) as [Hin|Hnin];
    [done|]. exfalso.
  assert (c ∈ missing_critical (column_mapping s)) as Hmiss
    by (by apply list_elem_of_filter).
  rewrite Hcrit in Hmiss. by apply elem_of_nil in Hmiss.
Qed.

Lemma page_mapping_names_columns_witness :
  data_loaded Sample.mapped_identity = true ∧
  (∀ c, c ∈ CRITICAL_COLS → c ∈ Dict.values (column_mapping Sample.mapped_identity)) ∧
  (∀ src std, (src, std) ∈ column_mapping Sample.mapped_identity →
     src ∈ columns (df_raw Sample.mapped_identity) ∧ std ∈ Dict.keys REQUIRED_COLS).
Proof.
  apply page_mapping_names_columns; [apply reachable_mapped_identity|vm_compute; reflexivity].
Defined.

(** X24.  The dashboard flag is only ever set with the pipeline at step
    7 and a mapped session, so the page shows the dashboard whenever the
    flag is set. *)
Theorem page_dashboard_after_step_7 (s : session) :
  reachable s → show_custom_dashboard s = true →
  current_step s = 7 ∧ mapped s = true ∧ dashboard_view s = true.
Proof.
  intros H Hd.
  destruct (page_keeps_invariant s H) as (_ & _ & _ & _ & _ & _ & _ & Hdash).
  destruct (Hdash Hd) as [H7 Hm]. split; [done|]. split; [done|].
  unfold dashboard_view. by rewrite Hd, H7.
Qed.

Lemma page_dashboard_after_step_7_witness :
  current_step (set_show_custom_dashboard true (run_all_steps Sample.mapped_identity)) = 7 ∧
  mapped (set_show_custom_dashboard true (run_all_steps Sample.mapped_identity)) = true ∧
  dashboard_view (set_show_custom_dashboard true (run_all_steps Sample.mapped_identity))
    = true.
Proof.
  apply page_dashboard_after_step_7; [|reflexivity].
  apply reach_see_more; try (vm_compute; reflexivity).
  apply reach_run_all; try (vm_compute; reflexivity). apply reachable_mapped_identity.
Defined.

(** ** The key rotation *)

Section GeminiRotation.

Context {model : Type}.
Variable API_KEYS : list string.
Variable configure : string → result model.
Variable generate_content : model → string → result string.

(** One look at a key that does not configure, short of the last key:
    the search goes on at the next index. *)
Lemma get_gemini_model_next (index : nat) (key : string) :
  API_KEYS !! index = Some key → raises (configure key) →
  (index + 1 < length API_KEYS)%nat →
  get_gemini_model API_KEYS configure (mkAi index None)
  = get_gemini_model API_KEYS configure (mkAi (index + 1) None).
Proof.
  intros Hkey Hfail Hlt. apply raises_raise in Hfail as [e He].
  remember (get_gemini_model API_KEYS configure (mkAi (index + 1) None)) as next
    eqn:Enext.
  simp get_gemini_model. simpl. unfold try_configure. rewrite Hkey, He. simpl.
  simp get_gemini_model.
  destruct (decide (length API_KEYS = 0%nat)) as [H0|H0]; [lia|].
  simpl. simp get_gemini_model.
  pose proof (Nat.mod_small (index + 1) (length API_KEYS) Hlt) as Hs.
  destruct (decide (((index + 1) mod length API_KEYS)%nat = 0%nat)) as [Hz|Hz].
  - lia.
  - simpl. rewrite Hs. by subst next.
Qed.

(** The last key does not configure either: the index goes back to 0 and
    no model is returned. *)
Lemma get_gemini_model_wrap (index : nat) (key : string) :
  API_KEYS !! index = Some key → raises (configure key) →
  (index + 1 = length API_KEYS)%nat →
  get_gemini_model API_KEYS configure (mkAi index None) = (Ok None, mkAi 0 None).
Proof.
  intros Hkey Hfail Hlast. apply raises_raise in Hfail as [e He].
  simp get_gemini_model. simpl. unfold try_configure. rewrite Hkey, He. simpl.
  simp get_gemini_model.
  destruct (decide (length API_KEYS = 0%nat)) as [H0|H0]; [lia|].
  simpl. simp get_gemini_model.
  destruct (decide (((index + 1) mod length API_KEYS)%nat = 0%nat)) as [Hz|Hz].
  - simpl. by rewrite Hz.
  - exfalso. apply Hz. rewrite Hlast. apply Nat.Div0.mod_same.
Qed.

Lemma get_gemini_model_found (index : nat) (key : string) (m : model) :
  API_KEYS !! index = Some key → configure key = Ok m →
  get_gemini_model API_KEYS configure (mkAi index None)
  = (Ok (Some m), mkAi index (Some m)).
Proof.
  intros Hkey Hm.
  simp get_gemini_model. simpl. unfold try_configure. rewrite Hkey, Hm. simpl.
  by simp get_gemini_model.
Qed.

(** X25.  From a fresh session the rotation finds the first key that
    configures: the keys before it are tried in order and fail, its
    model is cached and its index is kept.  When no key configures, no
    model is returned and the index is back at 0. *)
Theorem get_gemini_model_first_working_key :
  (∀ index key m,
     API_KEYS !! index = Some key → configure key = Ok m →
     (∀ j k, (j < index)%nat → API_KEYS !! j = Some k → raises (configure k)) →
     get_gemini_model API_KEYS configure (mkAi 0 None)
     = (Ok (Some m), mkAi index (Some m))) ∧
  (API_KEYS ≠ [] →
   (∀ k, k ∈ API_KEYS → raises (configure k)) →
   get_gemini_model API_KEYS configure (mkAi 0 None) = (Ok None, mkAi 0 None)).
Proof.
  split.
  - intros index key m Hkey Hm Hbefore.
    assert (∀ d start, (start + d = index)%nat →
              get_gemini_model API_KEYS configure (mkAi start None)
              = (Ok (Some m), mkAi index (Some m))) as H.
    { induction d as [|d IH]; intros start Hd.
      - assert (start = index) as -> by lia. by apply (get_gemini_model_found index key).
      - pose proof (lookup_lt_Some _ _ _ Hkey) as Hlt.
        destruct (lookup_lt_is_Some_2 API_KEYS start) as [k Hk]; [lia|].
        rewrite (get_gemini_model_next start k Hk); [|apply (Hbefore start k); [lia|done]|lia].
        apply IH. lia. }
    by apply (H index 0%nat).
  - intros Hne Hall.
    assert (∀ d start, (start + d + 1 = length API_KEYS)%nat →
              get_gemini_model API_KEYS configure (mkAi start None)
              = (Ok None, mkAi 0 None)) as H.
    { induction d as [|d IH]; intros start Hd.
      - destruct (lookup_lt_is_Some_2 API_KEYS start) as [k Hk]; [lia|].
        apply (get_gemini_model_wrap start k Hk); [|lia].
        apply Hall. by apply list_elem_of_lookup_2 in Hk.
      - destruct (lookup_lt_is_Some_2 API_KEYS start) as [k Hk]; [lia|].
        rewrite (get_gemini_model_next start k Hk); [apply IH; lia| |lia].
        apply Hall. by apply list_elem_of_lookup_2 in Hk. }
    apply (H (length API_KEYS - 1)%nat 0%nat).
    destruct API_KEYS; [done|simpl; lia].
Qed.

(** X26.  A request that fails does not rotate the key: once a model is
    cached, every answer comes from that model, or is the fixed failure
    text when its request raises, and the session keeps the model and
    the index as they were. *)
Theorem get_gemini_response_keeps_cached_model
    (prompt : string) (index : nat) (m : model) :
  get_gemini_response API_KEYS configure generate_content prompt (mkAi index (Some m))
  = (Ok (match generate_content m prompt with
         | Ok text => text
         | Raise _ => request_failed
         end),
     mkAi index (Some m)).
Proof.
  unfold get_gemini_response. simp get_gemini_model. simpl.
  by destruct (generate_content m prompt).
Qed.

(** X27.  With at least one key the answer is a text, whatever the
    state of the session, and a search that had no model cached leaves
    the key index inside the list. *)
Theorem get_gemini_response_total (prompt : string) (s : ai_state) :
  API_KEYS ≠ [] →
  ∃ text s',
    get_gemini_response API_KEYS configure generate_content prompt s = (Ok text, s') ∧
    (gemini_model s = None → (api_key_index s' < length API_KEYS)%nat).
Proof.
  intros Hne.
  assert (∀ s0 r s', get_gemini_model API_KEYS configure s0 = (r, s') →
            gemini_model s0 = None → (api_key_index s' < length API_KEYS)%nat) as Hidx.
  { intros s0. funelim (get_gemini_model API_KEYS configure s0);
      intros r0 s0' Hres Hnone; simpl in *; try congruence.
    - injection Hres as _ <-. simpl. unfold try_configure in Heq.
      destruct (API_KEYS !! api_key_index s) as [k|] eqn:Hk; [|discriminate].
      by apply lookup_lt_Some in Hk.
    - exfalso. apply Hne. by apply nil_length_inv.
    - injection Hres as _ <-. simpl. apply Nat.mod_upper_bound. lia.
    - by apply (H prompt s0 Hne0 r0 s0' Hres). }
  unfold get_gemini_response.
  destruct (get_gemini_model_returns API_KEYS configure s Hne) as (m & s' & E).
  rewrite E. pose proof (Hidx s _ _ E) as Hs'.
  destruct m as [m|]; [|by eauto].
  destruct (generate_content m prompt); eauto.
Qed.

End GeminiRotation.

Lemma get_gemini_response_total_witness :
  ∃ text s',
    get_gemini_response ["key-1"; "key-2"]
      (λ key, if decide (key = "key-2") then Ok tt else Raise (ServiceError "invalid key"))
      (λ _ prompt, Ok prompt) "report" (mkAi 0 None) = (Ok text, s') ∧
    (gemini_model (mkAi 0 (@None unit)) = None → (api_key_index s' < 2)%nat).
Proof.
  apply (get_gemini_response_total ["key-1"; "key-2"]). discriminate.
Defined.

Lemma get_gemini_response_all_failed_witness :
  ∃ s', get_gemini_response ["key-1"; "key-2"]
          (λ _, Raise (ServiceError "invalid key"))
          (λ (_ : unit) prompt, Ok prompt) "report" (mkAi 0 None)
        = (Ok all_keys_failed, s').
Proof.
  apply (get_gemini_response_all_failed ["key-1"; "key-2"]); [discriminate|].
  intros key. reflexivity.
Defined.
